(** * HRNet keypoint head: heatmap decoding and flip test

    Shallow embedding of
    [paddlex/ppdet/modeling/architectures/keypoint_hrnet.py]:
    [HRNetPostProcess.get_max_preds], [HRNetPostProcess.get_final_preds],
    [HRNetPostProcess.__call__], [TopDownHRNet.flip_back],
    [TopDownHRNet._forward], [TopDownHRNet.get_loss] and
    [TopDownHRNet.get_pred].

    Numbers.  Heatmap scores and coordinates are float32 values in the
    source.  They are modelled as rationals [Q]: every finite float is a
    rational, and comparison, [argmax], [amax] and the sign of a
    difference of two finite floats agree with their exact counterparts.
    Two places of the source round in float32 in a way that changes the
    decoded keypoint, and both are modelled: the cast of a flat index to
    float32 (line 145, [to_float]: exact up to 2^24, rounded above) and
    the quarter-pixel addition (line 186, [f32_add_quarter]: exact up to
    2^22, absorbed above).  The quotient of line 148 is taken exactly;
    for operands up to 2^24 its floor is the floor of the float32
    quotient.  NaN, infinities and the rounding of
    [hrnet_outputs + output_flipped] are outside the model.

    Arrays.  A numpy array is its shape together with its elements in
    C order.  A view (the result of [a[:, :, :, ::-1]]) is an offset and
    strides over the buffer of the array it was taken from, so writes
    through the view land in that buffer. *)

From Stdlib Require Import ZArith QArith Qround Qabs Lia Lqa String.
From stdpp Require Import base list gmap strings.

(** ** Exceptions *)

Inductive exn : Type :=
| AssertionError (msg : string)
| ValueError
| IndexError
| TypeError.

Inductive result (A : Type) : Type :=
| Ok (a : A)
| Raise (e : exn).
Arguments Ok {A} a.
Arguments Raise {A} e.

Definition bind {A B} (c : result A) (k : A -> result B) : result B :=
  match c with
  | Ok a => k a
  | Raise e => Raise e
  end.

Notation "x <- c ;; k" := (bind c (fun x => k))
  (at level 100, c at next level, right associativity).

Definition is_assertion_error {A} (r : result A) : Prop :=
  match r with
  | Raise (AssertionError _) => True
  | _ => False
  end.

Definition returns {A} (r : result A) : Prop :=
  match r with
  | Ok _ => True
  | Raise _ => False
  end.

(** [mapM]: run [f] on every element, left to right, stopping at the first
    exception. *)
Fixpoint mapM {A B} (f : A -> result B) (l : list A) : result (list B) :=
  match l with
  | [] => Ok []
  | x :: r => y <- f x ;; ys <- mapM f r ;; Ok (y :: ys)
  end.

(** [imapM f i l]: as [mapM], [f] also receives the position, counted
    from [i]. *)
Fixpoint imapM {A B} (f : nat -> A -> result B) (i : nat) (l : list A)
  : result (list B) :=
  match l with
  | [] => Ok []
  | x :: r => y <- f i x ;; ys <- imapM f (S i) r ;; Ok (y :: ys)
  end.

(** Python's [seq[i]] for an integer [i]: negative indices count from the
    end, anything outside [-len, len) raises IndexError. *)
Definition getitem {A} (l : list A) (i : Z) : result A :=
  let len := Z.of_nat (length l) in
  let j := if (i <? 0)%Z then (i + len)%Z else i in
  if ((0 <=? j) && (j <? len))%Z
  then match l !! Z.to_nat j with
       | Some x => Ok x
       | None => Raise IndexError
       end
  else Raise IndexError.

(** ** numpy *)

Module np.

Record ndarray : Type := NdArray { shape : list nat; data : list Q }.

Definition ndim (a : ndarray) : nat := length (shape a).
Definition numel (a : ndarray) : nat := length (data a).
(** [a.shape[i]] (0 when [i] is not an axis; the callers check [ndim]
    first). *)
Definition dim (a : ndarray) (i : nat) : nat := nth i (shape a) 0%nat.

(** An array holds as many elements as its shape says. *)
Definition wf (a : ndarray) : Prop :=
  length (data a) = foldr Nat.mul 1%nat (shape a).

(** [a.reshape((..., -1))] where the given dimensions multiply to
    [known]: numpy infers the last dimension, and raises ValueError when
    [known] is zero or does not divide the size. *)
Definition reshape_infer (a : ndarray) (known : nat) : result nat :=
  if (known =? 0)%nat || negb (numel a mod known =? 0)%nat
  then Raise ValueError
  else Ok (numel a / known)%nat.

(** [chunks k n l]: the first [n] consecutive blocks of [k] elements. *)
Fixpoint chunks (k n : nat) (l : list Q) : list (list Q) :=
  match n with
  | O => []
  | S n' => take k l :: chunks k n' (drop k l)
  end.

(** [a.reshape((d0, d1, -1))] as nested rows. *)
Definition reshape3 (a : ndarray) (d0 d1 : nat)
  : result (list (list (list Q))) :=
  k <- reshape_infer a (d0 * d1) ;;
  Ok (map (chunks k d1) (chunks (d1 * k) d0 (data a))).

(** [a[n][p]] of a 4-dimensional array, for [n], [p] produced by
    [range]: the 2-dimensional sub-array as rows. *)
Definition sub2 (a : ndarray) (n p : nat) : result (list (list Q)) :=
  match shape a with
  | [d0; d1; d2; d3] =>
      if (n <? d0)%nat && (p <? d1)%nat
      then Ok (chunks d3 d2 (drop ((n * d1 + p) * (d2 * d3)) (data a)))
      else Raise IndexError
  | _ => Raise IndexError
  end.

(** Element [a[n, j, y, x]] of a 4-dimensional C-ordered array
    (0 outside the buffer; used in statements only). *)
Definition item4 (a : ndarray) (n j y x : nat) : Q :=
  match shape a with
  | [_; d1; d2; d3] => nth (((n * d1 + j) * d2 + y) * d3 + x) (data a) 0%Q
  | _ => 0%Q
  end.

(** *** Views

    A view addresses the buffer of the array it was taken from:
    element [ix] of the view is the buffer cell
    [voffset + sum_i ix_i * vstrides_i]. *)
Record view : Type :=
  View { vshape : list nat; voffset : Z; vstrides : list Z }.

Definition addr (v : view) (ix : list nat) : Z :=
  foldr Z.add (voffset v)
        (zip_with (fun i s => (Z.of_nat i * s)%Z) ix (vstrides v)).

Definition cell (v : view) (ix : list nat) : nat := Z.to_nat (addr v ix).

(** C-order strides of a shape, in elements. *)
Fixpoint c_strides (sh : list nat) : list Z :=
  match sh with
  | [] => []
  | _ :: r => Z.of_nat (foldr Nat.mul 1%nat r) :: c_strides r
  end.

(** The array itself, seen as a view of its own buffer. *)
Definition base_view (a : ndarray) : view :=
  View (shape a) 0 (c_strides (shape a)).

(** [v[:, :, :, ::-1]] *)
Definition flip_axis3 (v : view) : view :=
  match vshape v, vstrides v with
  | [d0; d1; d2; d3], [s0; s1; s2; s3] =>
      View [d0; d1; d2; d3]
           (voffset v + (Z.of_nat d3 - 1) * s3)
           [s0; s1; s2; (- s3)%Z]
  | _, _ => v
  end.

(** [v[:, j, :, :]] for a non-negative integer [j]. *)
Definition select_axis1 (v : view) (j : nat) : result view :=
  match vshape v, vstrides v with
  | [d0; d1; d2; d3], [s0; s1; s2; s3] =>
      if (j <? d1)%nat
      then Ok (View [d0; d2; d3] (voffset v + Z.of_nat j * s1) [s0; s2; s3])
      else Raise IndexError
  | _, _ => Raise IndexError
  end.

(** [v[:, :, :, start:start+len]], the bounds already clipped as Python
    clips slice bounds. *)
Definition slice_axis3 (v : view) (start len : nat) : view :=
  match vshape v, vstrides v with
  | [d0; d1; d2; d3], [s0; s1; s2; s3] =>
      View [d0; d1; d2; len] (voffset v + Z.of_nat start * s3)
           [s0; s1; s2; s3]
  | _, _ => v
  end.

(** All index tuples of a shape, in C order. *)
Fixpoint indices (sh : list nat) : list (list nat) :=
  match sh with
  | [] => [[]]
  | d :: r => flat_map (fun i => map (cons i) (indices r)) (seq 0 d)
  end.

(** [v.copy()]: the elements of the view, in C order, read from buffer
    [m]. *)
Definition copy (m : list Q) (v : view) : list Q :=
  map (fun ix => nth (cell v ix) m 0%Q) (indices (vshape v)).

(** [v[...] = vals] for [vals] of the shape of [v]: every element of the
    view is stored into the buffer. *)
Definition assign (m : list Q) (v : view) (vals : list Q) : list Q :=
  foldl (fun m (w : list nat * Q) => <[cell v (fst w) := snd w]> m)
        m (zip (indices (vshape v)) vals).

(** [np.round]: to the nearest integer, ties to the even one. *)
Definition round (x : Q) : Q :=
  let f := Qfloor x in
  let r := (x - inject_Z f)%Q in
  if Qlt_le_dec r (1 # 2) then inject_Z f
  else if Qlt_le_dec (1 # 2) r then inject_Z (f + 1)
  else if Z.even f then inject_Z f else inject_Z (f + 1).

(** Scan for [np.argmax] / [np.amax]: [bi] is the position of the
    running maximum [b], [i] the position of the head of [l].  A later
    element replaces the running maximum only when strictly greater, so
    the first maximum wins. *)
Fixpoint argmax_from (bi : nat) (b : Q) (i : nat) (l : list Q) : nat * Q :=
  match l with
  | [] => (bi, b)
  | x :: r =>
      if Qlt_le_dec b x
      then argmax_from i x (S i) r
      else argmax_from bi b (S i) r
  end.

(** [np.argmax] of a 1-d sequence; ValueError on an empty one. *)
Definition argmax (l : list Q) : result nat :=
  match l with
  | [] => Raise ValueError
  | x :: r => Ok (fst (argmax_from 0 x 1 r))
  end.

(** [np.amax] of a 1-d sequence; ValueError on an empty one. *)
Definition amax (l : list Q) : result Q :=
  match l with
  | [] => Raise ValueError
  | x :: r => Ok (snd (argmax_from 0 x 1 r))
  end.

(** [x % w] on floats: [x - floor(x / w) * w]. *)
Definition mod_ (x w : Q) : Q :=
  (x - inject_Z (Qfloor (x / w)) * w)%Q.

(** [np.floor], returning a float. *)
Definition floor (x : Q) : Q := inject_Z (Qfloor x).

(** [np.greater(x, y)]. *)
Definition greater (x y : Q) : bool :=
  if Qlt_le_dec y x then true else false.

(** [np.sign]. *)
Definition sign (x : Q) : Q :=
  if Qlt_le_dec 0 x then 1%Q else if Qlt_le_dec x 0 then (-1)%Q else 0%Q.

(** [np.mean] of a 1-d sequence. *)
Definition mean (l : list Q) : Q :=
  (foldr Qplus 0 l / inject_Z (Z.of_nat (length l)))%Q.

End np.

(** ** Python values that may reach [get_max_preds] *)

Inductive pyobj : Type :=
| PyNdarray (a : np.ndarray)   (* a numpy.ndarray *)
| PyTensor (a : np.ndarray)    (* a paddle Tensor holding the same data *)
| PyNone.

(** The float32 nearest to an integer, as an integer: a float32 has a
    significand of 24 bits, so every integer up to 2^24 in absolute value
    is kept, and a larger one is rounded to the nearest multiple of
    [2 ^ (log2 |z| - 23)], a tie going to the even significand. *)
Definition f32_int (z : Z) : Z :=
  if (Z.abs z <=? 16777216)%Z then z
  else
    let u := (2 ^ (Z.log2 (Z.abs z) - 23))%Z in
    let q := (Z.abs z / u)%Z in
    let r := (Z.abs z mod u)%Z in
    let q :=
      if (2 * r <? u)%Z then q
      else if (u <? 2 * r)%Z then (q + 1)%Z
      else if Z.even q then q else (q + 1)%Z in
    (Z.sgn z * (q * u))%Z.

(** Integer to float32 ([astype(np.float32)] on an index, line 145, or
    the conversion of the int operand [width] of lines 147-148). *)
Definition to_float (i : nat) : Q := inject_Z (f32_int (Z.of_nat i)).

(** [c + d] in float32 (line 186), for [c] an integer-valued float32 and
    [d] one of 0, 0.25 and -0.25.  The sum is a float32 when it is at most
    2^22 in absolute value, where floats are spaced by a quarter or less.
    Above, neighbouring floats are at least a half apart: [c + d] is
    nearest to [c], or half way between [c] and a neighbour whose
    significand is odd, and the sum is [c]. *)
Definition f32_add_quarter (c d : Q) : Q :=
  if Qle_bool (Qabs (c + d)) 4194304 then (c + d)%Q else c.

(** Element-wise combination of two sequences of equal length; numpy
    raises ValueError when the lengths differ. *)
Fixpoint zip_withM {A B C} (f : A -> B -> result C) (l : list A) (k : list B)
  : result (list C) :=
  match l, k with
  | [], [] => Ok []
  | x :: l', y :: k' => z <- f x y ;; zs <- zip_withM f l' k' ;; Ok (z :: zs)
  | _, _ => Raise ValueError
  end.

(** ** class HRNetPostProcess *)

Module HRNetPostProcess.

(** Keypoint coordinates, [batch_size x num_joints x 2]. *)
Definition coords_t : Type := list (list (Q * Q)).
(** Confidences, [batch_size x num_joints x 1] (the unit axis is not
    represented). *)
Definition maxvals_t : Type := list (list Q).

(** Lines 131-155. *)
Definition get_max_preds (heatmaps : pyobj) : result (coords_t * maxvals_t) :=
  match heatmaps with
  | PyNdarray a =>
      if negb (np.ndim a =? 4)%nat
      then Raise (AssertionError "batch_images should be 4-ndim")
      else
        let batch_size := np.dim a 0 in
        let num_joints := np.dim a 1 in
        let width := np.dim a 3 in
        heatmaps_reshaped <- np.reshape3 a batch_size num_joints ;;
        idx <- mapM (mapM np.argmax) heatmaps_reshaped ;;
        maxvals <- mapM (mapM np.amax) heatmaps_reshaped ;;
        (* preds = np.tile(idx, (1, 1, 2)).astype(np.float32) *)
        let preds := map (map (fun i => (to_float i, to_float i))) idx in
        (* preds[:, :, 0] = (preds[:, :, 0]) % width *)
        let preds :=
          map (map (fun c : Q * Q =>
                      (np.mod_ (fst c) (to_float width), snd c))) preds in
        (* preds[:, :, 1] = np.floor((preds[:, :, 1]) / width) *)
        let preds :=
          map (map (fun c : Q * Q =>
                      (fst c, np.floor (snd c / to_float width)))) preds in
        (* pred_mask = np.tile(np.greater(maxvals, 0.0), (1, 1, 2)) *)
        let pred_mask :=
          map (map (fun m => if np.greater m 0 then 1%Q else 0%Q)) maxvals in
        (* preds *= pred_mask *)
        let preds :=
          zip_with (zip_with (fun (c : Q * Q) (k : Q) =>
                                (fst c * k, snd c * k)%Q)) preds pred_mask in
        Ok (preds, maxvals)
  | _ => Raise (AssertionError "heatmaps should be numpy.ndarray")
  end.

(** Body of the double loop of lines 176-186 at position [(n, p)]: the
    new value of [coords[n][p]]. *)
Definition refine (heatmaps : np.ndarray) (heatmap_height heatmap_width : nat)
    (n p : nat) (c : Q * Q) : result (Q * Q) :=
  hm <- np.sub2 heatmaps n p ;;
  let px := Qfloor (fst c + (1 # 2))%Q in
  let py := Qfloor (snd c + (1 # 2))%Q in
  if ((1 <? px) && (px <? Z.of_nat heatmap_width - 1)
      && (1 <? py) && (py <? Z.of_nat heatmap_height - 1))%Z
  then
    row <- getitem hm py ;;
    right <- getitem row (px + 1)%Z ;;
    row <- getitem hm py ;;
    left <- getitem row (px - 1)%Z ;;
    row <- getitem hm (py + 1)%Z ;;
    down <- getitem row px ;;
    row <- getitem hm (py - 1)%Z ;;
    up <- getitem row px ;;
    let diff := (right - left, down - up)%Q in
    (* coords[n][p] += np.sign(diff) * .25 *)
    Ok (f32_add_quarter (fst c) (np.sign (fst diff) * (1 # 4)),
        f32_add_quarter (snd c) (np.sign (snd diff) * (1 # 4)))
  else Ok c.

(** Lines 171-186: [coords] and [maxvals] as they stand when the loop
    is over, before the transform back to image space.  The loop visits
    every [(n, p)] once and only touches [coords[n][p]]. *)
Definition refined_coords (heatmaps : np.ndarray)
  : result (coords_t * maxvals_t) :=
  cm <- get_max_preds (PyNdarray heatmaps) ;;
  let heatmap_height := np.dim heatmaps 2 in
  let heatmap_width := np.dim heatmaps 3 in
  coords <- imapM (fun n row =>
              imapM (fun p c =>
                refine heatmaps heatmap_height heatmap_width n p c) 0 row)
            0 (fst cm) ;;
  Ok (coords, snd cm).

Section Transform.

(** [keypoint_utils.transform_preds(coords, center, scale, output_size)]
    is imported from another file; it is a parameter here. *)
Variable transform_preds :
  list (Q * Q) -> Q * Q -> Q * Q -> nat * nat -> list (Q * Q).

(** Lines 171-194. *)
Definition get_final_preds (heatmaps : np.ndarray)
    (center scale : list (Q * Q)) : result (coords_t * maxvals_t) :=
  cm <- refined_coords heatmaps ;;
  let heatmap_height := np.dim heatmaps 2 in
  let heatmap_width := np.dim heatmaps 3 in
  let coords := fst cm in
  preds <- imapM (fun i row =>
             c <- getitem center (Z.of_nat i) ;;
             s <- getitem scale (Z.of_nat i) ;;
             Ok (transform_preds row c s (heatmap_width, heatmap_height)))
           0 coords ;;
  Ok (preds, snd cm).

(** [np.concatenate((preds, maxvals), axis=-1)]: rows [(x, y, conf)]. *)
Definition concatenate_last (preds : coords_t) (maxvals : maxvals_t)
  : result (list (list (Q * Q * Q))) :=
  zip_withM (zip_withM (fun (c : Q * Q) (m : Q) => Ok (c, m)))
            preds maxvals.

(** Lines 196-203.  The inner Python list [[kpts, scores]] is a pair:
    the [B x J x 3] array and [np.mean(maxvals, axis=1)], one mean
    per image. *)
Definition __call__ (output : np.ndarray) (center scale : list (Q * Q))
  : result (list (list (list (Q * Q * Q)) * list Q)) :=
  pm <- get_final_preds output center scale ;;
  kpts <- concatenate_last (fst pm) (snd pm) ;;
  let outputs := [ (kpts, map np.mean (snd pm)) ] in
  Ok outputs.

End Transform.

End HRNetPostProcess.

(** ** class TopDownHRNet *)

Module TopDownHRNet.

(** Lines 112-115 for one [pair], on the buffer [m] that the view
    [output_flipped] addresses.  An assignment whose source overlaps its
    target behaves as if the source had been copied first. *)
Definition swap_pair (output_flipped : np.view) (m : list Q)
    (pair : nat * nat) : result (list Q) :=
  (* tmp = output_flipped[:, pair[0], :, :].copy() *)
  v0 <- np.select_axis1 output_flipped (fst pair) ;;
  let tmp := np.copy m v0 in
  (* output_flipped[:, pair[0], :, :] = output_flipped[:, pair[1], :, :] *)
  v1 <- np.select_axis1 output_flipped (snd pair) ;;
  v0 <- np.select_axis1 output_flipped (fst pair) ;;
  let m := np.assign m v0 (np.copy m v1) in
  (* output_flipped[:, pair[1], :, :] = tmp *)
  v1 <- np.select_axis1 output_flipped (snd pair) ;;
  let m := np.assign m v1 tmp in
  Ok m.

(** The [for pair in matched_parts] loop. *)
Fixpoint swap_pairs (output_flipped : np.view) (m : list Q)
    (matched_parts : list (nat * nat)) : result (list Q) :=
  match matched_parts with
  | [] => Ok m
  | pr :: rest =>
      m <- swap_pair output_flipped m pr ;;
      swap_pairs output_flipped m rest
  end.

(** Lines 106-117.  The result is the returned view together with the
    contents, after the call, of the buffer of the argument: the view
    owns no storage of its own. *)
Definition flip_back (output_flipped : np.ndarray)
    (matched_parts : list (nat * nat)) : result (np.view * list Q) :=
  if negb (np.ndim output_flipped =? 4)%nat
  then Raise (AssertionError
    "output_flipped should be [batch_size, num_joints, height, width]")
  else
    let buffer := np.data output_flipped in
    let output_flipped := np.flip_axis3 (np.base_view output_flipped) in
    buffer <- swap_pairs output_flipped buffer matched_parts ;;
    Ok (output_flipped, buffer).

(** [paddle.to_tensor(v.copy())]: a fresh array with the elements of the
    view. *)
Definition to_tensor_copy (vm : np.view * list Q) : np.ndarray :=
  np.NdArray (np.vshape (fst vm)) (np.copy (snd vm) (fst vm)).

(** [t.flip([3])]: a new tensor, last axis reversed. *)
Definition flip3 (t : np.ndarray) : np.ndarray :=
  to_tensor_copy (np.flip_axis3 (np.base_view t), np.data t).

(** Lines 86-87: [t[:, :, :, 1:] = t.clone()[:, :, :, 0:-1]].  paddle
    refuses the assignment when the slice [t[:, :, :, 1:]] holds no
    element, as it does on a tensor of width 1: ValueError. *)
Definition shift (t : np.ndarray) : result np.ndarray :=
  let w := np.dim t 3 in
  let clone := np.data t in
  let src := np.slice_axis3 (np.base_view t) 0 (w - 1) in
  let dst := np.slice_axis3 (np.base_view t) (Nat.min 1 w) (w - 1) in
  if (foldr Nat.mul 1 (np.vshape dst) =? 0)%nat
  then Raise ValueError
  else Ok (np.NdArray (np.shape t)
             (np.assign (np.data t) dst (np.copy clone src))).

(** [(x + y) * 0.5] on tensors of one shape (broadcasting between
    different shapes is not modelled: ValueError). *)
Definition average (x y : np.ndarray) : result np.ndarray :=
  if decide (np.shape x = np.shape y)
  then Ok (np.NdArray (np.shape x)
             (zip_with (fun a b => ((a + b) * (1 # 2))%Q)
                       (np.data x) (np.data y)))
  else Raise ValueError.

Record config : Type := Config {
  training : bool;
  deploy : bool;
  flip : bool;
  shift_heatmap : bool;
  flip_perm : list (nat * nat)
}.

(** [self.inputs]: the image batch and the optional entries. *)
Record inputs : Type := Inputs {
  image : np.ndarray;
  im_shape : option (list (Q * Q));
  center : option (list (Q * Q));
  scale : option (list (Q * Q))
}.

Section Network.

(** [final_conv(backbone(inputs)[0])] as a function of the image batch,
    the loss and [transform_preds] are defined elsewhere. *)
Variable net : np.ndarray -> np.ndarray.
Variable loss_t : Type.
Variable loss : np.ndarray -> inputs -> loss_t.
Variable transform_preds :
  list (Q * Q) -> Q * Q -> Q * Q -> nat * nat -> list (Q * Q).

Inductive forward_result : Type :=
| Loss (l : loss_t)
| Heatmaps (h : np.ndarray)
| Keypoints (res : list (list (list (Q * Q * Q)) * list Q)).

(** Lines 78-88: the value of [hrnet_outputs] handed to the
    post-processor. *)
Definition flip_test (self : config) (inp : inputs)
    (hrnet_outputs : np.ndarray) : result np.ndarray :=
  if flip self then
    let image := flip3 (image inp) in
    let output_flipped := net image in
    output_flipped <- flip_back output_flipped (flip_perm self) ;;
    let output_flipped := to_tensor_copy output_flipped in
    output_flipped <-
      (if shift_heatmap self then shift output_flipped
       else Ok output_flipped) ;;
    average hrnet_outputs output_flipped
  else Ok hrnet_outputs.

(** Lines 69-96. *)
Definition _forward (self : config) (inp : inputs)
  : result forward_result :=
  let hrnet_outputs := net (image inp) in
  if training self then Ok (Loss (loss hrnet_outputs inp))
  else if deploy self then Ok (Heatmaps hrnet_outputs)
  else
    hrnet_outputs <- flip_test self inp hrnet_outputs ;;
    let imshape :=
      option_map (map (fun s : Q * Q => (snd s, fst s))) (im_shape inp) in
    center <-
      match center inp, imshape with
      | Some c, _ => Ok c
      | None, Some s =>
          Ok (map (fun s : Q * Q =>
                     (np.round (fst s / 2), np.round (snd s / 2))%Q) s)
      | None, None => Raise TypeError
      end ;;
    scale <-
      match scale inp, imshape with
      | Some c, _ => Ok c
      | None, Some s =>
          Ok (map (fun s : Q * Q =>
                     (fst s / 200, snd s / 200)%Q) s)
      | None, None => Raise TypeError
      end ;;
    outputs <-
      HRNetPostProcess.__call__ transform_preds hrnet_outputs
                                center scale ;;
    Ok (Keypoints outputs).

(** Lines 98-99. *)
Definition get_loss (self : config) (inp : inputs)
  : result forward_result :=
  _forward self inp.

(** Lines 101-104: the dict [{'keypoint': res_lst}]. *)
Definition get_pred (self : config) (inp : inputs)
  : result (gmap string forward_result) :=
  res_lst <- _forward self inp ;;
  let outputs := {[ "keypoint"%string := res_lst ]} in
  Ok outputs.

End Network.

End TopDownHRNet.

(** * Vocabulary of the statements *)

Import HRNetPostProcess TopDownHRNet.

(** [m] is the greatest element of [l] and [j] the first position that
    holds it. *)
Definition is_first_max (l : list Q) (j : nat) (m : Q) : Prop :=
  l !! j = Some m /\
  (forall k v, l !! k = Some v -> (v <= m)%Q) /\
  (forall k v, k < j -> l !! k = Some v -> (v < m)%Q).

(** The total functions behind [np.argmax] and [np.amax] (0 on the empty
    sequence, where numpy raises). *)
Definition argmax_total (l : list Q) : nat :=
  match l with [] => 0 | x :: r => fst (np.argmax_from 0 x 1 r) end.
Definition amax_total (l : list Q) : Q :=
  match l with [] => 0%Q | x :: r => snd (np.argmax_from 0 x 1 r) end.

(** A 4-dimensional array of shape [(B, J, H, W)] with no empty axis. *)
Definition heatmap4 (a : np.ndarray) (B J H W : nat) : Prop :=
  np.shape a = [B; J; H; W] /\ np.wf a /\ 0 < B /\ 0 < J /\ 0 < H /\ 0 < W.

(** The flattened [(n, p)] slice of a 4-dimensional array. *)
Definition slice (a : np.ndarray) (n p : nat) : list Q :=
  let k := np.dim a 2 * np.dim a 3 in
  take k (drop ((n * np.dim a 1 + p) * k) (np.data a)).

(** Entry [l[n][p]] of a nested sequence. *)
Definition at2 {A} (l : list (list A)) (n p : nat) : option A :=
  match l !! n with
  | Some row => row !! p
  | None => None
  end.

(** The integer [i] as a number: pixel column or row [i]. *)
Definition pixel (i : nat) : Q := inject_Z (Z.of_nat i).

(** An [H x W] slice has at most 2^24 pixels: every flat index of the
    slice, and the width, is a float32. *)
Definition index_exact (H W : nat) : Prop :=
  (Z.of_nat (H * W) <= 16777216)%Z.

(** Equality of coordinates as numbers. *)
Definition coord_eq (c d : Q * Q) : Prop :=
  (fst c == fst d)%Q /\ (snd c == snd d)%Q.

(** What [get_max_preds] computes for one flattened slice [l] of a heatmap
    of width [w]: lines 145-153 at one [(n, p)]. *)
Definition masked_peak (w : nat) (l : list Q) : Q * Q :=
  let i := to_float (argmax_total l) in
  let k := if np.greater (amax_total l) 0 then 1%Q else 0%Q in
  ((np.mod_ i (to_float w) * k)%Q, (np.floor (i / to_float w) * k)%Q).

(** The [B x J] table with entry [f n p] at [(n, p)]. *)
Definition tabulate2 {A} (B J : nat) (f : nat -> nat -> A) : list (list A) :=
  map (fun n => map (f n) (seq 0 J)) (seq 0 B).

(** The guard of line 181 on the rounded peak [(px, py)]. *)
Definition refinement_applies (H W : nat) (px py : Z) : Prop :=
  (1 < px < Z.of_nat W - 1)%Z /\ (1 < py < Z.of_nat H - 1)%Z.

(** The rounded peak of line 179-180. *)
Definition rounded (v : Q) : Z := Qfloor (v + (1 # 2))%Q.

(** Lines 179-186 at [(n, p)] as a total function on a well-formed
    heatmap, the neighbours read with [np.item4]. *)
Definition refine_total (a : np.ndarray) (H W n p : nat) (c : Q * Q) : Q * Q :=
  let px := rounded (fst c) in
  let py := rounded (snd c) in
  if ((1 <? px) && (px <? Z.of_nat W - 1)
      && (1 <? py) && (py <? Z.of_nat H - 1))%Z
  then
    let x := Z.to_nat px in
    let y := Z.to_nat py in
    (f32_add_quarter (fst c)
       (np.sign (np.item4 a n p y (x + 1) - np.item4 a n p y (x - 1))
        * (1 # 4)),
     f32_add_quarter (snd c)
       (np.sign (np.item4 a n p (y + 1) x - np.item4 a n p (y - 1) x)
        * (1 # 4)))
  else c.

(** [get_max_preds] returns, for every slice whose maximum [m] satisfies
    [restrict m], the maximum as confidence and the coordinate decoded
    from the flat index [j] of its first maximum. *)
Definition decodes_flat_argmax (restrict : Q -> Prop)
    (a : np.ndarray) (B J H W : nat) : Prop :=
  exists coords maxvals,
    get_max_preds (PyNdarray a) = Ok (coords, maxvals) /\
    forall n p, n < B -> p < J ->
      exists j m c,
        is_first_max (slice a n p) j m /\
        at2 maxvals n p = Some m /\
        at2 coords n p = Some c /\
        (restrict m -> coord_eq c (pixel (j mod W), pixel (j / W))).

(** A coordinate inside the heatmap. *)
Definition in_bounds (H W : nat) (c : Q * Q) : Prop :=
  (0 <= fst c <= pixel W - 1)%Q /\ (0 <= snd c <= pixel H - 1)%Q.

(** Slice [(n, p)] is zero except for the value 1 at pixel [(x0, y0)]. *)
Definition unit_impulse (a : np.ndarray) (H W n p y0 x0 : nat) : Prop :=
  (np.item4 a n p y0 x0 == 1)%Q /\
  forall y x, y < H -> x < W -> (y, x) <> (y0, x0) ->
    (np.item4 a n p y x == 0)%Q.

(** A 1 x 1 x 1 x 2 heatmap with negative scores. *)
Definition negative_pair : np.ndarray :=
  np.NdArray [1; 1; 1; 2] [(-2)%Q; (-1)%Q].

(** A 4-dimensional array of shape (1, 1, 0, 0). *)
Definition empty_heatmap : np.ndarray := np.NdArray [1; 1; 0; 0] [].

(** A 1 x 1 x 5 x 5 heatmap, zero except on row 2: the peak 5 at column
    [x0] and the value 3 right of it. *)
Definition ridge5 (x0 : nat) : np.ndarray :=
  np.NdArray [1; 1; 5; 5]
    (<[2 * 5 + x0 + 1 := 3%Q]> (<[2 * 5 + x0 := 5%Q]> (replicate 25 0%Q))).

(** A 1 x 1 x 3 x 3 heatmap: the peak 5 at the centre, 3 right of it. *)
Definition centre3 : np.ndarray :=
  np.NdArray [1; 1; 3; 3] [0; 0; 0; 0; 5; 3; 0; 0; 0]%Q.

(** A 1 x 1 x H x W heatmap, zero except for the scores [vals] stored
    from flat position [i] on. *)
Definition sparse (H W i : nat) (vals : list Q) : np.ndarray :=
  np.NdArray [1; 1; H; W]
    (replicate i 0%Q ++ vals ++ replicate (H * W - i - length vals) 0%Q).

(** A 1 x 1 x 5 x W heatmap, zero except on row 2: the peak 5 at column
    [W - 95] and the value 3 right of it. *)
Definition wide_ridge (W : nat) : np.ndarray :=
  sparse 5 W (2 * W + (W - 95)) [5; 3]%Q.

(** A 1 x 1 x 3 x W heatmap with the single value 1 at pixel
    (x, y) = (W - 5, 1). *)
Definition wide_impulse (W : nat) : np.ndarray :=
  sparse 3 W (1 * W + (W - 5)) [1%Q].

(** A 1 x 1 x 1 x W heatmap with the single value 1 at its last pixel. *)
Definition last_pixel_row (W : nat) : np.ndarray :=
  sparse 1 W (0 * W + (W - 1)) [1%Q].

(** The argument passes both assertions of [get_max_preds]. *)
Definition is_ndarray4 (o : pyobj) : Prop :=
  match o with
  | PyNdarray a => np.ndim a = 4
  | _ => False
  end.

(** A 1 x 1 x 5 x 5 heatmap whose peak 5 sits at the centre (2, 2), with
    3 right of it and 1 below it. *)
Definition centre5 : np.ndarray :=
  np.NdArray [1; 1; 5; 5]
    [0; 0; 0; 0; 0;  0; 0; 0; 0; 0;  0; 0; 5; 3; 0;
     0; 0; 1; 0; 0;  0; 0; 0; 0; 0]%Q.

(** A 1 x 1 x 5 x 5 heatmap with the single value 1 at pixel (x, y). *)
Definition impulse5 (y x : nat) : np.ndarray :=
  np.NdArray [1; 1; 5; 5] (<[y * 5 + x := 1%Q]> (replicate 25 0%Q)).

(** [c'] is [c] moved by a quarter pixel per axis towards the larger of
    the two neighbours of the rounded peak of slice [(n, p)]. *)
Definition quarter_step (a : np.ndarray) (n p : nat) (c c' : Q * Q) : Prop :=
  let x := Z.to_nat (rounded (fst c)) in
  let y := Z.to_nat (rounded (snd c)) in
  let right := np.item4 a n p y (x + 1) in
  let left := np.item4 a n p y (x - 1) in
  let down := np.item4 a n p (y + 1) x in
  let up := np.item4 a n p (y - 1) x in
  fst c' = (fst c + np.sign (right - left) * (1 # 4))%Q /\
  snd c' = (snd c + np.sign (down - up) * (1 # 4))%Q /\
  ((left < right)%Q -> (fst c' == fst c + (1 # 4))%Q) /\
  ((right < left)%Q -> (fst c' == fst c - (1 # 4))%Q) /\
  ((right == left)%Q -> (fst c' == fst c)%Q) /\
  ((up < down)%Q -> (snd c' == snd c + (1 # 4))%Q) /\
  ((down < up)%Q -> (snd c' == snd c - (1 # 4))%Q) /\
  ((down == up)%Q -> (snd c' == snd c)%Q).

(** [c] is within a quarter pixel of pixel [(x0, y0)]. *)
Definition within_quarter (c : Q * Q) (x0 y0 : nat) : Prop :=
  (Qabs (fst c - pixel x0) <= 1 # 4)%Q /\
  (Qabs (snd c - pixel y0) <= 1 # 4)%Q.

(** Modelled from the spec: [keypoint_utils.transform_preds] is imported
    from a file that is not part of this development.  Section 3.3 of the
    specification describes it as the affine map, applied per keypoint,
    with scaling factor scale * 200 / heatmap_dim that recentres around
    [center].  It only instantiates the parameter [transform_preds] in
    closed examples. *)
Definition transform_preds_spec (coords : list (Q * Q)) (center scale : Q * Q)
    (output_size : nat * nat) : list (Q * Q) :=
  map (fun c : Q * Q =>
         ((fst c - to_float (fst output_size) / 2)
            * (fst scale * 200 / to_float (fst output_size)) + fst center,
          (snd c - to_float (snd output_size) / 2)
            * (snd scale * 200 / to_float (snd output_size)) + snd center)%Q)
      coords.

(** A batch of two images, one joint, 1 x 2 heatmaps. *)
Definition two_images : np.ndarray :=
  np.NdArray [2; 1; 1; 2] [1; 2; 4; 3]%Q.

(** [transform_preds] returns one row per keypoint. *)
Definition keeps_rows
    (tp : list (Q * Q) -> Q * Q -> Q * Q -> nat * nat -> list (Q * Q)) : Prop :=
  forall row c s wh, length (tp row c s wh) = length row.

(** The result of [__call__] is the one-element list holding the pair
    [(kpts, scores)]: [kpts[i][j]] is the coordinate [preds[i][j]] followed
    by the confidence [maxvals[i][j]], [scores[i]] is the mean of
    [maxvals[i]]. *)
Definition batched_result (B J : nat) (preds : coords_t) (maxvals : maxvals_t)
    (outputs : list (list (list (Q * Q * Q)) * list Q)) : Prop :=
  exists kpts scores,
    outputs = [(kpts, scores)] /\
    length kpts = B /\ length scores = B /\
    forall i, i < B ->
      (exists row, kpts !! i = Some row /\ length row = J /\
         forall j, j < J ->
           exists c m, at2 preds i j = Some c /\ at2 maxvals i j = Some m /\
                       row !! j = Some (c, m)) /\
      (exists ms, maxvals !! i = Some ms /\ length ms = J /\
                  scores !! i = Some (np.mean ms)).

(** Position of element [(n, j, y, x)] in the buffer of a C-ordered array
    with [J] channels of [H] rows of [W] columns. *)
Definition flat4 (J H W n j y x : nat) : nat := ((n * J + j) * H + y) * W + x.

(** Element [(n, j, y, x)] of a view [v] over the buffer [m]. *)
Definition view_item4 (vm : np.view * list Q) (n j y x : nat) : Q :=
  nth (np.cell (fst vm) [n; j; y; x]) (snd vm) 0%Q.

(** Exchange of the two channels of a pair. *)
Definition swap_channel (pr : nat * nat) (j : nat) : nat :=
  if decide (j = snd pr) then fst pr
  else if decide (j = fst pr) then snd pr
  else j.

(** The channel of the buffer before the loop of [flip_back] whose contents
    channel [j] holds after it. *)
Fixpoint channel_source (matched_parts : list (nat * nat)) (j : nat) : nat :=
  match matched_parts with
  | [] => j
  | pr :: rest => swap_channel pr (channel_source rest j)
  end.

(** No joint occurs in two pairs. *)
Fixpoint disjoint_pairs (matched_parts : list (nat * nat)) : Prop :=
  match matched_parts with
  | [] => True
  | pr :: rest =>
      Forall (fun q => fst pr <> fst q /\ fst pr <> snd q /\
                       snd pr <> fst q /\ snd pr <> snd q) rest /\
      disjoint_pairs rest
  end.

(** Every pair names two of the [J] channels. *)
Definition pairs_in_range (J : nat) (matched_parts : list (nat * nat)) : Prop :=
  Forall (fun pr => fst pr < J /\ snd pr < J) matched_parts.

(** Joint [j] occurs in no pair. *)
Definition unpaired (matched_parts : list (nat * nat)) (j : nat) : Prop :=
  Forall (fun pr => j <> fst pr /\ j <> snd pr) matched_parts.

(** Row-major position of an index tuple in a shape. *)
Fixpoint flat_index (sh ix : list nat) : nat :=
  match sh, ix with
  | _ :: r, i :: ix' => i * foldr Nat.mul 1 r + flat_index r ix'
  | _, _ => 0
  end.

(** The view [a[:, :, :, ::-1]] of an array of shape [(B, J, H, W)]. *)
Definition flipped_view (B J H W : nat) : np.view :=
  np.View [B; J; H; W]
    (0 + (Z.of_nat W - 1) * Z.of_nat 1)
    [Z.of_nat (J * (H * (W * 1))); Z.of_nat (H * (W * 1));
     Z.of_nat (W * 1); (- Z.of_nat 1)%Z].

(** Its channel [j], the view [a[:, :, :, ::-1][:, j, :, :]]. *)
Definition channel_view (B J H W j : nat) : np.view :=
  np.View [B; H; W]
    (0 + (Z.of_nat W - 1) * Z.of_nat 1 + Z.of_nat j * Z.of_nat (H * (W * 1)))
    [Z.of_nat (J * (H * (W * 1))); Z.of_nat (W * 1); (- Z.of_nat 1)%Z].

(** [out] is [input] with the width axis reversed and the channels of
    every pair exchanged. *)
Definition flipped_back (input : np.ndarray) (matched_parts : list (nat * nat))
    (B J H W : nat) (out : np.view * list Q) : Prop :=
  np.vshape (fst out) = [B; J; H; W] /\
  (forall a b n y x, In (a, b) matched_parts -> n < B -> y < H -> x < W ->
     view_item4 out n a y x = np.item4 input n b y (W - 1 - x) /\
     view_item4 out n b y x = np.item4 input n a y (W - 1 - x)) /\
  (forall j n y x, unpaired matched_parts j -> j < J ->
     n < B -> y < H -> x < W ->
     view_item4 out n j y x = np.item4 input n j y (W - 1 - x)).

(** The column of the flipped-back map that the flip-corrected map holds
    in column [x]: [x] itself, or with [shift_on] column [x - 1] for
    [x >= 1]. *)
Definition corrected_column (shift_on : bool) (x : nat) : nat :=
  if shift_on then (if decide (1 <= x) then x - 1 else x) else x.

(** [final] is the element-wise mean of [h] and the flip-corrected map:
    the flipped-back map [out], with [shift_on] every column [x >= 1]
    replaced by column [x - 1]. *)
Definition flip_averaged (shift_on : bool) (h : np.ndarray)
    (out : np.view * list Q) (final : np.ndarray) (B J H W : nat) : Prop :=
  np.shape final = [B; J; H; W] /\
  forall n j y x, n < B -> j < J -> y < H -> x < W ->
    np.item4 final n j y x
    = ((np.item4 h n j y x
        + view_item4 out n j y (corrected_column shift_on x)) * (1 # 2))%Q.

(** The slice [t[:, :, :, 1:]] of a tensor of shape [(B, J, H, W)] holds
    an element: no axis is empty and the width is at least 2. *)
Definition shiftable (B J H W : nat) : Prop :=
  0 < B /\ 0 < J /\ 0 < H /\ 2 <= W.

(** A 4-dimensional array of shape [(B, J, H, W)]. *)
Definition array4 (a : np.ndarray) (B J H W : nat) : Prop :=
  np.shape a = [B; J; H; W] /\ np.wf a.

(** The caller's array after the call: same shape, buffer [m]. *)
Definition with_buffer (a : np.ndarray) (m : list Q) : np.ndarray :=
  np.NdArray (np.shape a) m.

(** A 1 x 3 x 1 x 2 array: channels [1, 2], [3, 4], [5, 6]. *)
Definition three_channels : np.ndarray :=
  np.NdArray [1; 3; 1; 2] [1; 2; 3; 4; 5; 6]%Q.

(** An inference configuration with flip test and heatmap shift, joints 0
    and 1 paired. *)
Definition flip_config : config := Config false false true true [(0, 1)].

(** A 1 x 3 x 1 x 1 array (width 1): channels [1], [2], [3]. *)
Definition narrow_channels : np.ndarray :=
  np.NdArray [1; 3; 1; 1] [1; 2; 3]%Q.

(** A batch holding [narrow_channels], with center and scale given. *)
Definition narrow_inputs : inputs :=
  Inputs narrow_channels None (Some [(0, 0)%Q]) (Some [(1, 1)%Q]).

(** A batch holding [three_channels], with center and scale given. *)
Definition flip_inputs : inputs :=
  Inputs three_channels None (Some [(0, 0)%Q]) (Some [(1, 1)%Q]).

(** * Vocabulary of the further properties *)

(** [r] returns, or raises an exception that [allowed] admits. *)
Definition raises_only {A} (allowed : exn -> Prop) (r : result A) : Prop :=
  match r with
  | Ok _ => True
  | Raise e => allowed e
  end.

(** A [B x J] table. *)
Definition table_shape {A} (B J : nat) (t : list (list A)) : Prop :=
  length t = B /\ forall n row, t !! n = Some row -> length row = J.

(** Pixel [(x, y)] lies on the one-pixel border of an [H x W] heatmap. *)
Definition on_border (H W : nat) (px py : Z) : Prop :=
  (px = 0 \/ px = Z.of_nat W - 1 \/ py = 0 \/ py = Z.of_nat H - 1)%Z.

(** Slice [(n, p)] of [a] has its only maximum at pixel [(x0, y0)]. *)
Definition strict_peak (a : np.ndarray) (H W n p y0 x0 : nat) : Prop :=
  forall y x, y < H -> x < W -> (y, x) <> (y0, x0) ->
    (np.item4 a n p y x < np.item4 a n p y0 x0)%Q.

(** A batch of two 1 x 3 heatmaps with one joint: the second image is the
    first image of [two_rows_other] with another image before it. *)
Definition two_rows : np.ndarray :=
  np.NdArray [2; 1; 1; 3] [1; 5; 2; 0; 3; 7]%Q.
Definition two_rows_other : np.ndarray :=
  np.NdArray [1; 2; 1; 3] [0; 3; 7; 9; 9; 9]%Q.

(** A 1 x 2 x 1 x 3 heatmap: joint 0 peaks at x = 0, joint 1 at x = 1. *)
Definition two_joints : np.ndarray :=
  np.NdArray [1; 2; 1; 3] [4; 1; 0; 2; 6; 3]%Q.

(** A 1 x 1 x 2 x 1 heatmap (width 1). *)
Definition one_column : np.ndarray := np.NdArray [1; 1; 2; 1] [1; 2]%Q.

(** Inference without flip test, center and scale given. *)
Definition plain_config : config := Config false false false true [].

(** Inputs that carry neither [im_shape] nor [center] nor [scale]. *)
Definition bare_inputs : inputs := Inputs three_channels None None None.

(** A 1 x 4 x 1 x 1 array, one value per channel. *)
Definition two_pairs_array : np.ndarray :=
  np.NdArray [1; 4; 1; 1] [1; 2; 3; 4]%Q.

(** * Properties *)

(** ** Lists, chunks and the exception monad *)

Lemma chunks_length k n l : length (np.chunks k n l) = n.
Proof.
  revert l. induction n as [|n IH]; intros l; simpl; [done|].
  by rewrite IH.
Qed.

Lemma chunks_lookup k n l i :
  i < n -> np.chunks k n l !! i = Some (take k (drop (i * k) l)).
Proof.
  revert l i. induction n as [|n IH]; intros l i Hi; [lia|].
  destruct i as [|i]; simpl; [done|].
  rewrite IH by lia. by rewrite drop_drop.
Qed.

Lemma mapM_pure {A B} (f : A -> result B) (g : A -> B) (l : list A) :
  (forall x, x ∈ l -> f x = Ok (g x)) -> mapM f l = Ok (map g l).
Proof.
  induction l as [|x l IH]; intros H; simpl; [done|].
  rewrite H by constructor. simpl.
  rewrite IH; [done|]. intros y Hy. apply H. by constructor.
Qed.

Lemma imapM_pure {A B} (f : nat -> A -> result B) (g : nat -> A -> B)
    (l : list A) (i : nat) :
  (forall k x, l !! k = Some x -> f (i + k) x = Ok (g (i + k) x)) ->
  imapM f i l = Ok (imap (fun k => g (i + k)) l).
Proof.
  revert i. induction l as [|x l IH]; intros i H; simpl; [done|].
  specialize (H 0 x eq_refl) as H0. rewrite Nat.add_0_r in H0.
  rewrite H0. simpl. rewrite (IH (S i)).
  - simpl. rewrite Nat.add_0_r. f_equal. f_equal.
    apply imap_ext. intros k y _. simpl. f_equal. lia.
  - intros k y Hk. specialize (H (S k) y Hk).
    by replace (S i + k) with (i + S k) by lia.
Qed.

Lemma zip_withM_pure {A B C} (f : A -> B -> result C) (g : A -> B -> C)
    (l : list A) (k : list B) :
  length l = length k ->
  (forall x y, f x y = Ok (g x y)) ->
  zip_withM f l k = Ok (zip_with g l k).
Proof.
  revert k. induction l as [|x l IH]; intros [|y k] Hlen Hf; simpl in *;
    try done.
  rewrite Hf. simpl. rewrite IH by (done || lia). done.
Qed.

(** Reading a list at a position known to hold a value. *)
Lemma getitem_lookup {A} (l : list A) (i : nat) (x : A) :
  l !! i = Some x -> getitem l (Z.of_nat i) = Ok x.
Proof.
  intros H. pose proof (lookup_lt_Some _ _ _ H) as Hlt.
  unfold getitem.
  destruct (Z.ltb_spec (Z.of_nat i) 0); [lia|].
  destruct (Z.leb_spec 0 (Z.of_nat i)); [|lia].
  destruct (Z.ltb_spec (Z.of_nat i) (Z.of_nat (length l))); [|lia].
  simpl. by rewrite Nat2Z.id, H.
Qed.

(** ** [np.argmax] and [np.amax] *)

Lemma argmax_from_inv (pre l : list Q) (bi : nat) (b : Q) :
  is_first_max pre bi b ->
  is_first_max (pre ++ l)
               (fst (np.argmax_from bi b (length pre) l))
               (snd (np.argmax_from bi b (length pre) l)).
Proof.
  revert pre bi b. induction l as [|x l IH]; intros pre bi b Hinv.
  - simpl. by rewrite app_nil_r.
  - simpl. destruct Hinv as (Hb & Hle & Hlt).
    pose proof (lookup_lt_Some _ _ _ Hb) as Hbi.
    replace (pre ++ x :: l) with ((pre ++ [x]) ++ l)
      by (by rewrite <- app_assoc).
    replace (S (length pre)) with (length (pre ++ [x]))
      by (rewrite length_app; simpl; lia).
    destruct (Qlt_le_dec b x) as [Hbx|Hxb]; apply IH.
    + split; [|split].
      * by rewrite list_lookup_middle.
      * intros k v [Hk|[_ Hk]]%lookup_app_Some.
        -- apply Qlt_le_weak, Qle_lt_trans with b; eauto.
        -- destruct (k - length pre) as [|k']; simpl in Hk; [|done].
           injection Hk as <-. apply Qle_refl.
      * intros k v Hk [Hv|[Hge _]]%lookup_app_Some; [|lia].
        apply Qle_lt_trans with b; eauto.
    + split; [|split].
      * by rewrite lookup_app_l.
      * intros k v [Hk|[_ Hk]]%lookup_app_Some; [eauto|].
        destruct (k - length pre) as [|k']; simpl in Hk; [|done].
        by injection Hk as <-.
      * intros k v Hk [Hv|[Hge _]]%lookup_app_Some; [eauto|lia].
Qed.

Lemma argmax_amax_first_max (x : Q) (r : list Q) :
  exists j m,
    np.argmax (x :: r) = Ok j /\ np.amax (x :: r) = Ok m /\
    is_first_max (x :: r) j m.
Proof.
  eexists _, _. split; [reflexivity|]. split; [reflexivity|].
  apply (argmax_from_inv [x] r 0 x).
  split; [done|]. split.
  - intros [|k] v Hk; simpl in Hk; [|done].
    injection Hk as <-. apply Qle_refl.
  - intros k v Hk. lia.
Qed.

Lemma argmax_total_ok (l : list Q) :
  l <> [] -> np.argmax l = Ok (argmax_total l).
Proof. by destruct l. Qed.

Lemma amax_total_ok (l : list Q) :
  l <> [] -> np.amax l = Ok (amax_total l).
Proof. by destruct l. Qed.

Lemma total_first_max (l : list Q) :
  l <> [] -> is_first_max l (argmax_total l) (amax_total l).
Proof.
  destruct l as [|x r]; [done|]. intros _.
  destruct (argmax_amax_first_max x r) as (j & m & Hj & Hm & H).
  simpl in Hj, Hm. injection Hj as <-. injection Hm as <-. exact H.
Qed.

Lemma map_fmap {A B} (f : A -> B) (l : list A) : map f l = f <$> l.
Proof. reflexivity. Qed.

Lemma chunks_elem_length k n l x :
  n * k <= length l -> x ∈ np.chunks k n l -> length x = k.
Proof.
  revert l. induction n as [|n IH]; intros l Hlen Hx; simpl in Hx.
  - by apply elem_of_nil in Hx.
  - apply elem_of_cons in Hx as [->|Hx].
    + rewrite length_take. lia.
    + apply (IH (drop k l)); [|done]. rewrite length_drop. lia.
Qed.

Lemma zip_with_fmap_diag {A B C D} (h : B -> C -> D) (f : A -> B)
    (g : A -> C) (l : list A) :
  zip_with h (f <$> l) (g <$> l) = (fun x => h (f x) (g x)) <$> l.
Proof. by rewrite zip_with_fmap_l, zip_with_fmap_r, zip_with_diag. Qed.

Lemma flat_index_bound (n B p J : nat) : n < B -> p < J -> n * J + p < B * J.
Proof. intros Hn Hp. nia. Qed.

Lemma slice_of_chunk (k J n p : nat) (l : list Q) :
  p < J ->
  take k (drop (p * k) (take (J * k) (drop (n * (J * k)) l)))
  = take k (drop ((n * J + p) * k) l).
Proof.
  intros Hp. rewrite skipn_firstn_comm, take_take, drop_drop.
  f_equal; [nia|]. f_equal. lia.
Qed.

(** ** Arithmetic of coordinates *)

(** An integer up to 2^24 is a float32. *)
Lemma f32_int_exact (z : Z) : (Z.abs z <= 16777216)%Z -> f32_int z = z.
Proof.
  intros Hz. unfold f32_int. by destruct (Z.leb_spec (Z.abs z) 16777216); [|lia].
Qed.

Lemma to_float_exact (i : nat) :
  (Z.of_nat i <= 16777216)%Z -> to_float i = pixel i.
Proof.
  intros Hi. unfold to_float, pixel. rewrite f32_int_exact; [done|lia].
Qed.

Lemma mod_pixel (i w : nat) :
  0 < w -> (np.mod_ (pixel i) (pixel w) == pixel (i mod w))%Q.
Proof.
  intros Hw. unfold np.mod_, pixel.
  rewrite <- Zdiv_Qdiv, Nat2Z.inj_mod.
  rewrite Z.mod_eq by lia.
  unfold Qminus. rewrite <- inject_Z_mult, <- inject_Z_opp, <- inject_Z_plus.
  apply inject_Z_injective. lia.
Qed.

Lemma floor_div_pixel (i w : nat) :
  np.floor (pixel i / pixel w) = pixel (i / w).
Proof.
  unfold np.floor, pixel. by rewrite <- Zdiv_Qdiv, Nat2Z.inj_div.
Qed.

(** The modulus and the floored quotient of two integers are integers,
    whatever float32 made of the index. *)
Lemma mod_integer (z w : Z) :
  (np.mod_ (inject_Z z) (inject_Z w) == inject_Z (z - z / w * w))%Q.
Proof.
  unfold np.mod_. rewrite <- Zdiv_Qdiv.
  unfold Qminus. by rewrite <- inject_Z_mult, <- inject_Z_opp, <- inject_Z_plus.
Qed.

Lemma greater_0_true (m : Q) : (0 < m)%Q -> np.greater m 0 = true.
Proof.
  intros H. unfold np.greater. destruct (Qlt_le_dec 0 m) as [|Hle]; [done|].
  exfalso. by apply (Qlt_not_le _ _ H).
Qed.

Lemma greater_0_false (m : Q) : (m <= 0)%Q -> np.greater m 0 = false.
Proof.
  intros H. unfold np.greater. destruct (Qlt_le_dec 0 m) as [Hlt|]; [|done].
  exfalso. by apply (Qlt_not_le _ _ Hlt).
Qed.

Lemma masked_peak_positive (w : nat) (l : list Q) :
  0 < w -> (Z.of_nat w <= 16777216)%Z ->
  (Z.of_nat (argmax_total l) <= 16777216)%Z ->
  (0 < amax_total l)%Q ->
  coord_eq (masked_peak w l)
           (pixel (argmax_total l mod w), pixel (argmax_total l / w)).
Proof.
  intros Hw Hwe Hje Hm. unfold masked_peak, coord_eq. simpl.
  rewrite greater_0_true by done.
  rewrite !to_float_exact by done.
  rewrite !Qmult_1_r, floor_div_pixel.
  split; [by apply mod_pixel|reflexivity].
Qed.

(** Both coordinates of [get_max_preds] are integers. *)
Lemma masked_peak_integer (w : nat) (l : list Q) :
  exists zx zy : Z, coord_eq (masked_peak w l) (inject_Z zx, inject_Z zy).
Proof.
  unfold masked_peak, coord_eq, to_float, np.floor. cbn [fst snd].
  destruct (np.greater (amax_total l) 0).
  - eexists _, _. rewrite !Qmult_1_r. split; [apply mod_integer|reflexivity].
  - exists 0%Z, 0%Z. by rewrite !Qmult_0_r.
Qed.

Lemma masked_peak_nonpositive (w : nat) (l : list Q) :
  (amax_total l <= 0)%Q -> coord_eq (masked_peak w l) (0%Q, 0%Q).
Proof.
  intros Hm. unfold masked_peak, coord_eq. simpl.
  rewrite greater_0_false by done.
  by rewrite !Qmult_0_r.
Qed.

(** ** [get_max_preds] evaluated *)

Lemma heatmap4_numel a B J H W :
  heatmap4 a B J H W -> length (np.data a) = B * J * (H * W).
Proof.
  intros (Hs & Hwf & _). unfold np.wf in Hwf. rewrite Hs in Hwf.
  simpl in Hwf. lia.
Qed.

Lemma slice_shape a B J H W n p :
  np.shape a = [B; J; H; W] ->
  slice a n p = take (H * W) (drop ((n * J + p) * (H * W)) (np.data a)).
Proof. intros Hs. unfold slice, np.dim. by rewrite Hs. Qed.

Lemma slice_length a B J H W n p :
  heatmap4 a B J H W -> n < B -> p < J -> length (slice a n p) = H * W.
Proof.
  intros Ha Hn Hp. pose proof (heatmap4_numel _ _ _ _ _ Ha) as Hlen.
  destruct Ha as (Hs & _).
  rewrite (slice_shape _ _ _ _ _ _ _ Hs), length_take, length_drop, Hlen.
  pose proof (flat_index_bound n B p J Hn Hp) as Hb.
  revert Hb. generalize (n * J + p), (H * W), (B * J).
  intros i k c Hi. nia.
Qed.

Lemma get_max_preds_eval a B J H W :
  heatmap4 a B J H W ->
  let rows := map (np.chunks (H * W) J)
                  (np.chunks (J * (H * W)) B (np.data a)) in
  get_max_preds (PyNdarray a)
  = Ok (map (map (masked_peak W)) rows, map (map amax_total) rows).
Proof.
  intros Ha rows. pose proof (heatmap4_numel _ _ _ _ _ Ha) as Hlen.
  destruct Ha as (Hs & Hwf & HB & HJ & HH & HW).
  unfold get_max_preds, np.ndim, np.dim. rewrite Hs. simpl.
  unfold np.reshape3, np.reshape_infer, np.numel. rewrite Hlen.
  replace (B * J =? 0) with false by (symmetry; apply Nat.eqb_neq; nia).
  replace (B * J * (H * W) mod (B * J)) with 0
    by (symmetry; rewrite Nat.mul_comm; apply Nat.Div0.mod_mul).
  replace (B * J * (H * W) / (B * J)) with (H * W)
    by (symmetry; rewrite Nat.mul_comm; apply Nat.div_mul; nia).
  simpl. fold rows.
  assert (Hne : forall row l, row ∈ rows -> l ∈ row -> l <> []).
  { intros row l Hrow Hl. unfold rows in Hrow.
    rewrite map_fmap in Hrow.
    apply list_elem_of_fmap in Hrow as (blk & -> & Hblk).
    apply chunks_elem_length in Hblk; [|nia].
    apply chunks_elem_length in Hl; [|lia].
    intros ->. simpl in Hl. nia. }
  rewrite (mapM_pure _ (map argmax_total)); last first.
  { intros row Hrow. apply mapM_pure. intros l Hl.
    apply argmax_total_ok. eauto. }
  simpl.
  rewrite (mapM_pure _ (map amax_total)); last first.
  { intros row Hrow. apply mapM_pure. intros l Hl.
    apply amax_total_ok. eauto. }
  simpl. f_equal. f_equal.
  rewrite !map_fmap.
  rewrite <- !list_fmap_compose.
  rewrite zip_with_fmap_diag. apply list_fmap_ext. intros _ row _. simpl.
  rewrite !map_fmap, <- !list_fmap_compose.
  rewrite zip_with_fmap_diag. apply list_fmap_ext. intros _ l _.
  reflexivity.
Qed.

(** ** Tables *)

Lemma tabulate2_length {A} B J (f : nat -> nat -> A) :
  length (tabulate2 B J f) = B.
Proof. unfold tabulate2. by rewrite length_map, length_seq. Qed.

Lemma tabulate2_row {A} B J (f : nat -> nat -> A) n :
  n < B -> tabulate2 B J f !! n = Some (map (f n) (seq 0 J)).
Proof.
  intros Hn. unfold tabulate2.
  by rewrite map_fmap, list_lookup_fmap, lookup_seq_lt.
Qed.

Lemma tabulate2_row_inv {A} B J (f : nat -> nat -> A) n row :
  tabulate2 B J f !! n = Some row -> n < B /\ row = map (f n) (seq 0 J).
Proof.
  intros Hrow. pose proof (lookup_lt_Some _ _ _ Hrow) as Hn.
  rewrite tabulate2_length in Hn. rewrite tabulate2_row in Hrow by done.
  split; [done|congruence].
Qed.

Lemma at2_tabulate2 {A} B J (f : nat -> nat -> A) n p :
  n < B -> p < J -> at2 (tabulate2 B J f) n p = Some (f n p).
Proof.
  intros Hn Hp. unfold at2. rewrite tabulate2_row by done.
  by rewrite map_fmap, list_lookup_fmap, lookup_seq_lt.
Qed.

Lemma at2_tabulate2_inv {A} B J (f : nat -> nat -> A) n p c :
  at2 (tabulate2 B J f) n p = Some c -> n < B /\ p < J /\ c = f n p.
Proof.
  unfold at2. intros Hc.
  destruct (tabulate2 B J f !! n) as [row|] eqn:Hrow; [|done].
  apply tabulate2_row_inv in Hrow as [Hn ->].
  pose proof (lookup_lt_Some _ _ _ Hc) as Hp.
  rewrite length_map, length_seq in Hp.
  rewrite map_fmap, list_lookup_fmap, lookup_seq_lt in Hc by done.
  simpl in Hc. split; [done|]. split; [done|congruence].
Qed.

Lemma tabulate2_ext {A} B J (f g : nat -> nat -> A) :
  (forall n p, n < B -> p < J -> f n p = g n p) ->
  tabulate2 B J f = tabulate2 B J g.
Proof.
  intros H. unfold tabulate2. apply map_ext_in. intros n Hn.
  apply in_seq in Hn. apply map_ext_in. intros p Hp. apply in_seq in Hp.
  apply H; lia.
Qed.

Lemma map_tabulate2 {A B'} (g : A -> B') B J (f : nat -> nat -> A) :
  map (map g) (tabulate2 B J f) = tabulate2 B J (fun n p => g (f n p)).
Proof.
  unfold tabulate2. rewrite map_map. apply map_ext. intros n.
  by rewrite map_map.
Qed.

Lemma imap_map_seq {A B'} (h : nat -> A -> B') (f : nat -> A) (n : nat) :
  imap h (map f (seq 0 n)) = map (fun i => h i (f i)) (seq 0 n).
Proof.
  apply list_eq. intros i.
  rewrite list_lookup_imap, !map_fmap, !list_lookup_fmap.
  destruct (decide (i < n)) as [Hi|Hi].
  - by rewrite lookup_seq_lt.
  - by rewrite lookup_seq_ge by lia.
Qed.

Lemma chunks_seq k n l :
  np.chunks k n l = map (fun i => take k (drop (i * k) l)) (seq 0 n).
Proof.
  apply list_eq. intros i. rewrite map_fmap, list_lookup_fmap.
  destruct (decide (i < n)) as [Hi|Hi].
  - by rewrite chunks_lookup, lookup_seq_lt.
  - rewrite lookup_seq_ge by lia. apply lookup_ge_None.
    rewrite chunks_length. lia.
Qed.

Lemma rows_tabulate2 (k B J : nat) (l : list Q) :
  map (np.chunks k J) (np.chunks (J * k) B l)
  = tabulate2 B J (fun n p => take k (drop ((n * J + p) * k) l)).
Proof.
  rewrite chunks_seq, map_map. unfold tabulate2.
  apply map_ext. intros n. rewrite chunks_seq.
  apply map_ext_in. intros p Hp. apply in_seq in Hp.
  apply slice_of_chunk. lia.
Qed.

(** [get_max_preds] on a heatmap without empty axis, entry by entry. *)
Lemma get_max_preds_table a B J H W :
  heatmap4 a B J H W ->
  get_max_preds (PyNdarray a)
  = Ok (tabulate2 B J (fun n p => masked_peak W (slice a n p)),
        tabulate2 B J (fun n p => amax_total (slice a n p))).
Proof.
  intros Ha. rewrite (get_max_preds_eval a B J H W Ha). simpl.
  destruct Ha as (Hs & _).
  rewrite rows_tabulate2, !map_tabulate2.
  f_equal. f_equal; apply tabulate2_ext; intros n p _ _;
    by rewrite (slice_shape _ _ _ _ _ _ _ Hs).
Qed.

(** ** Reading the heatmap *)

Lemma flat_index4_bound (B J H W n p y x : nat) :
  n < B -> p < J -> y < H -> x < W ->
  ((n * J + p) * H + y) * W + x < B * J * (H * W).
Proof.
  intros Hn Hp Hy Hx.
  pose proof (flat_index_bound n B p J Hn Hp) as H1.
  pose proof (flat_index_bound (n * J + p) (B * J) y H H1 Hy) as H2.
  pose proof (flat_index_bound _ (B * J * H) x W H2 Hx) as H3. lia.
Qed.

Lemma item4_lookup a B J H W n p y x :
  heatmap4 a B J H W -> n < B -> p < J -> y < H -> x < W ->
  np.data a !! (((n * J + p) * H + y) * W + x) = Some (np.item4 a n p y x).
Proof.
  intros Ha Hn Hp Hy Hx. pose proof (heatmap4_numel _ _ _ _ _ Ha) as Hlen.
  destruct Ha as (Hs & _). unfold np.item4. rewrite Hs.
  pose proof (flat_index4_bound B J H W n p y x Hn Hp Hy Hx) as Hb.
  destruct (nth_lookup_or_length (np.data a)
              (((n * J + p) * H + y) * W + x) 0%Q); [done|lia].
Qed.

Lemma slice_lookup a B J H W n p y x :
  heatmap4 a B J H W -> n < B -> p < J -> y < H -> x < W ->
  slice a n p !! (y * W + x) = Some (np.item4 a n p y x).
Proof.
  intros Ha Hn Hp Hy Hx.
  rewrite <- (item4_lookup a B J H W) by done.
  destruct Ha as (Hs & _).
  rewrite (slice_shape _ _ _ _ _ _ _ Hs), lookup_take, lookup_drop.
  pose proof (flat_index_bound y H x W Hy Hx).
  rewrite decide_True by lia. f_equal. lia.
Qed.

Lemma sub2_lookup a B J H W n p :
  heatmap4 a B J H W -> n < B -> p < J ->
  exists hm,
    np.sub2 a n p = Ok hm /\
    forall y, y < H ->
      exists row, hm !! y = Some row /\
        forall x, x < W -> row !! x = Some (np.item4 a n p y x).
Proof.
  intros Ha Hn Hp.
  pose proof (heatmap4_numel _ _ _ _ _ Ha) as Hlen.
  pose proof Ha as (Hs & _).
  unfold np.sub2. rewrite Hs.
  destruct (Nat.ltb_spec n B); [|lia]. destruct (Nat.ltb_spec p J); [|lia].
  simpl. eexists. split; [reflexivity|]. intros y Hy.
  eexists. split; [by apply chunks_lookup|]. intros x Hx.
  pose proof (item4_lookup a B J H W n p y x Ha Hn Hp Hy Hx) as Hit.
  rewrite lookup_take, !lookup_drop, decide_True by done.
  rewrite <- Hit. f_equal. lia.
Qed.

(** ** The refinement loop *)

Lemma refine_eval a B J H W n p c :
  heatmap4 a B J H W -> n < B -> p < J ->
  refine a H W n p c = Ok (refine_total a H W n p c).
Proof.
  intros Ha Hn Hp.
  destruct (sub2_lookup a B J H W n p Ha Hn Hp) as (hm & Hhm & Hrows).
  unfold refine, refine_total, rounded. rewrite Hhm. cbn [bind].
  set (px := Qfloor (c.1 + (1 # 2))). set (py := Qfloor (c.2 + (1 # 2))).
  destruct (Z.ltb_spec 1 px); cbn [andb]; [|done].
  destruct (Z.ltb_spec px (Z.of_nat W - 1)); cbn [andb]; [|done].
  destruct (Z.ltb_spec 1 py); cbn [andb]; [|done].
  destruct (Z.ltb_spec py (Z.of_nat H - 1)); cbn [andb]; [|done].
  clearbody px py.
  destruct (Z_of_nat_complete px) as [x ->]; [lia|].
  destruct (Z_of_nat_complete py) as [y ->]; [lia|].
  rewrite !Nat2Z.id.
  replace (Z.of_nat x + 1)%Z with (Z.of_nat (x + 1)) by lia.
  replace (Z.of_nat x - 1)%Z with (Z.of_nat (x - 1)) by lia.
  replace (Z.of_nat y + 1)%Z with (Z.of_nat (y + 1)) by lia.
  replace (Z.of_nat y - 1)%Z with (Z.of_nat (y - 1)) by lia.
  destruct (Hrows y) as (r0 & Hr0 & Hv0); [lia|].
  destruct (Hrows (y + 1)) as (r1 & Hr1 & Hv1); [lia|].
  destruct (Hrows (y - 1)) as (r2 & Hr2 & Hv2); [lia|].
  rewrite (getitem_lookup _ _ _ Hr0), (getitem_lookup _ _ _ Hr1),
    (getitem_lookup _ _ _ Hr2). cbn [bind].
  rewrite (getitem_lookup _ _ _ (Hv0 (x + 1) ltac:(lia))).
  rewrite (getitem_lookup _ _ _ (Hv0 (x - 1) ltac:(lia))).
  rewrite (getitem_lookup _ _ _ (Hv1 x ltac:(lia))).
  rewrite (getitem_lookup _ _ _ (Hv2 x ltac:(lia))).
  reflexivity.
Qed.

(** [refined_coords] on a heatmap without empty axis, entry by entry. *)
Lemma refined_coords_table a B J H W :
  heatmap4 a B J H W ->
  refined_coords a
  = Ok (tabulate2 B J (fun n p =>
          refine_total a H W n p (masked_peak W (slice a n p))),
        tabulate2 B J (fun n p => amax_total (slice a n p))).
Proof.
  intros Ha. unfold refined_coords.
  rewrite (get_max_preds_table a B J H W Ha). simpl.
  pose proof Ha as (Hs & _). unfold np.dim. rewrite Hs. simpl.
  rewrite (imapM_pure _
    (fun n row => imap (fun p c => refine_total a H W n p c) row)).
  - simpl. f_equal. f_equal. unfold tabulate2 at 1.
    rewrite imap_map_seq. unfold tabulate2. apply map_ext. intros n.
    by rewrite imap_map_seq.
  - intros n row Hrow. simpl.
    apply tabulate2_row_inv in Hrow as [Hn ->].
    rewrite (imapM_pure _ (fun p c => refine_total a H W n p c)); [done|].
    intros p c Hc. simpl. apply lookup_lt_Some in Hc.
    rewrite length_map, length_seq in Hc.
    by apply (refine_eval a B J H W).
Qed.

(** ** Peaks are pixels *)

Lemma slice_nonempty a B J H W n p :
  heatmap4 a B J H W -> n < B -> p < J -> slice a n p <> [].
Proof.
  intros Ha Hn Hp Hnil.
  pose proof (slice_length a B J H W n p Ha Hn Hp) as Hlen.
  destruct Ha as (_ & _ & _ & _ & HH & HW).
  rewrite Hnil in Hlen. simpl in Hlen. nia.
Qed.

Lemma slice_first_max a B J H W n p :
  heatmap4 a B J H W -> n < B -> p < J ->
  is_first_max (slice a n p) (argmax_total (slice a n p))
               (amax_total (slice a n p)) /\
  argmax_total (slice a n p) < H * W.
Proof.
  intros Ha Hn Hp.
  pose proof (total_first_max _ (slice_nonempty a B J H W n p Ha Hn Hp)) as Hm.
  split; [done|]. destruct Hm as (Hj & _).
  apply lookup_lt_Some in Hj.
  by rewrite (slice_length a B J H W n p Ha Hn Hp) in Hj.
Qed.

(** The confidence of a slice is the score of the heatmap at the pixel of
    its first maximum. *)
Lemma amax_is_item a B J H W n p :
  heatmap4 a B J H W -> n < B -> p < J ->
  let j := argmax_total (slice a n p) in
  j / W < H /\ j mod W < W /\
  j = j / W * W + j mod W /\
  amax_total (slice a n p) = np.item4 a n p (j / W) (j mod W).
Proof.
  intros Ha Hn Hp j.
  destruct (slice_first_max a B J H W n p Ha Hn Hp) as [(Hj & _) Hlt].
  pose proof Ha as (_ & _ & _ & _ & _ & HW). fold j in Hj, Hlt.
  assert (Hy : j / W < H) by (apply Nat.Div0.div_lt_upper_bound; lia).
  assert (Hx : j mod W < W) by (apply Nat.mod_upper_bound; lia).
  assert (Hdm : j = j / W * W + j mod W)
    by (rewrite (Nat.div_mod_eq j W) at 1; lia).
  pose proof (slice_lookup a B J H W n p _ _ Ha Hn Hp Hy Hx) as Hit.
  rewrite <- Hdm, Hj in Hit. injection Hit as ->. done.
Qed.

(** On a slice of at most 2^24 pixels the width and every flat index
    are float32 values. *)
Lemma index_exact_width H W : 0 < H -> index_exact H W ->
  (Z.of_nat W <= 16777216)%Z.
Proof. unfold index_exact. nia. Qed.

Lemma index_exact_index H W j : j < H * W -> index_exact H W ->
  (Z.of_nat j <= 16777216)%Z.
Proof. unfold index_exact. lia. Qed.

Lemma masked_peak_decoded a B J H W n p :
  heatmap4 a B J H W -> index_exact H W -> n < B -> p < J ->
  (0 < amax_total (slice a n p))%Q ->
  coord_eq (masked_peak W (slice a n p))
           (pixel (argmax_total (slice a n p) mod W),
            pixel (argmax_total (slice a n p) / W)).
Proof.
  intros Ha He Hn Hp Hpos.
  destruct (slice_first_max a B J H W n p Ha Hn Hp) as [_ Hj].
  destruct Ha as (_ & _ & _ & _ & HH & HW).
  apply masked_peak_positive; [done| | |done].
  - by apply (index_exact_width H W).
  - by apply (index_exact_index H W).
Qed.

Lemma masked_peak_pixel a B J H W n p :
  heatmap4 a B J H W -> index_exact H W -> n < B -> p < J ->
  exists xi yi,
    xi < W /\ yi < H /\
    coord_eq (masked_peak W (slice a n p)) (pixel xi, pixel yi).
Proof.
  intros Ha He Hn Hp.
  destruct (slice_first_max a B J H W n p Ha Hn Hp) as [_ Hj].
  pose proof Ha as (_ & _ & _ & _ & HH & HW).
  destruct (Qlt_le_dec 0 (amax_total (slice a n p))) as [Hpos|Hle].
  - exists (argmax_total (slice a n p) mod W), (argmax_total (slice a n p) / W).
    split; [by apply Nat.mod_upper_bound; lia|].
    split; [apply Nat.Div0.div_lt_upper_bound; lia|].
    by apply (masked_peak_decoded a B J H W).
  - exists 0, 0. split; [done|]. split; [done|].
    by apply masked_peak_nonpositive.
Qed.

Lemma floor_half (z : Z) : Qfloor (inject_Z z + (1 # 2)) = z.
Proof.
  unfold Qfloor, Qplus, inject_Z. simpl. rewrite Z.mul_1_r.
  rewrite Z.div_add_l by lia. change (1 `div` Z.pos (1 * 2))%Z with 0%Z. lia.
Qed.

Lemma rounded_integer (v : Q) (z : Z) :
  (v == inject_Z z)%Q -> rounded v = z.
Proof.
  intros Hv. unfold rounded. rewrite Hv. apply floor_half.
Qed.

Lemma rounded_pixel (v : Q) (i : nat) :
  (v == pixel i)%Q -> rounded v = Z.of_nat i.
Proof. apply rounded_integer. Qed.

(** ** The quarter-pixel addition *)

(** The float32 sum is the exact sum or the first operand. *)
Lemma f32_add_quarter_cases (c d : Q) :
  f32_add_quarter c d = (c + d)%Q \/ f32_add_quarter c d = c.
Proof. unfold f32_add_quarter. destruct (Qle_bool _ _); auto. Qed.

Lemma f32_add_quarter_exact (c d : Q) :
  (Qabs (c + d) <= 4194304)%Q -> f32_add_quarter c d = (c + d)%Q.
Proof.
  intros Hle. unfold f32_add_quarter.
  by rewrite (proj2 (Qle_bool_iff _ _) Hle).
Qed.

Lemma f32_add_quarter_zero (c d : Q) :
  (d == 0)%Q -> (f32_add_quarter c d == c)%Q.
Proof.
  intros Hd. destruct (f32_add_quarter_cases c d) as [-> | ->]; lra.
Qed.

(** It stays within [|d|] of the first operand. *)
Lemma f32_add_quarter_near (c d : Q) :
  (- (1 # 4) <= d <= 1 # 4)%Q ->
  (c - (1 # 4) <= f32_add_quarter c d <= c + (1 # 4))%Q.
Proof.
  intros Hd. destruct (f32_add_quarter_cases c d) as [-> | ->]; lra.
Qed.

Lemma quarter_sign_range (d : Q) :
  (- (1 # 4) <= np.sign d * (1 # 4) <= 1 # 4)%Q.
Proof.
  unfold np.sign.
  destruct (Qlt_le_dec 0 d); [lra|]. destruct (Qlt_le_dec d 0); lra.
Qed.

(** ** [np.sign] *)

Lemma sign_pos (d : Q) : (0 < d)%Q -> np.sign d = 1%Q.
Proof.
  intros H. unfold np.sign. destruct (Qlt_le_dec 0 d) as [|Hle]; [done|].
  exfalso. by apply (Qlt_not_le _ _ H).
Qed.

Lemma sign_neg (d : Q) : (d < 0)%Q -> np.sign d = (-1)%Q.
Proof.
  intros H. unfold np.sign.
  destruct (Qlt_le_dec 0 d) as [Hlt|_].
  - exfalso. apply (Qlt_irrefl d). by apply Qlt_trans with 0%Q.
  - destruct (Qlt_le_dec d 0) as [|Hle]; [done|].
    exfalso. by apply (Qlt_not_le _ _ H).
Qed.

Lemma sign_zero (d : Q) : (d == 0)%Q -> np.sign d = 0%Q.
Proof.
  intros H. unfold np.sign.
  destruct (Qlt_le_dec 0 d) as [Hlt|_].
  - exfalso. rewrite H in Hlt. by apply (Qlt_irrefl 0).
  - destruct (Qlt_le_dec d 0) as [Hlt|_]; [|done].
    exfalso. rewrite H in Hlt. by apply (Qlt_irrefl 0).
Qed.

Lemma sign_range (d : Q) : (-1 <= np.sign d <= 1)%Q.
Proof.
  unfold np.sign.
  destruct (Qlt_le_dec 0 d); [lra|]. destruct (Qlt_le_dec d 0); lra.
Qed.

(** ** The guard of the refinement *)

Lemma refine_total_cases a H W n p c :
  let px := rounded (fst c) in
  let py := rounded (snd c) in
  let x := Z.to_nat px in
  let y := Z.to_nat py in
  (refinement_applies H W px py /\
   refine_total a H W n p c
   = (f32_add_quarter (fst c)
        (np.sign (np.item4 a n p y (x + 1) - np.item4 a n p y (x - 1))
         * (1 # 4)),
      f32_add_quarter (snd c)
        (np.sign (np.item4 a n p (y + 1) x - np.item4 a n p (y - 1) x)
         * (1 # 4))))
  \/ (~ refinement_applies H W px py /\ refine_total a H W n p c = c).
Proof.
  intros px py x y. unfold refine_total, refinement_applies.
  fold px py. fold x y.
  destruct (Z.ltb_spec 1 px); cbn [andb]; [|right; split; [lia|done]].
  destruct (Z.ltb_spec px (Z.of_nat W - 1)); cbn [andb];
    [|right; split; [lia|done]].
  destruct (Z.ltb_spec 1 py); cbn [andb]; [|right; split; [lia|done]].
  destruct (Z.ltb_spec py (Z.of_nat H - 1)); cbn [andb];
    [|right; split; [lia|done]].
  left. split; [lia|done].
Qed.

Lemma pixel_le (i k : nat) : i <= k -> (pixel i <= pixel k)%Q.
Proof. intros H. unfold pixel. rewrite <- Zle_Qle. lia. Qed.

Lemma pixel_S (i : nat) : (pixel (S i) == pixel i + 1)%Q.
Proof.
  unfold pixel. rewrite Nat2Z.inj_succ. unfold Z.succ.
  by rewrite inject_Z_plus.
Qed.

Lemma pixel_in_bounds H W xi yi c :
  xi < W -> yi < H -> coord_eq c (pixel xi, pixel yi) ->
  in_bounds H W c.
Proof.
  intros Hx Hy [H1 H2]. simpl in H1, H2. unfold in_bounds.
  rewrite H1, H2.
  pose proof (pixel_le 0 xi ltac:(lia)) as Hx0.
  pose proof (pixel_le (S xi) W ltac:(lia)) as Hx1.
  pose proof (pixel_le 0 yi ltac:(lia)) as Hy0.
  pose proof (pixel_le (S yi) H ltac:(lia)) as Hy1.
  rewrite pixel_S in Hx1, Hy1.
  change (pixel 0) with 0%Q in Hx0, Hy0. lra.
Qed.

Lemma refined_pixel_in_bounds a H W n p xi yi c :
  xi < W -> yi < H -> coord_eq c (pixel xi, pixel yi) ->
  in_bounds H W (refine_total a H W n p c).
Proof.
  intros Hx Hy Hc.
  destruct (refine_total_cases a H W n p c) as [[Happ ->]|[_ ->]];
    [|by apply (pixel_in_bounds H W xi yi)].
  destruct Hc as [H1 H2]. simpl in H1, H2.
  destruct Happ as [Hpx Hpy].
  rewrite (rounded_pixel _ _ H1) in Hpx.
  rewrite (rounded_pixel _ _ H2) in Hpy.
  unfold in_bounds. cbn [fst snd].
  set (dx := (np.item4 a n p _ _ - np.item4 a n p _ _)%Q).
  set (dy := (np.item4 a n p _ _ - np.item4 a n p _ _)%Q).
  pose proof (f32_add_quarter_near (fst c) _ (quarter_sign_range dx)) as Hsx.
  pose proof (f32_add_quarter_near (snd c) _ (quarter_sign_range dy)) as Hsy.
  pose proof (pixel_le 2 xi ltac:(lia)) as Hx0.
  pose proof (pixel_le (S (S xi)) W ltac:(lia)) as Hx1.
  pose proof (pixel_le 2 yi ltac:(lia)) as Hy0.
  pose proof (pixel_le (S (S yi)) H ltac:(lia)) as Hy1.
  rewrite !pixel_S in Hx1, Hy1.
  change (pixel 2) with 2%Q in Hx0, Hy0. lra.
Qed.

(** ** Peaks at a known pixel *)

Lemma flat_index_div (y x W : nat) : x < W -> (y * W + x) / W = y.
Proof.
  intros Hx. rewrite Nat.div_add_l by lia. rewrite Nat.div_small by done. lia.
Qed.

Lemma flat_index_mod (y x W : nat) : x < W -> (y * W + x) mod W = x.
Proof.
  intros Hx. rewrite Nat.add_comm, Nat.Div0.mod_add.
  by apply Nat.mod_small.
Qed.

Lemma unit_impulse_peak a B J H W n p y0 x0 :
  heatmap4 a B J H W -> n < B -> p < J -> y0 < H -> x0 < W ->
  unit_impulse a H W n p y0 x0 ->
  argmax_total (slice a n p) = y0 * W + x0 /\
  (amax_total (slice a n p) == 1)%Q.
Proof.
  intros Ha Hn Hp Hy0 Hx0 [Hone Hzero].
  destruct (slice_first_max a B J H W n p Ha Hn Hp) as [(_ & Hle & _) _].
  destruct (amax_is_item a B J H W n p Ha Hn Hp) as (Hy & Hx & Hdm & Hm).
  set (j := argmax_total (slice a n p)) in *.
  pose proof (slice_lookup a B J H W n p _ _ Ha Hn Hp Hy0 Hx0) as Hpeak.
  specialize (Hle _ _ Hpeak). rewrite Hone in Hle.
  destruct (decide ((j / W, j mod W) = (y0, x0))) as [Heq|Hne].
  - injection Heq as Hq Hr. split; [lia|].
    rewrite Hm, Hq, Hr. exact Hone.
  - exfalso. specialize (Hzero _ _ Hy Hx Hne). rewrite <- Hm in Hzero.
    rewrite Hzero in Hle. by apply Hle.
Qed.

Lemma strict_peak_argmax a B J H W n p y0 x0 :
  heatmap4 a B J H W -> n < B -> p < J -> y0 < H -> x0 < W ->
  strict_peak a H W n p y0 x0 ->
  argmax_total (slice a n p) = y0 * W + x0 /\
  amax_total (slice a n p) = np.item4 a n p y0 x0.
Proof.
  intros Ha Hn Hp Hy0 Hx0 Hpeak.
  destruct (slice_first_max a B J H W n p Ha Hn Hp) as [(_ & Hle & _) _].
  destruct (amax_is_item a B J H W n p Ha Hn Hp) as (Hy & Hx & Hdm & Hm).
  set (j := argmax_total (slice a n p)) in *.
  pose proof (slice_lookup a B J H W n p _ _ Ha Hn Hp Hy0 Hx0) as Hat.
  specialize (Hle _ _ Hat).
  destruct (decide ((j / W, j mod W) = (y0, x0))) as [Heq|Hne].
  - injection Heq as Hq Hr. split; [lia|]. by rewrite Hm, Hq, Hr.
  - exfalso. specialize (Hpeak _ _ Hy Hx Hne). rewrite <- Hm in Hpeak.
    by apply (Qlt_not_le _ _ Hpeak).
Qed.

Lemma floor_between (q : Q) (z : Z) :
  (inject_Z z <= q)%Q -> (q < inject_Z z + 1)%Q -> Qfloor q = z.
Proof.
  intros Hlo Hhi.
  assert (H1 : (z <= Qfloor q)%Z).
  { rewrite <- (Qfloor_Z z). by apply Qfloor_resp_le. }
  assert (H2 : (Qfloor q < z + 1)%Z).
  { rewrite Zlt_Qlt, inject_Z_plus.
    eapply Qle_lt_trans; [apply Qfloor_le|done]. }
  lia.
Qed.

(** The coordinate of a slice whose only maximum is positive and sits at
    pixel [(x0, y0)], as lines 145-153 compute it. *)
Lemma masked_peak_at a B J H W n p y0 x0 :
  heatmap4 a B J H W -> n < B -> p < J -> y0 < H -> x0 < W ->
  strict_peak a H W n p y0 x0 -> (0 < np.item4 a n p y0 x0)%Q ->
  masked_peak W (slice a n p)
  = ((np.mod_ (to_float (y0 * W + x0)) (to_float W) * 1)%Q,
     (np.floor (to_float (y0 * W + x0) / to_float W) * 1)%Q).
Proof.
  intros Ha Hn Hp Hy0 Hx0 Hpk Hpos.
  destruct (strict_peak_argmax a B J H W n p y0 x0) as [Hj Hm]; try done.
  unfold masked_peak. rewrite Hj, Hm. by rewrite greater_0_true.
Qed.

(** ** Heatmaps with a few non-zero scores *)

Lemma nth_replicate_same (k n : nat) (v : Q) : nth k (replicate n v) v = v.
Proof.
  revert k. induction n as [|n IH]; intros [|k]; simpl; done.
Qed.

Lemma heatmap4_sparse H W i vals :
  0 < H -> 0 < W -> i + length vals <= H * W ->
  heatmap4 (sparse H W i vals) 1 1 H W.
Proof.
  intros HH HW Hi. repeat split; try done; try lia.
  unfold np.wf, sparse. cbn [np.data np.shape foldr].
  rewrite !length_app, !length_replicate. lia.
Qed.

Lemma item4_sparse_in H W i vals y x d :
  y * W + x = i + d -> d < length vals ->
  np.item4 (sparse H W i vals) 0 0 y x = nth d vals 0%Q.
Proof.
  intros Hk Hd. unfold np.item4, sparse. cbn [np.shape np.data].
  replace (((0 * 1 + 0) * H + y) * W + x) with (i + d) by (rewrite <- Hk; lia).
  rewrite app_nth2; rewrite length_replicate; [|lia].
  replace (i + d - i) with d by lia. by apply app_nth1.
Qed.

Lemma item4_sparse_out H W i vals y x :
  y * W + x < i \/ i + length vals <= y * W + x ->
  np.item4 (sparse H W i vals) 0 0 y x = 0%Q.
Proof.
  intros Hk. unfold np.item4, sparse. cbn [np.shape np.data].
  replace (((0 * 1 + 0) * H + y) * W + x) with (y * W + x) by lia.
  set (k := y * W + x) in *.
  destruct (decide (k < i)) as [Hlt|Hge].
  - rewrite app_nth1 by (by rewrite length_replicate).
    apply nth_replicate_same.
  - rewrite app_nth2; rewrite length_replicate; [|lia].
    rewrite app_nth2 by lia. apply nth_replicate_same.
Qed.

(** * The claims on [HRNetPostProcess] *)

Lemma heatmap4_negative_pair : heatmap4 negative_pair 1 1 1 2.
Proof. repeat split; lia. Qed.

Lemma heatmap4_centre3 : heatmap4 centre3 1 1 3 3.
Proof. repeat split; lia. Qed.

Lemma heatmap4_ridge5_1 : heatmap4 (ridge5 1) 1 1 5 5.
Proof. repeat split; try reflexivity; lia. Qed.

Lemma heatmap4_ridge5_3 : heatmap4 (ridge5 3) 1 1 5 5.
Proof. repeat split; try reflexivity; lia. Qed.

(** C2, as stated, fails: on the 1 x 1 x 1 x 2 heatmap [[-2, -1]] the first
    maximum is at flat index 1, so the claim gives x = 1, while
    [get_max_preds] returns the coordinate (0, 0). *)
Lemma C2_negative_pair_not_decoded :
  heatmap4 negative_pair 1 1 1 2 /\
  ~ decodes_flat_argmax (fun _ => True) negative_pair 1 1 1 2.
Proof.
  split; [exact heatmap4_negative_pair|].
  intros (coords & maxvals & Heq & Hall).
  vm_compute in Heq. injection Heq as <- <-.
  destruct (Hall 0 0 ltac:(lia) ltac:(lia)) as (j & m & c & Hmax & _ & Hc & Hxy).
  destruct Hmax as (Hj & Hle & _).
  injection Hc as <-. destruct (Hxy I) as [Hx _]. simpl in Hx.
  destruct j as [|[|j]].
  - injection Hj as <-. specialize (Hle 1 (-1)%Q eq_refl).
    by apply Hle.
  - vm_compute in Hx. done.
  - done.
Qed.

(** C2 (amended): for every 4-dimensional heatmap with no empty axis
    whose slices have at most 2^24 pixels (the range in which the float32
    cast of line 145 keeps the flat index), [get_max_preds] returns for
    each (batch item, joint) slice the maximum score of the slice as
    confidence, and, when that maximum is positive, the coordinate
    x = j mod width, y = floor(j / width) of the flat index [j] of the
    first maximum of the flattened slice. *)
Theorem C2_get_max_preds_decodes_positive_argmax (a : np.ndarray)
    (B J H W : nat) :
  heatmap4 a B J H W -> index_exact H W ->
  decodes_flat_argmax (fun m => (0 < m)%Q) a B J H W.
Proof.
  intros Ha He. eexists _, _.
  split; [by apply (get_max_preds_table a B J H W)|].
  intros n p Hn Hp.
  destruct (slice_first_max a B J H W n p Ha Hn Hp) as [Hmax _].
  eexists _, _, _. split; [exact Hmax|].
  rewrite !at2_tabulate2 by done. split; [done|]. split; [done|].
  intros Hpos. by apply (masked_peak_decoded a B J H W).
Qed.

Lemma C2_get_max_preds_decodes_positive_argmax_witness :
  heatmap4 centre3 1 1 3 3 /\ index_exact 3 3 /\
  decodes_flat_argmax (fun m => (0 < m)%Q) centre3 1 1 3 3.
Proof.
  assert (He : index_exact 3 3) by (unfold index_exact; simpl; lia).
  split; [exact heatmap4_centre3|]. split; [exact He|].
  apply (C2_get_max_preds_decodes_positive_argmax centre3 1 1 3 3).
  - exact heatmap4_centre3.
  - exact He.
Defined.

(** The confidence of a slice without positive score is not positive. *)
Lemma amax_nonpositive a B J H W n p :
  heatmap4 a B J H W -> n < B -> p < J ->
  (forall y x, y < H -> x < W -> (np.item4 a n p y x <= 0)%Q) ->
  (amax_total (slice a n p) <= 0)%Q.
Proof.
  intros Ha Hn Hp Hall.
  destruct (amax_is_item a B J H W n p Ha Hn Hp) as (Hy & Hx & _ & ->).
  by apply Hall.
Qed.

(** C3: on a heatmap with no empty axis, every slice whose scores are all
    <= 0 (so its maximum is <= 0) gets the coordinate (0, 0), and when all
    scores of the heatmap are zero every confidence is 0. *)
Theorem C3_nonpositive_slice_zeroed (a : np.ndarray) (B J H W : nat) :
  heatmap4 a B J H W ->
  exists coords maxvals,
    get_max_preds (PyNdarray a) = Ok (coords, maxvals) /\
    (forall n p, n < B -> p < J ->
       (forall y x, y < H -> x < W -> (np.item4 a n p y x <= 0)%Q) ->
       exists c, at2 coords n p = Some c /\ coord_eq c (0, 0)%Q) /\
    ((forall n p y x, n < B -> p < J -> y < H -> x < W ->
        (np.item4 a n p y x == 0)%Q) ->
     forall n p, n < B -> p < J ->
       exists c m, at2 coords n p = Some c /\ coord_eq c (0, 0)%Q /\
                   at2 maxvals n p = Some m /\ (m == 0)%Q).
Proof.
  intros Ha. eexists _, _. split; [by apply (get_max_preds_table a B J H W)|]. split.
  - intros n p Hn Hp Hall. eexists. rewrite at2_tabulate2 by done.
    split; [done|]. apply masked_peak_nonpositive.
    by apply (amax_nonpositive a B J H W).
  - intros Hzero n p Hn Hp. eexists _, _. rewrite !at2_tabulate2 by done.
    split; [done|].
    assert (Hle : (amax_total (slice a n p) <= 0)%Q).
    { apply (amax_nonpositive a B J H W); try done.
      intros y x Hy Hx. rewrite (Hzero n p y x) by done. apply Qle_refl. }
    split; [by apply masked_peak_nonpositive|]. split; [done|].
    destruct (amax_is_item a B J H W n p Ha Hn Hp) as (Hy & Hx & _ & ->).
    by apply Hzero.
Qed.

Lemma C3_nonpositive_slice_zeroed_witness :
  heatmap4 negative_pair 1 1 1 2 /\
  exists coords maxvals,
    get_max_preds (PyNdarray negative_pair) = Ok (coords, maxvals) /\
    (forall n p, n < 1 -> p < 1 ->
       (forall y x, y < 1 -> x < 2 ->
          (np.item4 negative_pair n p y x <= 0)%Q) ->
       exists c, at2 coords n p = Some c /\ coord_eq c (0, 0)%Q) /\
    ((forall n p y x, n < 1 -> p < 1 -> y < 1 -> x < 2 ->
        (np.item4 negative_pair n p y x == 0)%Q) ->
     forall n p, n < 1 -> p < 1 ->
       exists c m, at2 coords n p = Some c /\ coord_eq c (0, 0)%Q /\
                   at2 maxvals n p = Some m /\ (m == 0)%Q).
Proof.
  split; [exact heatmap4_negative_pair|].
  apply (C3_nonpositive_slice_zeroed negative_pair 1 1 1 2).
  exact heatmap4_negative_pair.
Defined.

Lemma heatmap4_centre5 : heatmap4 centre5 1 1 5 5.
Proof. repeat split; lia. Qed.

(** ** The quarter step on a very wide heatmap *)

Lemma wide_ridge_items (W : nat) :
  Z.of_nat W = 4194400%Z ->
  heatmap4 (wide_ridge W) 1 1 5 W /\
  np.item4 (wide_ridge W) 0 0 2 (W - 95) = 5%Q /\
  np.item4 (wide_ridge W) 0 0 2 (W - 95 + 1) = 3%Q /\
  np.item4 (wide_ridge W) 0 0 2 (W - 95 - 1) = 0%Q /\
  strict_peak (wide_ridge W) 5 W 0 0 2 (W - 95).
Proof.
  intros HW. unfold wide_ridge.
  split; [apply heatmap4_sparse; simpl; lia|].
  split; [by rewrite (item4_sparse_in _ _ _ _ _ _ 0) by (simpl; lia)|].
  split; [by rewrite (item4_sparse_in _ _ _ _ _ _ 1) by (simpl; lia)|].
  split; [apply item4_sparse_out; simpl; lia|].
  intros y x Hy Hx Hne.
  rewrite (item4_sparse_in _ _ _ _ 2 (W - 95) 0) by (simpl; lia).
  destruct (decide (y = 2 /\ x = W - 95 + 1)) as [[-> ->]|Hno].
  - rewrite (item4_sparse_in _ _ _ _ _ _ 1) by (simpl; lia). reflexivity.
  - rewrite item4_sparse_out; [reflexivity|].
    assert (Hxy : ~ (y = 2 /\ x = W - 95)) by (intros [-> ->]; done).
    simpl length. destruct y as [|[|[|[|[|y]]]]]; lia.
Qed.

Lemma wide_ridge_peak (W : nat) :
  Z.of_nat W = 4194400%Z ->
  masked_peak W (slice (wide_ridge W) 0 0) = (4194305%Q, 2%Q).
Proof.
  intros HW.
  destruct (wide_ridge_items W HW) as (Ha & Hpk & Hr & Hl & Hsp).
  rewrite (masked_peak_at _ 1 1 5 W 0 0 2 (W - 95)); try done; try lia.
  2:{ rewrite Hpk. reflexivity. }
  unfold to_float.
  replace (Z.of_nat (2 * W + (W - 95))) with 12583105%Z by lia.
  rewrite HW. vm_compute. reflexivity.
Qed.

(** On a heatmap 4194400 pixels wide the guard holds at the peak in
    column 4194305 and the right neighbour is the larger one, yet the
    refined x is the column itself: in float32 the sum 4194305 + 0.25 is
    4194305. *)
Lemma wide_ridge_quarter_lost (W : nat) :
  Z.of_nat W = 4194400%Z ->
  exists coords maxvals c,
    heatmap4 (wide_ridge W) 1 1 5 W /\
    get_max_preds (PyNdarray (wide_ridge W)) = Ok (coords, maxvals) /\
    at2 coords 0 0 = Some c /\
    refinement_applies 5 W (rounded (fst c)) (rounded (snd c)) /\
    ~ exists coords' c',
        refined_coords (wide_ridge W) = Ok (coords', maxvals) /\
        at2 coords' 0 0 = Some c' /\
        quarter_step (wide_ridge W) 0 0 c c'.
Proof.
  intros HW.
  destruct (wide_ridge_items W HW) as (Ha & Hpk & Hr & Hl & Hsp).
  pose proof (wide_ridge_peak W HW) as Hc.
  assert (Hrx : rounded (fst (masked_peak W (slice (wide_ridge W) 0 0)))
                = 4194305%Z) by (by rewrite Hc).
  assert (Hry : rounded (snd (masked_peak W (slice (wide_ridge W) 0 0)))
                = 2%Z) by (by rewrite Hc).
  assert (Happ : refinement_applies 5 W
            (rounded (fst (masked_peak W (slice (wide_ridge W) 0 0))))
            (rounded (snd (masked_peak W (slice (wide_ridge W) 0 0))))).
  { rewrite Hrx, Hry. unfold refinement_applies. lia. }
  eexists _, _, _. split; [exact Ha|].
  split; [by apply (get_max_preds_table _ 1 1 5 W)|].
  split; [by rewrite at2_tabulate2 by lia|].
  split; [exact Happ|].
  intros (coords' & c' & Href & Hc' & Hq).
  rewrite (refined_coords_table _ 1 1 5 W Ha) in Href.
  injection Href as <-.
  rewrite at2_tabulate2 in Hc' by lia. injection Hc' as <-.
  destruct Hq as (_ & _ & Hplus & _).
  rewrite Hrx, Hry in Hplus.
  replace (Z.to_nat 4194305) with (W - 95) in Hplus by lia.
  replace (Z.to_nat 2) with 2 in Hplus by lia.
  rewrite Hr, Hl in Hplus. specialize (Hplus eq_refl).
  destruct (refine_total_cases (wide_ridge W) 5 W 0 0
              (masked_peak W (slice (wide_ridge W) 0 0)))
    as [[_ Heq]|[Hno _]]; [|done].
  rewrite Heq in Hplus. cbn [fst] in Hplus.
  rewrite Hrx, Hry in Hplus.
  replace (Z.to_nat 4194305) with (W - 95) in Hplus by lia.
  replace (Z.to_nat 2) with 2 in Hplus by lia.
  rewrite Hr, Hl, Hc in Hplus. vm_compute in Hplus. done.
Qed.

(** C4, as stated, fails: on the 1 x 1 x 5 x 4194400 heatmap
    [wide_ridge] the refinement is applied at the peak (4194305, 2),
    whose right neighbour 3 exceeds its left neighbour 0, and x is not
    changed by 0.25 but left at 4194305. *)
Lemma C4_wide_heatmap_quarter_lost :
  exists coords maxvals c,
    heatmap4 (wide_ridge (Z.to_nat 4194400)) 1 1 5 (Z.to_nat 4194400) /\
    get_max_preds (PyNdarray (wide_ridge (Z.to_nat 4194400)))
    = Ok (coords, maxvals) /\
    at2 coords 0 0 = Some c /\
    refinement_applies 5 (Z.to_nat 4194400)
                       (rounded (fst c)) (rounded (snd c)) /\
    ~ exists coords' c',
        refined_coords (wide_ridge (Z.to_nat 4194400))
        = Ok (coords', maxvals) /\
        at2 coords' 0 0 = Some c' /\
        quarter_step (wide_ridge (Z.to_nat 4194400)) 0 0 c c'.
Proof. apply wide_ridge_quarter_lost. by rewrite Z2Nat.id. Qed.

(** C4 (amended): on a heatmap whose slices have at most 2^24 pixels
    (where float32 keeps every flat index and, the guard asking for at
    least four rows and four columns, every pixel coordinate moved by a
    quarter), when the guard of the refinement holds at the rounded peak
    (px, py) of slice (n, p), the x coordinate moves by
    sign(hm[py][px+1] - hm[py][px-1]) * 0.25 and the y coordinate by
    sign(hm[py+1][px] - hm[py-1][px]) * 0.25: a quarter pixel towards the
    neighbour with the larger score, and not at all on an axis whose two
    neighbours are equal. *)
Theorem C4_refinement_quarter_step (a : np.ndarray) (B J H W n p : nat)
    (coords : coords_t) (maxvals : maxvals_t) (c : Q * Q) :
  heatmap4 a B J H W -> index_exact H W ->
  get_max_preds (PyNdarray a) = Ok (coords, maxvals) ->
  at2 coords n p = Some c ->
  refinement_applies H W (rounded (fst c)) (rounded (snd c)) ->
  exists coords' c',
    refined_coords a = Ok (coords', maxvals) /\
    at2 coords' n p = Some c' /\
    quarter_step a n p c c'.
Proof.
  intros Ha He Hget Hc Happ.
  rewrite (get_max_preds_table a B J H W Ha) in Hget.
  injection Hget as <- <-.
  apply at2_tabulate2_inv in Hc as (Hn & Hp & ->).
  eexists _, _. split; [by apply (refined_coords_table a B J H W)|].
  rewrite at2_tabulate2 by done. split; [done|].
  destruct (refine_total_cases a H W n p (masked_peak W (slice a n p)))
    as [[_ ->]|[Hno _]]; [|done].
  destruct (masked_peak_integer W (slice a n p)) as (zx & zy & [Hzx Hzy]).
  cbn [fst snd] in Hzx, Hzy.
  destruct Happ as [Hpx Hpy].
  rewrite (rounded_integer _ _ Hzx) in Hpx.
  rewrite (rounded_integer _ _ Hzy) in Hpy.
  assert (HqW : (Z.of_nat W <= 4194304)%Z) by (unfold index_exact in He; nia).
  assert (HqH : (Z.of_nat H <= 4194304)%Z) by (unfold index_exact in He; nia).
  assert (Hx2 : (2 <= inject_Z zx <= 4194302)%Q).
  { change 2%Q with (inject_Z 2). change 4194302%Q with (inject_Z 4194302).
    rewrite <- !Zle_Qle. lia. }
  assert (Hy2 : (2 <= inject_Z zy <= 4194302)%Q).
  { change 2%Q with (inject_Z 2). change 4194302%Q with (inject_Z 4194302).
    rewrite <- !Zle_Qle. lia. }
  unfold quarter_step. cbn [fst snd].
  set (dx := (np.item4 a n p _ _ - np.item4 a n p _ _)%Q).
  set (dy := (np.item4 a n p _ _ - np.item4 a n p _ _)%Q).
  pose proof (quarter_sign_range dx) as Hsx.
  pose proof (quarter_sign_range dy) as Hsy.
  rewrite !f32_add_quarter_exact by (apply Qabs_Qle_condition; lra).
  split; [done|]. split; [done|].
  subst dx dy. repeat split; intros Hd.
  - rewrite sign_pos by lra. lra.
  - rewrite sign_neg by lra. lra.
  - rewrite sign_zero by lra. lra.
  - rewrite sign_pos by lra. lra.
  - rewrite sign_neg by lra. lra.
  - rewrite sign_zero by lra. lra.
Qed.

Lemma C4_refinement_quarter_step_witness :
  heatmap4 centre5 1 1 5 5 /\ index_exact 5 5 /\
  get_max_preds (PyNdarray centre5) = Ok ([[(2 * 1, 2 * 1)%Q]], [[5%Q]]) /\
  refinement_applies 5 5 (rounded (2 * 1)) (rounded (2 * 1)) /\
  exists coords' c',
    refined_coords centre5 = Ok (coords', [[5%Q]]) /\
    at2 coords' 0 0 = Some c' /\
    quarter_step centre5 0 0 (2 * 1, 2 * 1)%Q c'.
Proof.
  assert (He : index_exact 5 5) by (unfold index_exact; simpl; lia).
  assert (Hget : get_max_preds (PyNdarray centre5)
                 = Ok ([[(2 * 1, 2 * 1)%Q]], [[5%Q]])) by reflexivity.
  assert (Happ : refinement_applies 5 5 (rounded (2 * 1)) (rounded (2 * 1)))
    by (vm_compute; repeat split; reflexivity).
  split; [exact heatmap4_centre5|]. split; [exact He|].
  split; [exact Hget|].
  split; [exact Happ|].
  exact (C4_refinement_quarter_step centre5 1 1 5 5 0 0 _ _ _
           heatmap4_centre5 He Hget eq_refl Happ).
Defined.

(** ** Unit impulses *)

Lemma unit_impulse_exact a B J H W n p y0 x0 :
  heatmap4 a B J H W -> index_exact H W ->
  n < B -> p < J -> y0 < H -> x0 < W ->
  unit_impulse a H W n p y0 x0 ->
  coord_eq (refine_total a H W n p (masked_peak W (slice a n p)))
           (pixel x0, pixel y0).
Proof.
  intros Ha He Hn Hp Hy0 Hx0 Himp.
  destruct (unit_impulse_peak a B J H W n p y0 x0) as [Hj Hm]; try done.
  assert (Hc : coord_eq (masked_peak W (slice a n p)) (pixel x0, pixel y0)).
  { pose proof (masked_peak_decoded a B J H W n p Ha He Hn Hp) as Hpk.
    rewrite Hj, flat_index_mod, flat_index_div in Hpk by done.
    apply Hpk. rewrite Hm. reflexivity. }
  destruct (refine_total_cases a H W n p (masked_peak W (slice a n p)))
    as [[Happ ->]|[_ ->]]; [|done].
  destruct Hc as [H1 H2]. cbn [fst snd] in H1, H2.
  destruct Happ as [Hpx Hpy].
  rewrite (rounded_pixel _ _ H1) in *.
  rewrite (rounded_pixel _ _ H2) in *.
  rewrite !Nat2Z.id. destruct Himp as [_ Hzero].
  split; cbn [fst snd].
  - rewrite f32_add_quarter_zero; [exact H1|].
    rewrite sign_zero; [reflexivity|].
    rewrite (Hzero y0 (x0 + 1)), (Hzero y0 (x0 - 1));
      [reflexivity|lia|lia|intros [=]; lia|lia|lia|intros [=]; lia].
  - rewrite f32_add_quarter_zero; [exact H2|].
    rewrite sign_zero; [reflexivity|].
    rewrite (Hzero (y0 + 1) x0), (Hzero (y0 - 1) x0);
      [reflexivity|lia|lia|intros [=]; lia|lia|lia|intros [=]; lia].
Qed.

(** ** A unit impulse behind flat index 2^24 *)

Lemma wide_impulse_items (W : nat) :
  Z.of_nat W = 8388612%Z ->
  heatmap4 (wide_impulse W) 1 1 3 W /\
  unit_impulse (wide_impulse W) 3 W 0 0 1 (W - 5) /\
  strict_peak (wide_impulse W) 3 W 0 0 1 (W - 5).
Proof.
  intros HW. unfold wide_impulse.
  split; [apply heatmap4_sparse; simpl; lia|].
  assert (Hone : np.item4 (sparse 3 W (1 * W + (W - 5)) [1%Q]) 0 0 1 (W - 5)
                 = 1%Q)
    by (by rewrite (item4_sparse_in _ _ _ _ _ _ 0) by (simpl; lia)).
  assert (Hzero : forall y x, y < 3 -> x < W -> (y, x) <> (1, W - 5) ->
            np.item4 (sparse 3 W (1 * W + (W - 5)) [1%Q]) 0 0 y x = 0%Q).
  { intros y x Hy Hx Hne. apply item4_sparse_out.
    assert (Hxy : ~ (y = 1 /\ x = W - 5)) by (intros [-> ->]; done).
    simpl length. destruct y as [|[|[|y]]]; lia. }
  split.
  - split; [by rewrite Hone|]. intros y x Hy Hx Hne. by rewrite Hzero.
  - intros y x Hy Hx Hne. by rewrite Hone, Hzero.
Qed.

(** Flat index 16777219 of the impulse becomes 16777220 in float32: the
    decoded column is one to the right of the impulse. *)
Lemma wide_impulse_peak (W : nat) :
  Z.of_nat W = 8388612%Z ->
  masked_peak W (slice (wide_impulse W) 0 0) = (8388608%Q, 1%Q).
Proof.
  intros HW.
  destruct (wide_impulse_items W HW) as (Ha & [Hone _] & Hsp).
  rewrite (masked_peak_at _ 1 1 3 W 0 0 1 (W - 5)); try done; try lia.
  2:{ rewrite Hone. reflexivity. }
  unfold to_float.
  replace (Z.of_nat (1 * W + (W - 5))) with 16777219%Z by lia.
  rewrite HW. vm_compute. reflexivity.
Qed.

Lemma wide_impulse_off_by_one (W : nat) :
  Z.of_nat W = 8388612%Z ->
  heatmap4 (wide_impulse W) 1 1 3 W /\
  0 < W - 5 /\ W - 5 + 1 < W /\
  unit_impulse (wide_impulse W) 3 W 0 0 1 (W - 5) /\
  ~ exists coords maxvals c m,
      refined_coords (wide_impulse W) = Ok (coords, maxvals) /\
      at2 coords 0 0 = Some c /\
      at2 maxvals 0 0 = Some m /\
      within_quarter c (W - 5) 1 /\
      (m == 1)%Q.
Proof.
  intros HW.
  destruct (wide_impulse_items W HW) as (Ha & Himp & _).
  pose proof (wide_impulse_peak W HW) as Hc.
  split; [exact Ha|]. split; [lia|]. split; [lia|]. split; [exact Himp|].
  intros (coords & maxvals & c & m & Href & Hat & _ & [Hx _] & _).
  rewrite (refined_coords_table _ 1 1 3 W Ha) in Href.
  injection Href as <- <-.
  rewrite at2_tabulate2 in Hat by lia. injection Hat as <-.
  destruct (refine_total_cases (wide_impulse W) 3 W 0 0
              (masked_peak W (slice (wide_impulse W) 0 0)))
    as [[[_ Hpy] _]|[_ Heq]].
  - rewrite Hc in Hpy. vm_compute in Hpy. by destruct Hpy.
  - rewrite Heq, Hc in Hx. cbn [fst] in Hx. unfold pixel in Hx.
    replace (Z.of_nat (W - 5)) with 8388607%Z in Hx by lia.
    vm_compute in Hx. by apply Hx.
Qed.

(** C5, as stated, fails: the 1 x 1 x 3 x 8388612 heatmap
    [wide_impulse] is zero except for a unit impulse at the interior
    pixel (x, y) = (8388607, 1), and the coordinate before the transform
    back is (8388608, 1), a whole pixel from the impulse. *)
Lemma C5_wide_impulse_off_by_one :
  heatmap4 (wide_impulse (Z.to_nat 8388612)) 1 1 3 (Z.to_nat 8388612) /\
  0 < Z.to_nat 8388612 - 5 /\ Z.to_nat 8388612 - 5 + 1 < Z.to_nat 8388612 /\
  unit_impulse (wide_impulse (Z.to_nat 8388612)) 3 (Z.to_nat 8388612)
               0 0 1 (Z.to_nat 8388612 - 5) /\
  ~ exists coords maxvals c m,
      refined_coords (wide_impulse (Z.to_nat 8388612))
      = Ok (coords, maxvals) /\
      at2 coords 0 0 = Some c /\
      at2 maxvals 0 0 = Some m /\
      within_quarter c (Z.to_nat 8388612 - 5) 1 /\
      (m == 1)%Q.
Proof. apply wide_impulse_off_by_one. by rewrite Z2Nat.id. Qed.

(** C5 (amended): on a heatmap whose slices have at most 2^24 pixels
    (the range in which the float32 cast of line 145 keeps the flat
    index), when slice (n, p) is zero except for a unit impulse at an
    interior pixel (x0, y0), the coordinate of that slice before the
    transform back is within 0.25 of (x0, y0) on each axis and the
    confidence is 1. *)
Theorem C5_unit_impulse_decoded (a : np.ndarray) (B J H W n p y0 x0 : nat) :
  heatmap4 a B J H W -> index_exact H W -> n < B -> p < J ->
  0 < x0 -> x0 + 1 < W -> 0 < y0 -> y0 + 1 < H ->
  unit_impulse a H W n p y0 x0 ->
  exists coords maxvals c m,
    refined_coords a = Ok (coords, maxvals) /\
    at2 coords n p = Some c /\
    at2 maxvals n p = Some m /\
    within_quarter c x0 y0 /\
    (m == 1)%Q.
Proof.
  intros Ha He Hn Hp Hx0 Hx1 Hy0 Hy1 Himp.
  eexists _, _, _, _.
  split; [by apply (refined_coords_table a B J H W)|].
  rewrite !at2_tabulate2 by done. split; [done|]. split; [done|].
  destruct (unit_impulse_peak a B J H W n p y0 x0) as [_ Hm];
    [done|done|done|lia|lia|done|].
  split; [|done].
  destruct (unit_impulse_exact a B J H W n p y0 x0) as [H1 H2];
    [done|done|done|done|lia|lia|done|].
  cbn [fst snd] in H1, H2. unfold within_quarter.
  rewrite H1, H2. split; apply Qabs_Qle_condition; lra.
Qed.

Lemma unit_impulse_impulse5 : unit_impulse (impulse5 2 3) 5 5 0 0 2 3.
Proof.
  split; [reflexivity|]. intros y x Hy Hx Hne.
  destruct y as [|[|[|[|[|y]]]]]; try lia;
    destruct x as [|[|[|[|[|x]]]]]; try lia; try reflexivity; done.
Qed.

Lemma C5_unit_impulse_decoded_witness :
  heatmap4 (impulse5 2 3) 1 1 5 5 /\ index_exact 5 5 /\
  unit_impulse (impulse5 2 3) 5 5 0 0 2 3 /\
  exists coords maxvals c m,
    refined_coords (impulse5 2 3) = Ok (coords, maxvals) /\
    at2 coords 0 0 = Some c /\
    at2 maxvals 0 0 = Some m /\
    within_quarter c 3 2 /\
    (m == 1)%Q.
Proof.
  assert (Ha : heatmap4 (impulse5 2 3) 1 1 5 5)
    by (repeat split; try reflexivity; lia).
  assert (He : index_exact 5 5) by (unfold index_exact; simpl; lia).
  split; [exact Ha|]. split; [exact He|].
  split; [exact unit_impulse_impulse5|].
  apply (C5_unit_impulse_decoded (impulse5 2 3) 1 1 5 5 0 0 2 3);
    try lia; [exact Ha|exact He|exact unit_impulse_impulse5].
Defined.

(** ** A maximum at the last pixel behind flat index 2^24 *)

Lemma last_pixel_row_items (W : nat) :
  Z.of_nat W = 16777220%Z ->
  heatmap4 (last_pixel_row W) 1 1 1 W /\
  np.item4 (last_pixel_row W) 0 0 0 (W - 1) = 1%Q /\
  strict_peak (last_pixel_row W) 1 W 0 0 0 (W - 1).
Proof.
  intros HW. unfold last_pixel_row.
  split; [apply heatmap4_sparse; simpl; lia|].
  assert (Hone : np.item4 (sparse 1 W (0 * W + (W - 1)) [1%Q]) 0 0 0 (W - 1)
                 = 1%Q)
    by (by rewrite (item4_sparse_in _ _ _ _ _ _ 0) by (simpl; lia)).
  split; [exact Hone|].
  intros y x Hy Hx Hne. rewrite Hone, item4_sparse_out; [reflexivity|].
  assert (Hxy : ~ (y = 0 /\ x = W - 1)) by (intros [-> ->]; done).
  simpl length. destruct y as [|y]; lia.
Qed.

(** Flat index 16777219 of the last pixel becomes 16777220, the number
    of pixels of the row, in float32: the decoded pixel is (0, 1), one
    row below the heatmap. *)
Lemma last_pixel_row_peak (W : nat) :
  Z.of_nat W = 16777220%Z ->
  masked_peak W (slice (last_pixel_row W) 0 0) = (0%Q, 1%Q).
Proof.
  intros HW.
  destruct (last_pixel_row_items W HW) as (Ha & Hone & Hsp).
  rewrite (masked_peak_at _ 1 1 1 W 0 0 0 (W - 1)); try done; try lia.
  2:{ rewrite Hone. reflexivity. }
  unfold to_float.
  replace (Z.of_nat (0 * W + (W - 1))) with 16777219%Z by lia.
  rewrite HW. vm_compute. reflexivity.
Qed.

Lemma last_pixel_row_out_of_bounds (W : nat) :
  Z.of_nat W = 16777220%Z ->
  heatmap4 (last_pixel_row W) 1 1 1 W /\
  ~ exists coords coords' maxvals,
      get_max_preds (PyNdarray (last_pixel_row W)) = Ok (coords, maxvals) /\
      refined_coords (last_pixel_row W) = Ok (coords', maxvals) /\
      (forall n p c, at2 coords n p = Some c -> in_bounds 1 W c) /\
      (forall n p c, at2 coords' n p = Some c -> in_bounds 1 W c).
Proof.
  intros HW.
  destruct (last_pixel_row_items W HW) as (Ha & _ & _).
  pose proof (last_pixel_row_peak W HW) as Hc.
  split; [exact Ha|].
  intros (coords & coords' & maxvals & Hget & _ & Hin & _).
  rewrite (get_max_preds_table _ 1 1 1 W Ha) in Hget.
  injection Hget as <- <-.
  destruct (Hin 0 0 _ (at2_tabulate2 1 1 _ 0 0 ltac:(lia) ltac:(lia)))
    as [_ [_ Hy]].
  rewrite Hc in Hy. vm_compute in Hy. by apply Hy.
Qed.

(** C9, as stated, fails: on the 1 x 1 x 1 x 16777220 heatmap
    [last_pixel_row], whose maximum is its last pixel, [get_max_preds]
    returns the coordinate (0, 1), and y = 1 exceeds H - 1 = 0. *)
Lemma C9_last_pixel_row_out_of_bounds :
  heatmap4 (last_pixel_row (Z.to_nat 16777220)) 1 1 1 (Z.to_nat 16777220) /\
  ~ exists coords coords' maxvals,
      get_max_preds (PyNdarray (last_pixel_row (Z.to_nat 16777220)))
      = Ok (coords, maxvals) /\
      refined_coords (last_pixel_row (Z.to_nat 16777220))
      = Ok (coords', maxvals) /\
      (forall n p c, at2 coords n p = Some c ->
         in_bounds 1 (Z.to_nat 16777220) c) /\
      (forall n p c, at2 coords' n p = Some c ->
         in_bounds 1 (Z.to_nat 16777220) c).
Proof. apply last_pixel_row_out_of_bounds. by rewrite Z2Nat.id. Qed.

(** C9 (amended): on a heatmap of height H and width W with no empty
    axis and at most 2^24 pixels per slice (the range in which the
    float32 cast of line 145 keeps the flat index), every coordinate
    returned by [get_max_preds], and every coordinate of
    [get_final_preds] before the transform back (after the refinement),
    satisfies 0 <= x <= W - 1 and 0 <= y <= H - 1. *)
Theorem C9_coordinates_in_bounds (a : np.ndarray) (B J H W : nat) :
  heatmap4 a B J H W -> index_exact H W ->
  exists coords coords' maxvals,
    get_max_preds (PyNdarray a) = Ok (coords, maxvals) /\
    refined_coords a = Ok (coords', maxvals) /\
    (forall n p c, at2 coords n p = Some c -> in_bounds H W c) /\
    (forall n p c, at2 coords' n p = Some c -> in_bounds H W c).
Proof.
  intros Ha He. eexists _, _, _.
  split; [by apply (get_max_preds_table a B J H W)|].
  split; [by apply (refined_coords_table a B J H W)|].
  split; intros n p c Hc; apply at2_tabulate2_inv in Hc as (Hn & Hp & ->);
    destruct (masked_peak_pixel a B J H W n p Ha He Hn Hp)
      as (xi & yi & Hx & Hy & Hpix).
  - by apply (pixel_in_bounds H W xi yi).
  - by apply (refined_pixel_in_bounds a H W n p xi yi).
Qed.

Lemma C9_coordinates_in_bounds_witness :
  heatmap4 centre5 1 1 5 5 /\ index_exact 5 5 /\
  exists coords coords' maxvals,
    get_max_preds (PyNdarray centre5) = Ok (coords, maxvals) /\
    refined_coords centre5 = Ok (coords', maxvals) /\
    (forall n p c, at2 coords n p = Some c -> in_bounds 5 5 c) /\
    (forall n p c, at2 coords' n p = Some c -> in_bounds 5 5 c).
Proof.
  assert (He : index_exact 5 5) by (unfold index_exact; simpl; lia).
  split; [exact heatmap4_centre5|]. split; [exact He|].
  exact (C9_coordinates_in_bounds centre5 1 1 5 5 heatmap4_centre5 He).
Defined.

(** C1 (the code departs from the claim): on a 5 x 5 heatmap the peak at
    (x, y) = (1, 2) is one pixel inside the border and its right neighbour
    is larger than its left one, yet [get_final_preds] leaves x at 1; the
    mirrored peak at (3, 2), also one pixel inside, is moved to 3.25.  On
    a 3 x 3 heatmap the only interior pixel (1, 1) is never refined. *)
Theorem C1_peak_next_to_left_border_unrefined :
  (np.item4 (ridge5 1) 0 0 2 0 < np.item4 (ridge5 1) 0 0 2 2)%Q /\
  (exists c m, refined_coords (ridge5 1) = Ok ([[c]], m) /\
               coord_eq c (1, 2)%Q) /\
  (np.item4 (ridge5 3) 0 0 2 2 < np.item4 (ridge5 3) 0 0 2 4)%Q /\
  (exists c m, refined_coords (ridge5 3) = Ok ([[c]], m) /\
               coord_eq c (3 + (1 # 4), 2)%Q) /\
  (np.item4 centre3 0 0 1 0 < np.item4 centre3 0 0 1 2)%Q /\
  (exists c m, refined_coords centre3 = Ok ([[c]], m) /\
               coord_eq c (1, 1)%Q).
Proof.
  split; [reflexivity|]. split.
  { eexists _, _. split; [vm_compute; reflexivity|]. split; reflexivity. }
  split; [reflexivity|]. split.
  { eexists _, _. split; [vm_compute; reflexivity|]. split; reflexivity. }
  split; [reflexivity|].
  eexists _, _. split; [vm_compute; reflexivity|]. split; reflexivity.
Qed.

(** ** The assertions of [get_max_preds] *)

Lemma mapM_not_assertion {A B} (f : A -> result B) (l : list A) :
  (forall x, ~ is_assertion_error (f x)) -> ~ is_assertion_error (mapM f l).
Proof.
  intros Hf. induction l as [|x l IH]; simpl; [tauto|].
  specialize (Hf x). destruct (f x) as [y|e]; simpl; [|done].
  destruct (mapM f l) as [ys|e]; simpl; [tauto|done].
Qed.

Lemma argmax_not_assertion (l : list Q) : ~ is_assertion_error (np.argmax l).
Proof. destruct l; simpl; tauto. Qed.

Lemma amax_not_assertion (l : list Q) : ~ is_assertion_error (np.amax l).
Proof. destruct l; simpl; tauto. Qed.

Lemma get_max_preds_ndarray4_not_assertion (a : np.ndarray) :
  np.ndim a = 4 -> ~ is_assertion_error (get_max_preds (PyNdarray a)).
Proof.
  intros Hd. unfold get_max_preds. rewrite Hd. cbn [Nat.eqb negb].
  unfold np.reshape3, np.reshape_infer.
  destruct (_ || _); cbn [bind]; [simpl; tauto|].
  match goal with |- context [mapM (mapM np.argmax) ?r] => set (rows := r) end.
  pose proof (mapM_not_assertion (mapM np.argmax) rows
                (fun row => mapM_not_assertion _ row argmax_not_assertion))
    as Hidx.
  pose proof (mapM_not_assertion (mapM np.amax) rows
                (fun row => mapM_not_assertion _ row amax_not_assertion))
    as Hmax.
  destruct (mapM (mapM np.argmax) rows) as [idx|e]; cbn [bind]; [|done].
  destruct (mapM (mapM np.amax) rows) as [mx|e]; cbn [bind]; [|done].
  simpl. tauto.
Qed.

(** C8, as stated, fails: the array of shape (1, 1, 0, 0) is a
    4-dimensional numpy array, and [get_max_preds] does not return on it
    (ValueError: argmax of an empty sequence). *)
Lemma C8_empty_heatmap_does_not_return :
  is_ndarray4 (PyNdarray empty_heatmap) /\
  np.wf empty_heatmap /\
  get_max_preds (PyNdarray empty_heatmap) = Raise ValueError /\
  ~ returns (get_max_preds (PyNdarray empty_heatmap)).
Proof.
  split; [reflexivity|]. split; [reflexivity|]. split; [reflexivity|].
  simpl. tauto.
Qed.

(** C8 (amended): [get_max_preds] fails with an assertion error exactly
    when its argument is not a 4-dimensional numpy array, and it returns
    normally on every 4-dimensional numpy array that has no empty axis. *)
Theorem C8_get_max_preds_assertion (o : pyobj) (a : np.ndarray)
    (B J H W : nat) :
  heatmap4 a B J H W ->
  (is_assertion_error (get_max_preds o) <-> ~ is_ndarray4 o) /\
  returns (get_max_preds (PyNdarray a)).
Proof.
  intros Ha. split.
  - destruct o as [b|b|]; simpl; [|tauto|tauto].
    destruct (decide (np.ndim b = 4)) as [Hd|Hd].
    + pose proof (get_max_preds_ndarray4_not_assertion b Hd) as Hno.
      simpl in Hno. tauto.
    + apply Nat.eqb_neq in Hd as Hd'. rewrite Hd'. simpl. tauto.
  - by rewrite (get_max_preds_table a B J H W Ha).
Qed.

Lemma C8_get_max_preds_assertion_witness :
  heatmap4 centre3 1 1 3 3 /\
  (is_assertion_error (get_max_preds PyNone) <-> ~ is_ndarray4 PyNone) /\
  returns (get_max_preds (PyNdarray centre3)).
Proof.
  split; [exact heatmap4_centre3|].
  exact (C8_get_max_preds_assertion PyNone centre3 1 1 3 3 heatmap4_centre3).
Defined.

(** A 4-dimensional array with an empty axis makes [get_max_preds] raise
    ValueError, in [reshape] or in [argmax]. *)
Lemma get_max_preds_empty_axis (a : np.ndarray) (B J H W : nat) :
  np.shape a = [B; J; H; W] -> np.wf a -> B * J * (H * W) = 0 ->
  get_max_preds (PyNdarray a) = Raise ValueError.
Proof.
  intros Hs Hwf Hz.
  assert (Hlen : length (np.data a) = 0).
  { unfold np.wf in Hwf. rewrite Hs in Hwf. simpl in Hwf. lia. }
  unfold get_max_preds, np.ndim, np.dim. rewrite Hs. simpl.
  unfold np.reshape3, np.reshape_infer, np.numel. rewrite Hlen.
  destruct (Nat.eqb_spec (B * J) 0) as [|Hbj]; [done|].
  rewrite Nat.Div0.mod_0_l, Nat.Div0.div_0_l. simpl.
  destruct B as [|B]; [lia|]. destruct J as [|J]; [lia|]. reflexivity.
Qed.

(** ** [__call__] *)

Lemma zip_withM_Forall2 {A B C} (f : A -> B -> result C) (g : A -> B -> C)
    (l : list A) (k : list B) :
  Forall2 (fun x y => f x y = Ok (g x y)) l k ->
  zip_withM f l k = Ok (zip_with g l k).
Proof.
  induction 1 as [|x y l k Hxy _ IH]; simpl; [done|].
  by rewrite Hxy, IH.
Qed.

Lemma tabulate2_row_length {A} B J (f : nat -> nat -> A) n row :
  tabulate2 B J f !! n = Some row -> length row = J.
Proof.
  intros Hrow. apply tabulate2_row_inv in Hrow as [_ ->].
  by rewrite length_map, length_seq.
Qed.

Lemma get_final_preds_eval tp a B J H W center scale :
  heatmap4 a B J H W -> B <= length center -> B <= length scale ->
  exists coords maxvals,
    refined_coords a = Ok (coords, maxvals) /\
    get_final_preds tp a center scale
    = Ok (imap (fun i row => tp row (nth i center (0, 0)%Q)
                                (nth i scale (0, 0)%Q) (W, H)) coords,
          maxvals) /\
    length coords = B /\ length maxvals = B /\
    (forall i row, coords !! i = Some row -> length row = J) /\
    (forall i row, maxvals !! i = Some row -> length row = J).
Proof.
  intros Ha Hc Hs. eexists _, _.
  split; [by apply (refined_coords_table a B J H W)|].
  split; [|split; [by apply tabulate2_length|split;
    [by apply tabulate2_length|split; intros i row;
       apply tabulate2_row_length]]].
  unfold get_final_preds.
  rewrite (refined_coords_table a B J H W Ha). cbn [bind fst snd].
  pose proof Ha as (Hsh & _). unfold np.dim. rewrite Hsh. cbn [nth].
  rewrite (imapM_pure _
    (fun i row => tp row (nth i center (0, 0)%Q)
                     (nth i scale (0, 0)%Q) (W, H))); [done|].
  intros i row Hrow. apply lookup_lt_Some in Hrow.
  rewrite tabulate2_length in Hrow. cbn [Nat.add].
  destruct (nth_lookup_or_length center i (0, 0)%Q) as [Hci|]; [|lia].
  destruct (nth_lookup_or_length scale i (0, 0)%Q) as [Hsi|]; [|lia].
  by rewrite (getitem_lookup _ _ _ Hci), (getitem_lookup _ _ _ Hsi).
Qed.

(** C7, as stated, fails: for a batch of two images [__call__] returns a
    list with one entry, not two. *)
Lemma C7_batch_of_two_one_entry :
  heatmap4 two_images 2 1 1 2 /\
  exists outputs,
    __call__ transform_preds_spec two_images
             [(0, 0); (0, 0)]%Q [(1, 1); (1, 1)]%Q = Ok outputs /\
    length outputs <> 2.
Proof.
  split; [repeat split; lia|].
  eexists. split; [vm_compute; reflexivity|]. simpl. lia.
Qed.

(** C7 (amended): for every batch of size B, [__call__] returns a list
    with a single entry, the pair of the (B x num_joints x 3) array whose
    row (i, j) is (x, y, confidence) of joint j of image i and of the array
    of the B per-image mean confidences. *)
Theorem C7_call_returns_batched_pair
    (tp : list (Q * Q) -> Q * Q -> Q * Q -> nat * nat -> list (Q * Q))
    (output : np.ndarray) (B J H W : nat) (center scale : list (Q * Q)) :
  keeps_rows tp ->
  heatmap4 output B J H W -> B <= length center -> B <= length scale ->
  exists preds maxvals outputs,
    get_final_preds tp output center scale = Ok (preds, maxvals) /\
    __call__ tp output center scale = Ok outputs /\
    batched_result B J preds maxvals outputs.
Proof.
  intros Htp Ha Hc Hs.
  destruct (get_final_preds_eval tp output B J H W center scale Ha Hc Hs)
    as (coords & maxvals & _ & Hfin & HlenC & HlenM & HrowC & HrowM).
  set (preds := imap _ coords) in Hfin.
  assert (HlenP : length preds = B) by (unfold preds; by rewrite length_imap).
  assert (HrowP : forall i row, preds !! i = Some row -> length row = J).
  { intros i row Hrow. unfold preds in Hrow.
    rewrite list_lookup_imap in Hrow.
    apply fmap_Some in Hrow as (r & Hr & ->).
    rewrite Htp. eauto. }
  exists preds, maxvals. eexists. split; [exact Hfin|].
  unfold __call__. rewrite Hfin. cbn [bind fst snd].
  unfold concatenate_last.
  rewrite (zip_withM_Forall2 _ (zip_with pair)); last first.
  { apply Forall2_same_length_lookup_2; [lia|].
    intros i x y Hx Hy. apply (zip_withM_Forall2 _ pair).
    apply Forall2_same_length_lookup_2; [|done].
    rewrite (HrowP _ _ Hx), (HrowM _ _ Hy). done. }
  cbn [bind]. split; [reflexivity|].
  eexists _, _. split; [reflexivity|].
  split; [rewrite length_zip_with; lia|].
  split; [by rewrite length_map|].
  intros i Hi.
  destruct (lookup_lt_is_Some_2 preds i ltac:(lia)) as [prow Hprow].
  destruct (lookup_lt_is_Some_2 maxvals i ltac:(lia)) as [mrow Hmrow].
  pose proof (HrowP _ _ Hprow) as Hpl. pose proof (HrowM _ _ Hmrow) as Hml.
  split.
  - exists (zip_with pair prow mrow).
    split; [by rewrite lookup_zip_with, Hprow, Hmrow|].
    split; [rewrite length_zip_with; lia|].
    intros j Hj.
    destruct (lookup_lt_is_Some_2 prow j ltac:(lia)) as [c Hcj].
    destruct (lookup_lt_is_Some_2 mrow j ltac:(lia)) as [m Hmj].
    exists c, m. unfold at2. rewrite Hprow, Hmrow.
    split; [done|]. split; [done|].
    by rewrite lookup_zip_with, Hcj, Hmj.
  - exists mrow. split; [done|]. split; [done|].
    by rewrite map_fmap, list_lookup_fmap, Hmrow.
Qed.

Lemma keeps_rows_spec : keeps_rows transform_preds_spec.
Proof. intros row c s wh. apply length_map. Qed.

Lemma C7_call_returns_batched_pair_witness :
  keeps_rows transform_preds_spec /\
  heatmap4 two_images 2 1 1 2 /\
  exists preds maxvals outputs,
    get_final_preds transform_preds_spec two_images
                    [(0, 0); (0, 0)]%Q [(1, 1); (1, 1)]%Q
    = Ok (preds, maxvals) /\
    __call__ transform_preds_spec two_images
             [(0, 0); (0, 0)]%Q [(1, 1); (1, 1)]%Q = Ok outputs /\
    batched_result 2 1 preds maxvals outputs.
Proof.
  assert (Ha : heatmap4 two_images 2 1 1 2) by (repeat split; lia).
  split; [exact keeps_rows_spec|]. split; [exact Ha|].
  apply (C7_call_returns_batched_pair transform_preds_spec two_images
           2 1 1 2 _ _ keeps_rows_spec Ha); simpl; lia.
Defined.

(** ** Index tuples *)

Lemma flat_map_length_uniform {A B} (f : A -> list B) (l : list A) (L : nat) :
  (forall x, In x l -> length (f x) = L) ->
  length (flat_map f l) = length l * L.
Proof.
  induction l as [|x l IH]; intros Hf; simpl; [done|].
  rewrite length_app, Hf, IH; [done| |]; intros; [apply Hf|]; simpl; auto.
Qed.

Lemma indices_length (sh : list nat) :
  length (np.indices sh) = foldr Nat.mul 1 sh.
Proof.
  induction sh as [|d r IH]; simpl; [done|].
  rewrite (flat_map_length_uniform _ _ (foldr Nat.mul 1 r)).
  - by rewrite length_seq.
  - intros i _. by rewrite length_map.
Qed.

Lemma flat_map_lookup_uniform {A B} (f : A -> list B) (l : list A)
    (L i k : nat) (x : A) :
  (forall z, In z l -> length (f z) = L) ->
  l !! i = Some x -> k < L ->
  flat_map f l !! (i * L + k) = f x !! k.
Proof.
  revert i. induction l as [|z l IH]; intros i Hf Hi Hk; [done|].
  simpl. destruct i as [|i].
  - injection Hi as ->. simpl. apply lookup_app_l.
    rewrite Hf; [done|]. by left.
  - simpl in Hi. rewrite lookup_app_r; rewrite Hf; try (by left); [|lia].
    replace (S i * L + k - L) with (i * L + k) by lia.
    apply IH; [|done|done]. intros w Hw. apply Hf. by right.
Qed.

Lemma flat_index_bound_sh (sh ix : list nat) :
  Forall2 lt ix sh -> flat_index sh ix < foldr Nat.mul 1 sh.
Proof.
  intros H. induction H as [|i d ix r Hid _ IH]; simpl; [lia|]. nia.
Qed.

Lemma indices_lookup (sh ix : list nat) :
  Forall2 lt ix sh -> np.indices sh !! flat_index sh ix = Some ix.
Proof.
  intros H. induction H as [|i d ix r Hid Hr IH]; [done|].
  cbn [np.indices flat_index].
  rewrite (flat_map_lookup_uniform _ _ (foldr Nat.mul 1 r) i _ i).
  - by rewrite map_fmap, list_lookup_fmap, IH.
  - intros z _. by rewrite length_map, indices_length.
  - by apply lookup_seq_lt.
  - by apply flat_index_bound_sh.
Qed.

Lemma in_indices (sh ix : list nat) :
  In ix (np.indices sh) <-> Forall2 lt ix sh.
Proof.
  revert ix. induction sh as [|d r IH]; intros ix; simpl.
  - split.
    + intros [<-|[]]. constructor.
    + intros H. inversion H. by left.
  - rewrite in_flat_map. split.
    + intros (i & Hi & Hix). apply in_seq in Hi.
      apply in_map_iff in Hix as (ix' & <- & Hix').
      constructor; [lia|]. by apply IH.
    + intros H. inversion H as [|i d' ix' r' Hid Hr]; subst.
      exists i. split; [apply in_seq; lia|].
      apply in_map_iff. exists ix'. split; [done|]. by apply IH.
Qed.

Lemma in_indices3 (d0 d1 d2 : nat) (ix : list nat) :
  In ix (np.indices [d0; d1; d2]) <->
  exists n y x, ix = [n; y; x] /\ n < d0 /\ y < d1 /\ x < d2.
Proof.
  rewrite in_indices. split.
  - intros H. inversion H as [|n ? ? ? Hn H1]; subst.
    inversion H1 as [|y ? ? ? Hy H2]; subst.
    inversion H2 as [|x ? ? ? Hx H3]; subst. inversion H3; subst.
    by exists n, y, x.
  - intros (n & y & x & -> & Hn & Hy & Hx). by repeat constructor.
Qed.

Lemma in_indices4 (d0 d1 d2 d3 : nat) (ix : list nat) :
  In ix (np.indices [d0; d1; d2; d3]) <->
  exists n j y x, ix = [n; j; y; x] /\ n < d0 /\ j < d1 /\ y < d2 /\ x < d3.
Proof.
  rewrite in_indices. split.
  - intros H. inversion H as [|n ? ? ? Hn H1]; subst.
    inversion H1 as [|j ? ? ? Hj H2]; subst.
    inversion H2 as [|y ? ? ? Hy H3]; subst.
    inversion H3 as [|x ? ? ? Hx H4]; subst. inversion H4; subst.
    by exists n, j, y, x.
  - intros (n & j & y & x & -> & Hn & Hj & Hy & Hx). by repeat constructor.
Qed.

(** ** Buffer positions *)

Lemma flat4_bound (B J H W n j y x : nat) :
  n < B -> j < J -> y < H -> x < W -> flat4 J H W n j y x < B * J * (H * W).
Proof. apply flat_index4_bound. Qed.

Lemma flat4_inj (J H W n j y x n' j' y' x' : nat) :
  j < J -> y < H -> x < W -> j' < J -> y' < H -> x' < W ->
  flat4 J H W n j y x = flat4 J H W n' j' y' x' ->
  n = n' /\ j = j' /\ y = y' /\ x = x'.
Proof.
  unfold flat4. intros Hj Hy Hx Hj' Hy' Hx' Heq.
  assert (Hx0 : x = x').
  { apply (f_equal (fun k => k mod W)) in Heq.
    by rewrite !flat_index_mod in Heq. }
  apply (f_equal (fun k => k / W)) in Heq.
  rewrite !flat_index_div in Heq by done.
  assert (Hy0 : y = y').
  { apply (f_equal (fun k => k mod H)) in Heq.
    by rewrite !flat_index_mod in Heq. }
  apply (f_equal (fun k => k / H)) in Heq.
  rewrite !flat_index_div in Heq by done.
  assert (Hj0 : j = j').
  { apply (f_equal (fun k => k mod J)) in Heq.
    by rewrite !flat_index_mod in Heq. }
  apply (f_equal (fun k => k / J)) in Heq.
  rewrite !flat_index_div in Heq by done.
  done.
Qed.

(** ** Stores through a view *)

Lemma foldl_store_spec {I} (addr : I -> nat) (val : I -> Q) (l : list I)
    (m : list Q) :
  (forall i j, In i l -> In j l -> addr i = addr j -> i = j) ->
  let m' := foldl (fun acc i => <[addr i := val i]> acc) m l in
  length m' = length m /\
  (forall i, In i l -> addr i < length m -> m' !! addr i = Some (val i)) /\
  (forall k, (forall i, In i l -> addr i <> k) -> m' !! k = m !! k).
Proof.
  induction l as [|x l IH] using rev_ind; intros Hinj; simpl.
  { split; [done|]. split; [intros i []|done]. }
  rewrite foldl_app. simpl.
  destruct IH as (Hlen & Hin & Hout).
  { intros i j Hi Hj. apply Hinj; apply in_app_iff; by left. }
  split; [by rewrite length_insert|]. split.
  - intros i Hi Hlt.
    destruct (decide (addr i = addr x)) as [Heq|Hne].
    + assert (i = x) as ->.
      { apply Hinj; [done|apply in_app_iff; right; by left|done]. }
      apply list_lookup_insert_eq. by rewrite Hlen.
    + rewrite list_lookup_insert_ne by done.
      apply Hin; [|done]. apply in_app_iff in Hi as [Hi|[->|[]]]; done.
  - intros k Hk. rewrite list_lookup_insert_ne.
    + apply Hout. intros i Hi. apply Hk. apply in_app_iff. by left.
    + apply Hk. apply in_app_iff. right. by left.
Qed.

Lemma assign_copy (m msrc : list Q) (dst src : np.view) :
  np.vshape src = np.vshape dst ->
  np.assign m dst (np.copy msrc src)
  = foldl (fun acc ix =>
             <[np.cell dst ix := nth (np.cell src ix) msrc 0%Q]> acc)
          m (np.indices (np.vshape dst)).
Proof.
  intros Hsh. unfold np.assign, np.copy. rewrite Hsh.
  generalize (np.indices (np.vshape dst)). intros l. revert m.
  induction l as [|ix l IH]; intros m; simpl; [done|]. apply IH.
Qed.

(** ** The reversed view and its channels *)

Lemma flip_base_view a B J H W :
  np.shape a = [B; J; H; W] ->
  np.flip_axis3 (np.base_view a) = flipped_view B J H W.
Proof. intros Hs. unfold np.flip_axis3, np.base_view. by rewrite Hs. Qed.

Section ReversedView.

(** The shape of the array whose reversed view is considered. *)
Variables B J H W : nat.

Lemma select_flipped_view j :
  j < J -> np.select_axis1 (flipped_view B J H W) j
           = Ok (channel_view B J H W j).
Proof.
  intros Hj. unfold np.select_axis1, flipped_view. cbn [np.vshape np.vstrides].
  by destruct (Nat.ltb_spec j J); [|lia].
Qed.

Lemma select_flipped_view_out j :
  J <= j -> np.select_axis1 (flipped_view B J H W) j = Raise IndexError.
Proof.
  intros Hj. unfold np.select_axis1, flipped_view. cbn [np.vshape np.vstrides].
  by destruct (Nat.ltb_spec j J); [lia|].
Qed.

Lemma cell_flipped_view n j y x :
  x < W ->
  np.cell (flipped_view B J H W) [n; j; y; x] = flat4 J H W n j y (W - 1 - x).
Proof.
  intros Hx. unfold np.cell, np.addr, flipped_view, flat4. simpl. nia.
Qed.

Lemma cell_channel_view j n y x :
  x < W ->
  np.cell (channel_view B J H W j) [n; y; x] = flat4 J H W n j y (W - 1 - x).
Proof.
  intros Hx. unfold np.cell, np.addr, channel_view, flat4. simpl. nia.
Qed.

(** [v[:, a, :, :] = w] where [w] holds channel [b] of the same view as
    read from [msrc]. *)
Lemma assign_channel a b (m msrc : list Q) :
  a < J -> b < J ->
  length m = B * J * (H * W) -> length msrc = B * J * (H * W) ->
  let m' := np.assign m (channel_view B J H W a)
                      (np.copy msrc (channel_view B J H W b)) in
  length m' = length m /\
  forall n j y x, n < B -> j < J -> y < H -> x < W ->
    m' !! flat4 J H W n j y x
    = if decide (j = a) then msrc !! flat4 J H W n b y x
      else m !! flat4 J H W n j y x.
Proof.
  intros Ha Hb Hm Hsrc m'. unfold m'. rewrite assign_copy by done.
  cbn [np.vshape channel_view].
  match goal with |- context [foldl ?f m ?l] =>
    pose proof (foldl_store_spec
      (fun ix => np.cell (channel_view B J H W a) ix)
      (fun ix => nth (np.cell (channel_view B J H W b) ix) msrc 0%Q)
      l m) as Hspec end.
  destruct Hspec as (Hlen & Hin & Hout).
  { intros ix ix' (n & y & x & -> & Hn & Hy & Hx)%in_indices3
      (n' & y' & x' & -> & Hn' & Hy' & Hx')%in_indices3 Heq.
    rewrite !cell_channel_view in Heq by done.
    apply flat4_inj in Heq as (-> & _ & -> & Hxx); try lia.
    by replace x' with x by lia. }
  split; [done|]. intros n j y x Hn Hj Hy Hx.
  destruct (decide (j = a)) as [->|Hne].
  - specialize (Hin [n; y; W - 1 - x]).
    rewrite !cell_channel_view in Hin by lia.
    replace (W - 1 - (W - 1 - x)) with x in Hin by lia.
    rewrite Hin.
    + pose proof (flat4_bound B J H W n b y x Hn Hb Hy Hx) as Hbd.
      destruct (nth_lookup_or_length msrc (flat4 J H W n b y x) 0%Q);
        [done|lia].
    + apply in_indices3. exists n, y, (W - 1 - x). repeat split; lia.
    + rewrite Hm. by apply flat4_bound.
  - apply Hout.
    intros ix (n' & y' & x' & -> & Hn' & Hy' & Hx')%in_indices3 Heq.
    rewrite cell_channel_view in Heq by done.
    apply flat4_inj in Heq as (_ & Hja & _); lia.
Qed.

(** One exchange: afterwards channel [j] of the buffer holds what channel
    [swap_channel pr j] held before. *)
Lemma swap_pair_spec (m : list Q) (pr : nat * nat) :
  fst pr < J -> snd pr < J -> length m = B * J * (H * W) ->
  exists m',
    swap_pair (flipped_view B J H W) m pr = Ok m' /\
    length m' = length m /\
    forall n j y x, n < B -> j < J -> y < H -> x < W ->
      m' !! flat4 J H W n j y x
      = m !! flat4 J H W n (swap_channel pr j) y x.
Proof.
  intros H0 H1 Hm. unfold swap_pair.
  rewrite !select_flipped_view by done. cbn [bind].
  destruct (assign_channel (fst pr) (snd pr) m m H0 H1 Hm Hm)
    as (Hlen1 & Hm1).
  set (m1 := np.assign m _ _) in *.
  destruct (assign_channel (snd pr) (fst pr) m1 m H1 H0)
    as (Hlen2 & Hm2); [lia|done|].
  eexists. split; [reflexivity|]. split; [lia|].
  intros n j y x Hn Hj Hy Hx. rewrite Hm2 by done.
  unfold swap_channel. destruct (decide (j = snd pr)); [done|].
  rewrite Hm1 by done. by destruct (decide (j = fst pr)).
Qed.

End ReversedView.

Lemma swap_channel_range J pr j :
  fst pr < J -> snd pr < J -> j < J -> swap_channel pr j < J.
Proof. intros. unfold swap_channel. repeat case_decide; lia. Qed.

Lemma channel_source_range J pairs j :
  pairs_in_range J pairs -> j < J -> channel_source pairs j < J.
Proof.
  intros Hr Hj. induction Hr as [|pr rest [H0 H1] _ IH]; simpl; [done|].
  by apply swap_channel_range.
Qed.

Lemma swap_pairs_spec B J H W (pairs : list (nat * nat)) (m : list Q) :
  pairs_in_range J pairs -> length m = B * J * (H * W) ->
  exists m',
    swap_pairs (flipped_view B J H W) m pairs = Ok m' /\
    length m' = length m /\
    forall n j y x, n < B -> j < J -> y < H -> x < W ->
      m' !! flat4 J H W n j y x
      = m !! flat4 J H W n (channel_source pairs j) y x.
Proof.
  intros Hr. revert m. induction Hr as [|pr rest [H0 H1] Hrest IH];
    intros m Hm.
  - exists m. by split.
  - destruct (swap_pair_spec B J H W m pr H0 H1 Hm) as (m1 & Hsw & Hl1 & Hm1).
    destruct (IH m1) as (m' & Hrec & Hl' & Hm'); [lia|].
    exists m'. cbn [swap_pairs]. rewrite Hsw. cbn [bind].
    split; [done|]. split; [lia|].
    intros n j y x Hn Hj Hy Hx. rewrite Hm' by done.
    rewrite Hm1; [done|done| |done|done].
    by apply (channel_source_range J).
Qed.

(** The channel exchanged with [j] by disjoint pairs. *)
Lemma channel_source_unpaired pairs j :
  unpaired pairs j -> channel_source pairs j = j.
Proof.
  induction 1 as [|pr rest [H0 H1] _ IH]; simpl; [done|].
  rewrite IH. unfold swap_channel. repeat case_decide; congruence.
Qed.

Lemma channel_source_paired pairs a b :
  disjoint_pairs pairs -> In (a, b) pairs ->
  channel_source pairs a = b /\ channel_source pairs b = a.
Proof.
  induction pairs as [|pr rest IH]; intros Hd Hin; [done|].
  destruct Hd as [Hpr Hd]. simpl. destruct Hin as [->|Hin].
  - assert (Ha : unpaired rest a).
    { eapply Forall_impl; [exact Hpr|]. simpl. intros q Hq. tauto. }
    assert (Hb : unpaired rest b).
    { eapply Forall_impl; [exact Hpr|]. simpl. intros q Hq. tauto. }
    rewrite (channel_source_unpaired _ _ Ha), (channel_source_unpaired _ _ Hb).
    unfold swap_channel. simpl. repeat case_decide; split; congruence.
  - destruct (IH Hd Hin) as [Ea Eb]. rewrite Ea, Eb.
    rewrite Forall_forall in Hpr. specialize (Hpr (a, b)).
    rewrite list_elem_of_In in Hpr. specialize (Hpr Hin). simpl in Hpr.
    destruct Hpr as (P1 & P2 & P3 & P4).
    unfold swap_channel. repeat case_decide; split; congruence.
Qed.

Lemma pairs_in_range_In J pairs a b :
  pairs_in_range J pairs -> In (a, b) pairs -> a < J /\ b < J.
Proof.
  unfold pairs_in_range. rewrite Forall_forall. intros Hr Hin.
  apply (Hr (a, b)). by apply list_elem_of_In.
Qed.

(** ** [flip_back] *)

Lemma array4_numel a B J H W :
  array4 a B J H W -> length (np.data a) = B * J * (H * W).
Proof.
  intros (Hs & Hwf). unfold np.wf in Hwf. rewrite Hs in Hwf.
  simpl in Hwf. lia.
Qed.

Lemma item4_nth a B J H W n j y x :
  np.shape a = [B; J; H; W] ->
  np.item4 a n j y x = nth (flat4 J H W n j y x) (np.data a) 0%Q.
Proof. intros Hs. unfold np.item4. by rewrite Hs. Qed.

Lemma nth_of_lookup (m : list Q) (k : nat) (v : Q) :
  m !! k = Some v -> nth k m 0%Q = v.
Proof. apply nth_lookup_Some. Qed.

Lemma lookup_of_nth (m : list Q) (k : nat) :
  k < length m -> m !! k = Some (nth k m 0%Q).
Proof.
  intros Hk. destruct (nth_lookup_or_length m k 0%Q); [done|lia].
Qed.

Lemma flip_back_spec a B J H W pairs :
  array4 a B J H W -> pairs_in_range J pairs ->
  exists m',
    flip_back a pairs = Ok (flipped_view B J H W, m') /\
    length m' = length (np.data a) /\
    (forall n j y x, n < B -> j < J -> y < H -> x < W ->
       nth (flat4 J H W n j y x) m' 0%Q
       = np.item4 a n (channel_source pairs j) y x) /\
    (forall n j y x, n < B -> j < J -> y < H -> x < W ->
       view_item4 (flipped_view B J H W, m') n j y x
       = np.item4 a n (channel_source pairs j) y (W - 1 - x)).
Proof.
  intros Ha Hr. pose proof (array4_numel _ _ _ _ _ Ha) as Hlen.
  destruct Ha as (Hs & Hwf).
  destruct (swap_pairs_spec B J H W pairs (np.data a) Hr Hlen)
    as (m' & Hsw & Hl' & Hm').
  exists m'. unfold flip_back, np.ndim. rewrite Hs. cbn [length Nat.eqb negb].
  rewrite (flip_base_view a B J H W Hs), Hsw. cbn [bind].
  split; [done|]. split; [done|].
  assert (Hbuf : forall n j y x, n < B -> j < J -> y < H -> x < W ->
            nth (flat4 J H W n j y x) m' 0%Q
            = np.item4 a n (channel_source pairs j) y x).
  { intros n j y x Hn Hj Hy Hx. apply nth_of_lookup.
    rewrite Hm' by done. rewrite (item4_nth a B J H W) by done.
    apply lookup_of_nth. rewrite Hlen. apply flat4_bound; try done.
    by apply channel_source_range. }
  split; [exact Hbuf|].
  intros n j y x Hn Hj Hy Hx. unfold view_item4. cbn [fst snd].
  rewrite cell_flipped_view by done. apply Hbuf; lia.
Qed.

Lemma flip_back_flipped_back a B J H W pairs :
  array4 a B J H W -> disjoint_pairs pairs -> pairs_in_range J pairs ->
  exists out, flip_back a pairs = Ok out /\ flipped_back a pairs B J H W out.
Proof.
  intros Ha Hd Hr.
  destruct (flip_back_spec a B J H W pairs Ha Hr) as (m' & Hfb & _ & _ & Hv).
  eexists. split; [exact Hfb|]. split; [done|]. split.
  - intros c d n y x Hin Hn Hy Hx.
    destruct (channel_source_paired pairs c d Hd Hin) as [Hc Hdd].
    destruct (pairs_in_range_In J pairs c d Hr Hin) as [Hcj Hdj].
    rewrite !Hv by done. by rewrite Hc, Hdd.
  - intros j n y x Hu Hj Hn Hy Hx.
    rewrite Hv by done. by rewrite channel_source_unpaired.
Qed.

(** ** Copies, shifts and averages *)

Lemma flat_index4 (B J H W n j y x : nat) :
  flat_index [B; J; H; W] [n; j; y; x] = flat4 J H W n j y x.
Proof. unfold flat4. simpl. lia. Qed.

Lemma item4_to_tensor_copy (v : np.view) (m : list Q) B J H W n j y x :
  np.vshape v = [B; J; H; W] -> n < B -> j < J -> y < H -> x < W ->
  np.item4 (to_tensor_copy (v, m)) n j y x = view_item4 (v, m) n j y x.
Proof.
  intros Hs Hn Hj Hy Hx. unfold to_tensor_copy. cbn [fst snd].
  rewrite (item4_nth _ B J H W) by done. cbn [np.data].
  apply nth_of_lookup. unfold np.copy. rewrite Hs.
  rewrite map_fmap, list_lookup_fmap, <- (flat_index4 B J H W).
  rewrite indices_lookup by (by repeat constructor). done.
Qed.

Lemma assign_length (m : list Q) (v : np.view) (vals : list Q) :
  length (np.assign m v vals) = length m.
Proof.
  unfold np.assign. generalize (zip (np.indices (np.vshape v)) vals).
  intros l. revert m. induction l as [|w l IH]; intros m; simpl; [done|].
  by rewrite IH, length_insert.
Qed.

(** The slice [t[:, :, :, 1:]] is empty when the width is at most 1 or
    another axis is empty: the assignment is refused. *)
Lemma shift_empty t B J H W :
  array4 t B J H W -> B * J * H * (W - 1) = 0 -> shift t = Raise ValueError.
Proof.
  intros (Hs & _) Hz. unfold shift.
  unfold np.base_view, np.slice_axis3, np.dim. rewrite Hs.
  cbn [np.vshape np.vstrides np.c_strides nth foldr].
  destruct (Nat.eqb_spec (B * (J * (H * ((W - 1) * 1)))) 0) as [_|Hne];
    [done|]. exfalso. apply Hne. nia.
Qed.

Lemma shift_spec t B J H W :
  array4 t B J H W -> B * J * H * (W - 1) <> 0 ->
  exists t',
    shift t = Ok t' /\ array4 t' B J H W /\
    forall n j y x, n < B -> j < J -> y < H -> x < W ->
      np.item4 t' n j y x
      = np.item4 t n j y (if decide (1 <= x) then x - 1 else x).
Proof.
  intros Ha Hnz. pose proof (array4_numel _ _ _ _ _ Ha) as Hlen.
  destruct Ha as (Hs & Hwf). unfold shift.
  unfold np.base_view, np.slice_axis3, np.dim. rewrite Hs.
  cbn [np.vshape np.vstrides np.c_strides nth foldr].
  destruct (Nat.eqb_spec (B * (J * (H * ((W - 1) * 1)))) 0) as [Hz|_];
    [exfalso; apply Hnz; nia|].
  eexists. split; [reflexivity|].
  split.
  { split; [reflexivity|]. unfold np.wf. cbn [np.data np.shape foldr].
    rewrite assign_length, Hlen. lia. }
  rewrite assign_copy by done. cbn [np.vshape].
  set (dst := np.View _ _ _). set (src := np.View [B; J; H; W - 1] _ _).
  assert (Hdst : forall n j y x, x < W - 1 ->
            np.cell dst [n; j; y; x] = flat4 J H W n j y (x + 1)).
  { intros n j y x Hx. unfold np.cell, np.addr, dst, flat4. simpl.
    destruct W as [|W']; [lia|]. nia. }
  assert (Hsrc : forall n j y x,
            np.cell src [n; j; y; x] = flat4 J H W n j y x).
  { intros n j y x. unfold np.cell, np.addr, src, flat4. simpl. nia. }
  match goal with |- context [foldl ?f (np.data t) ?l] =>
    pose proof (foldl_store_spec
      (fun ix => np.cell dst ix)
      (fun ix => nth (np.cell src ix) (np.data t) 0%Q)
      l (np.data t)) as Hspec end.
  destruct Hspec as (Hl & Hin & Hout).
  { intros ix ix' (n & j & y & x & -> & Hn & Hj & Hy & Hx)%in_indices4
      (n' & j' & y' & x' & -> & Hn' & Hj' & Hy' & Hx')%in_indices4 Heq.
    rewrite !Hdst in Heq by done.
    apply flat4_inj in Heq as (-> & -> & -> & Hxx); try lia.
    by replace x' with x by lia. }
  intros n j y x Hn Hj Hy Hx.
  rewrite !(item4_nth _ B J H W) by done. cbn [np.data].
  apply nth_of_lookup. destruct (decide (1 <= x)) as [Hge|Hlt].
  - specialize (Hin [n; j; y; x - 1]).
    rewrite Hdst, Hsrc in Hin by lia.
    replace (x - 1 + 1) with x in Hin by lia. apply Hin.
    + apply in_indices4. exists n, j, y, (x - 1). repeat split; lia.
    + rewrite Hlen. by apply flat4_bound.
  - rewrite Hout.
    + apply lookup_of_nth. rewrite Hlen. by apply flat4_bound.
    + intros ix (n' & j' & y' & x' & -> & Hn' & Hj' & Hy' & Hx')%in_indices4 Heq.
      rewrite Hdst in Heq by done.
      apply flat4_inj in Heq as (_ & _ & _ & Hxx); lia.
Qed.

Lemma average_spec h f B J H W :
  array4 h B J H W -> array4 f B J H W ->
  exists final,
    average h f = Ok final /\ np.shape final = [B; J; H; W] /\
    forall n j y x, n < B -> j < J -> y < H -> x < W ->
      np.item4 final n j y x
      = ((np.item4 h n j y x + np.item4 f n j y x) * (1 # 2))%Q.
Proof.
  intros Hh Hf. pose proof (array4_numel _ _ _ _ _ Hh) as Hlh.
  pose proof (array4_numel _ _ _ _ _ Hf) as Hlf.
  destruct Hh as (Hsh & _). destruct Hf as (Hsf & _).
  unfold average. rewrite decide_True by congruence.
  eexists. split; [reflexivity|]. split; [done|].
  intros n j y x Hn Hj Hy Hx.
  rewrite !(item4_nth _ B J H W) by done. cbn [np.data].
  pose proof (flat4_bound B J H W n j y x Hn Hj Hy Hx) as Hb.
  apply nth_of_lookup. rewrite lookup_zip_with.
  rewrite (lookup_of_nth (np.data h)), (lookup_of_nth (np.data f)) by lia.
  done.
Qed.

Lemma shiftable_nonzero B J H W :
  shiftable B J H W -> B * J * H * (W - 1) <> 0.
Proof. intros (HB & HJ & HH & HW). nia. Qed.

Lemma array4_to_tensor_copy (v : np.view) (m : list Q) B J H W :
  np.vshape v = [B; J; H; W] -> array4 (to_tensor_copy (v, m)) B J H W.
Proof.
  intros Hs. split; [done|]. unfold np.wf, to_tensor_copy, np.copy.
  cbn [np.data np.shape fst snd]. by rewrite length_map, indices_length.
Qed.

(** In inference mode [_forward] hands the result of the flip test to the
    post-processor. *)
Lemma forward_inference net loss_t (loss : np.ndarray -> inputs -> loss_t) tp
    (self : config) (inp : inputs) (c s : list (Q * Q)) (final : np.ndarray) :
  training self = false -> deploy self = false ->
  center inp = Some c -> scale inp = Some s ->
  flip_test net self inp (net (image inp)) = Ok final ->
  _forward net loss_t loss tp self inp
  = (outputs <- __call__ tp final c s ;; Ok (Keypoints loss_t outputs)).
Proof.
  intros Ht Hd Hc Hs Hf. unfold _forward. by rewrite Ht, Hd, Hf, Hc, Hs.
Qed.

Lemma flip_test_spec net (self : config) (inp : inputs) B J H W :
  flip self = true ->
  array4 (net (image inp)) B J H W ->
  array4 (net (flip3 (image inp))) B J H W ->
  disjoint_pairs (flip_perm self) ->
  pairs_in_range J (flip_perm self) ->
  (shift_heatmap self = true -> shiftable B J H W) ->
  exists out final,
    flip_back (net (flip3 (image inp))) (flip_perm self) = Ok out /\
    flipped_back (net (flip3 (image inp))) (flip_perm self) B J H W out /\
    flip_test net self inp (net (image inp)) = Ok final /\
    flip_averaged (shift_heatmap self) (net (image inp)) out final B J H W.
Proof.
  intros Hflip Hh Hf Hd Hr Hshift.
  destruct (flip_back_flipped_back _ B J H W _ Hf Hd Hr)
    as (out & Hfb & Hfbk).
  pose proof Hfbk as (Hvs & _).
  destruct out as [v m']. cbn [fst] in Hvs.
  set (fb := to_tensor_copy (v, m')).
  assert (Hfb4 : array4 fb B J H W) by (by apply array4_to_tensor_copy).
  assert (Hcopy : forall n j y x, n < B -> j < J -> y < H -> x < W ->
            np.item4 fb n j y x = view_item4 (v, m') n j y x).
  { intros n j y x Hn Hj Hy Hx. by apply (item4_to_tensor_copy v m' B J H W). }
  assert (Hfc : exists fc,
            (if shift_heatmap self then shift fb else Ok fb) = Ok fc /\
            array4 fc B J H W /\
            forall n j y x, n < B -> j < J -> y < H -> x < W ->
              np.item4 fc n j y x
              = view_item4 (v, m') n j y
                  (corrected_column (shift_heatmap self) x)).
  { unfold corrected_column. destruct (shift_heatmap self).
    - destruct (shift_spec fb B J H W Hfb4) as (fc & Hsh & Hfc4 & Hitems);
        [by apply shiftable_nonzero, Hshift|].
      exists fc. split; [done|]. split; [done|].
      intros n j y x Hn Hj Hy Hx. rewrite Hitems by done.
      apply Hcopy; try done. destruct (decide (1 <= x)); lia.
    - exists fb. split; [done|]. split; [done|]. exact Hcopy. }
  destruct Hfc as (fc & Hfc & Hfc4 & Hitems).
  destruct (average_spec (net (image inp)) fc B J H W Hh Hfc4)
    as (final & Havg & Hsf & Hmean).
  exists (v, m'), final. split; [done|]. split; [done|].
  split.
  { unfold flip_test. rewrite Hflip, Hfb. cbn [bind]. fold fb.
    rewrite Hfc. cbn [bind]. exact Havg. }
  split; [done|].
  intros n j y x Hn Hj Hy Hx. rewrite Hmean by done.
  by rewrite Hitems.
Qed.

(** C6, as stated, fails twice.  The pair (0, 3) is disjoint from every
    other pair, but the 1 x 3 x 1 x 2 array [three_channels] has no
    channel 3 and [flip_back] raises IndexError.  With flip and
    shift_heatmap enabled and network outputs of width 1, the shift of
    lines 86-87 raises ValueError, so [_forward] hands no heatmap to the
    post-processor. *)
Lemma C6_pair_out_of_range_and_width_one :
  (array4 three_channels 1 3 1 2 /\ disjoint_pairs [(0, 3)] /\
   flip_back three_channels [(0, 3)] = Raise IndexError) /\
  (array4 narrow_channels 1 3 1 1 /\
   disjoint_pairs (flip_perm flip_config) /\
   pairs_in_range 3 (flip_perm flip_config) /\
   flip flip_config = true /\ shift_heatmap flip_config = true /\
   flip_test (fun t => t) flip_config narrow_inputs narrow_channels
   = Raise ValueError /\
   _forward (fun t => t) unit (fun _ _ => tt) transform_preds_spec
            flip_config narrow_inputs = Raise ValueError).
Proof.
  split.
  - split; [by split|]. split; [|reflexivity].
    simpl. split; [constructor|done].
  - split; [by split|]. split; [simpl; split; [constructor|done]|].
    split; [repeat constructor|]. split; [done|]. split; [done|].
    split; reflexivity.
Qed.

(** C6 (amended): for pairwise-disjoint pairs that name channels of the
    array, [flip_back] returns the array with the width axis reversed and
    the channels of every pair exchanged,
    output[n, a, y, x] = input[n, b, y, W-1-x] and
    output[n, b, y, x] = input[n, a, y, W-1-x] for a pair (a, b), and
    output[n, j, y, x] = input[n, j, y, W-1-x] for an unpaired channel j;
    with flip enabled, and shift_heatmap only on network outputs of width
    at least 2 without empty axis, the heatmap that [_forward] hands to
    the post-processor is the element-wise (h + flip_corrected) * 0.5,
    where flip_corrected is the flipped-back output of the network on the
    flipped image and with shift_heatmap has every column x >= 1 replaced
    by column x - 1. *)
Theorem C6_flip_back_and_flip_average
    (net : np.ndarray -> np.ndarray) (loss_t : Type)
    (loss : np.ndarray -> inputs -> loss_t)
    (tp : list (Q * Q) -> Q * Q -> Q * Q -> nat * nat -> list (Q * Q))
    (self : config) (inp : inputs) (c s : list (Q * Q))
    (a : np.ndarray) (pairs : list (nat * nat))
    (B J H W B' J' H' W' : nat) :
  array4 a B J H W -> disjoint_pairs pairs -> pairs_in_range J pairs ->
  training self = false -> deploy self = false -> flip self = true ->
  center inp = Some c -> scale inp = Some s ->
  array4 (net (image inp)) B' J' H' W' ->
  array4 (net (flip3 (image inp))) B' J' H' W' ->
  disjoint_pairs (flip_perm self) ->
  pairs_in_range J' (flip_perm self) ->
  (shift_heatmap self = true -> shiftable B' J' H' W') ->
  (exists out, flip_back a pairs = Ok out /\
               flipped_back a pairs B J H W out) /\
  (exists out final,
     flip_back (net (flip3 (image inp))) (flip_perm self) = Ok out /\
     flipped_back (net (flip3 (image inp))) (flip_perm self)
                  B' J' H' W' out /\
     flip_averaged (shift_heatmap self) (net (image inp)) out final
                   B' J' H' W' /\
     _forward net loss_t loss tp self inp
     = (outputs <- __call__ tp final c s ;; Ok (Keypoints loss_t outputs))).
Proof.
  intros Ha Hd Hr Ht Hdep Hflip Hc Hs Hh Hf Hd' Hr' Hshift.
  split; [by apply flip_back_flipped_back|].
  destruct (flip_test_spec net self inp B' J' H' W' Hflip Hh Hf Hd' Hr' Hshift)
    as (out & final & Hfb & Hfbk & Hft & Havg).
  exists out, final. split; [done|]. split; [done|]. split; [done|].
  by apply forward_inference.
Qed.

(** C10: the array returned by [flip_back] is the reversed view of the
    buffer of its argument, and the exchanges are stored through it:
    after the call the caller's array holds, in channel a of a pair
    (a, b), what channel b held before, and conversely, so wherever the
    two channels differed its contents have changed. *)
Theorem C10_flip_back_writes_through (arr : np.ndarray)
    (pairs : list (nat * nat)) (B J H W a b n y x : nat) :
  array4 arr B J H W -> disjoint_pairs pairs -> pairs_in_range J pairs ->
  In (a, b) pairs -> n < B -> y < H -> x < W ->
  np.item4 arr n a y x <> np.item4 arr n b y x ->
  exists m',
    flip_back arr pairs = Ok (np.flip_axis3 (np.base_view arr), m') /\
    (forall n j y x, n < B -> j < J -> y < H -> x < W ->
       view_item4 (np.flip_axis3 (np.base_view arr), m') n j y x
       = np.item4 (with_buffer arr m') n j y (W - 1 - x)) /\
    np.item4 (with_buffer arr m') n a y x = np.item4 arr n b y x /\
    np.item4 (with_buffer arr m') n b y x = np.item4 arr n a y x /\
    m' <> np.data arr.
Proof.
  intros Ha Hd Hr Hin Hn Hy Hx Hne.
  destruct (flip_back_spec arr B J H W pairs Ha Hr)
    as (m' & Hfb & _ & Hbuf & _).
  pose proof Ha as (Hs & _).
  rewrite (flip_base_view arr B J H W Hs). exists m'. split; [done|].
  destruct (channel_source_paired pairs a b Hd Hin) as [Hca Hcb].
  destruct (pairs_in_range_In J pairs a b Hr Hin) as [Haj Hbj].
  assert (Ea : np.item4 (with_buffer arr m') n a y x = np.item4 arr n b y x).
  { rewrite (item4_nth (with_buffer arr m') B J H W) by done.
    cbn [np.data with_buffer]. by rewrite Hbuf, Hca. }
  assert (Eb : np.item4 (with_buffer arr m') n b y x = np.item4 arr n a y x).
  { rewrite (item4_nth (with_buffer arr m') B J H W) by done.
    cbn [np.data with_buffer]. by rewrite Hbuf, Hcb. }
  split.
  { intros n' j' y' x' Hn' Hj' Hy' Hx'. unfold view_item4. cbn [fst snd].
    rewrite cell_flipped_view by done.
    by rewrite (item4_nth (with_buffer arr m') B J H W). }
  split; [done|]. split; [done|].
  intros ->. apply Hne. rewrite <- Ea.
  by rewrite !(item4_nth _ B J H W).
Qed.

Lemma array4_three_channels : array4 three_channels 1 3 1 2.
Proof. by split. Qed.

Lemma pairs_01_disjoint : disjoint_pairs [(0, 1)].
Proof. simpl. split; [constructor|done]. Qed.

Lemma pairs_01_in_range : pairs_in_range 3 [(0, 1)].
Proof. repeat constructor. Qed.

Lemma shiftable_three_channels : shiftable 1 3 1 2.
Proof. unfold shiftable. lia. Qed.

Lemma C6_flip_back_and_flip_average_witness :
  array4 three_channels 1 3 1 2 /\
  disjoint_pairs [(0, 1)] /\ pairs_in_range 3 [(0, 1)] /\
  array4 (flip3 (image flip_inputs)) 1 3 1 2 /\
  shiftable 1 3 1 2 /\
  (exists out, flip_back three_channels [(0, 1)] = Ok out /\
               flipped_back three_channels [(0, 1)] 1 3 1 2 out) /\
  (exists out final,
     flip_back (flip3 (image flip_inputs)) (flip_perm flip_config) = Ok out /\
     flipped_back (flip3 (image flip_inputs)) (flip_perm flip_config)
                  1 3 1 2 out /\
     flip_averaged (shift_heatmap flip_config) (image flip_inputs) out final
                   1 3 1 2 /\
     _forward (fun t => t) unit (fun _ _ => tt) transform_preds_spec
              flip_config flip_inputs
     = (outputs <- __call__ transform_preds_spec final [(0, 0)%Q] [(1, 1)%Q] ;;
        Ok (Keypoints unit outputs))).
Proof.
  assert (Hf : array4 (flip3 (image flip_inputs)) 1 3 1 2) by (by split).
  split; [exact array4_three_channels|].
  split; [exact pairs_01_disjoint|]. split; [exact pairs_01_in_range|].
  split; [exact Hf|]. split; [exact shiftable_three_channels|].
  exact (C6_flip_back_and_flip_average (fun t => t) unit (fun _ _ => tt)
           transform_preds_spec flip_config flip_inputs
           [(0, 0)%Q] [(1, 1)%Q] three_channels [(0, 1)] 1 3 1 2 1 3 1 2
           array4_three_channels pairs_01_disjoint pairs_01_in_range
           eq_refl eq_refl eq_refl eq_refl eq_refl
           array4_three_channels Hf pairs_01_disjoint pairs_01_in_range
           (fun _ => shiftable_three_channels)).
Defined.

Lemma C10_flip_back_writes_through_witness :
  array4 three_channels 1 3 1 2 /\
  np.item4 three_channels 0 0 0 0 <> np.item4 three_channels 0 1 0 0 /\
  exists m',
    flip_back three_channels [(0, 1)]
    = Ok (np.flip_axis3 (np.base_view three_channels), m') /\
    (forall n j y x, n < 1 -> j < 3 -> y < 1 -> x < 2 ->
       view_item4 (np.flip_axis3 (np.base_view three_channels), m') n j y x
       = np.item4 (with_buffer three_channels m') n j y (2 - 1 - x)) /\
    np.item4 (with_buffer three_channels m') 0 0 0 0
    = np.item4 three_channels 0 1 0 0 /\
    np.item4 (with_buffer three_channels m') 0 1 0 0
    = np.item4 three_channels 0 0 0 0 /\
    m' <> np.data three_channels.
Proof.
  assert (Hne : np.item4 three_channels 0 0 0 0
                <> np.item4 three_channels 0 1 0 0) by (vm_compute; congruence).
  split; [exact array4_three_channels|]. split; [exact Hne|].
  apply (C10_flip_back_writes_through three_channels [(0, 1)] 1 3 1 2 0 1 0 0 0
           array4_three_channels pairs_01_disjoint pairs_01_in_range);
    [by left|lia|lia|lia|exact Hne].
Defined.

(** The buffer of [three_channels] after [flip_back] with the pair (0, 1):
    channels 0 and 1 have changed places. *)
Example flip_back_three_channels :
  flip_back three_channels [(0, 1)]
  = Ok (np.flip_axis3 (np.base_view three_channels),
        [3; 4; 1; 2; 5; 6]%Q).
Proof. reflexivity. Qed.

(** * Further properties of [HRNetPostProcess] *)

Lemma heatmap4_array4 a B J H W : heatmap4 a B J H W -> array4 a B J H W.
Proof. intros (Hs & Hwf & _). by split. Qed.

Lemma array4_heatmap4 a B J H W :
  array4 a B J H W -> B * J * (H * W) <> 0 -> heatmap4 a B J H W.
Proof. intros (Hs & Hwf) Hne. repeat split; try done; nia. Qed.

Lemma tabulate2_table_shape {A} B J (f : nat -> nat -> A) :
  table_shape B J (tabulate2 B J f).
Proof.
  split; [apply tabulate2_length|]. intros n row. apply tabulate2_row_length.
Qed.

(** X1: on a 4-dimensional array [get_max_preds] returns exactly when no
    axis is empty; with an empty axis it raises ValueError, otherwise
    coordinates and confidences both have batch_size rows of num_joints
    entries. *)
Theorem get_max_preds_returns_iff_nonempty (a : np.ndarray) (B J H W : nat) :
  array4 a B J H W ->
  (B * J * (H * W) = 0 ->
   get_max_preds (PyNdarray a) = Raise ValueError) /\
  (B * J * (H * W) <> 0 ->
   exists coords maxvals,
     get_max_preds (PyNdarray a) = Ok (coords, maxvals) /\
     table_shape B J coords /\ table_shape B J maxvals).
Proof.
  intros Ha. split.
  - intros Hz. destruct Ha as (Hs & Hwf).
    by apply (get_max_preds_empty_axis a B J H W).
  - intros Hne. pose proof (array4_heatmap4 a B J H W Ha Hne) as Hh.
    eexists _, _. split; [by apply (get_max_preds_table a B J H W)|].
    split; apply tabulate2_table_shape.
Qed.

Lemma get_max_preds_returns_iff_nonempty_witness :
  array4 empty_heatmap 1 1 0 0 /\ array4 centre3 1 1 3 3 /\
  get_max_preds (PyNdarray empty_heatmap) = Raise ValueError /\
  exists coords maxvals,
    get_max_preds (PyNdarray centre3) = Ok (coords, maxvals) /\
    table_shape 1 1 coords /\ table_shape 1 1 maxvals.
Proof.
  assert (He : array4 empty_heatmap 1 1 0 0) by (by split).
  assert (Hc : array4 centre3 1 1 3 3) by (by split).
  split; [exact He|]. split; [exact Hc|]. split.
  - apply (get_max_preds_returns_iff_nonempty empty_heatmap 1 1 0 0 He).
    reflexivity.
  - apply (get_max_preds_returns_iff_nonempty centre3 1 1 3 3 Hc). simpl. lia.
Defined.

(** X2: the refinement moves a coordinate by at most a quarter pixel on
    each axis, leaves it as it is when the guard of line 181 fails, and
    the confidences are those of [get_max_preds]. *)
Theorem refinement_moves_at_most_a_quarter (a : np.ndarray) (B J H W : nat) :
  heatmap4 a B J H W ->
  exists coords coords' maxvals,
    get_max_preds (PyNdarray a) = Ok (coords, maxvals) /\
    refined_coords a = Ok (coords', maxvals) /\
    table_shape B J coords' /\
    forall n p c c',
      at2 coords n p = Some c -> at2 coords' n p = Some c' ->
      (Qabs (fst c' - fst c) <= 1 # 4)%Q /\
      (Qabs (snd c' - snd c) <= 1 # 4)%Q /\
      (~ refinement_applies H W (rounded (fst c)) (rounded (snd c)) ->
       c' = c).
Proof.
  intros Ha. eexists _, _, _.
  split; [by apply (get_max_preds_table a B J H W)|].
  split; [by apply (refined_coords_table a B J H W)|].
  split; [apply tabulate2_table_shape|].
  intros n p c c' Hc Hc'.
  apply at2_tabulate2_inv in Hc as (Hn & Hp & ->).
  apply at2_tabulate2_inv in Hc' as (_ & _ & ->).
  destruct (refine_total_cases a H W n p (masked_peak W (slice a n p)))
    as [[Happ ->]|[Hno ->]].
  - cbn [fst snd].
    set (dx := (np.item4 a n p _ _ - np.item4 a n p _ _)%Q).
    set (dy := (np.item4 a n p _ _ - np.item4 a n p _ _)%Q).
    pose proof (f32_add_quarter_near
                  (fst (masked_peak W (slice a n p))) _
                  (quarter_sign_range dx)) as Hsx.
    pose proof (f32_add_quarter_near
                  (snd (masked_peak W (slice a n p))) _
                  (quarter_sign_range dy)) as Hsy.
    split; [apply Qabs_Qle_condition; lra|].
    split; [apply Qabs_Qle_condition; lra|]. done.
  - split; [apply Qabs_Qle_condition; lra|].
    split; [apply Qabs_Qle_condition; lra|]. done.
Qed.

Lemma refinement_moves_at_most_a_quarter_witness :
  heatmap4 centre5 1 1 5 5 /\
  exists coords coords' maxvals,
    get_max_preds (PyNdarray centre5) = Ok (coords, maxvals) /\
    refined_coords centre5 = Ok (coords', maxvals) /\
    table_shape 1 1 coords' /\
    forall n p c c',
      at2 coords n p = Some c -> at2 coords' n p = Some c' ->
      (Qabs (fst c' - fst c) <= 1 # 4)%Q /\
      (Qabs (snd c' - snd c) <= 1 # 4)%Q /\
      (~ refinement_applies 5 5 (rounded (fst c)) (rounded (snd c)) ->
       c' = c).
Proof.
  split; [exact heatmap4_centre5|].
  exact (refinement_moves_at_most_a_quarter centre5 1 1 5 5 heatmap4_centre5).
Defined.

(** X3: a peak on the one-pixel border of the heatmap keeps its integer
    location through the refinement, and so does the coordinate (0, 0) of
    a slice without positive score ("no detection"). *)
Theorem border_and_undetected_peaks_stay (a : np.ndarray)
    (B J H W n p : nat) :
  heatmap4 a B J H W -> n < B -> p < J ->
  exists coords coords' maxvals c,
    get_max_preds (PyNdarray a) = Ok (coords, maxvals) /\
    refined_coords a = Ok (coords', maxvals) /\
    at2 coords n p = Some c /\
    (on_border H W (rounded (fst c)) (rounded (snd c)) ->
     at2 coords' n p = Some c) /\
    ((forall y x, y < H -> x < W -> (np.item4 a n p y x <= 0)%Q) ->
     at2 coords' n p = Some c /\ coord_eq c (0, 0)%Q).
Proof.
  intros Ha Hn Hp. eexists _, _, _, _.
  split; [by apply (get_max_preds_table a B J H W)|].
  split; [by apply (refined_coords_table a B J H W)|].
  rewrite !at2_tabulate2 by done. split; [done|].
  assert (Hstay : on_border H W
                    (rounded (fst (masked_peak W (slice a n p))))
                    (rounded (snd (masked_peak W (slice a n p)))) ->
          refine_total a H W n p (masked_peak W (slice a n p))
          = masked_peak W (slice a n p)).
  { intros Hb.
    destruct (refine_total_cases a H W n p (masked_peak W (slice a n p)))
      as [[Happ _]|[_ ->]]; [|done].
    exfalso. unfold on_border, refinement_applies in *. lia. }
  split; [intros Hb; by rewrite Hstay|].
  intros Hall.
  assert (Hz : coord_eq (masked_peak W (slice a n p)) (0, 0)%Q).
  { apply masked_peak_nonpositive. by apply (amax_nonpositive a B J H W). }
  split; [|done]. rewrite Hstay; [done|].
  destruct Hz as [Hx _]. cbn [fst] in Hx. left.
  apply (rounded_pixel _ 0). exact Hx.
Qed.

Lemma border_and_undetected_peaks_stay_witness :
  heatmap4 negative_pair 1 1 1 2 /\
  exists coords coords' maxvals c,
    get_max_preds (PyNdarray negative_pair) = Ok (coords, maxvals) /\
    refined_coords negative_pair = Ok (coords', maxvals) /\
    at2 coords 0 0 = Some c /\
    (on_border 1 2 (rounded (fst c)) (rounded (snd c)) ->
     at2 coords' 0 0 = Some c) /\
    ((forall y x, y < 1 -> x < 2 ->
        (np.item4 negative_pair 0 0 y x <= 0)%Q) ->
     at2 coords' 0 0 = Some c /\ coord_eq c (0, 0)%Q).
Proof.
  split; [exact heatmap4_negative_pair|].
  apply (border_and_undetected_peaks_stay negative_pair 1 1 1 2 0 0
           heatmap4_negative_pair); lia.
Defined.

(** ** Slices are decoded independently *)

Lemma slice_item4 a B J H W n p i :
  heatmap4 a B J H W -> n < B -> p < J -> i < H * W ->
  slice a n p !! i = Some (np.item4 a n p (i / W) (i mod W)).
Proof.
  intros Ha Hn Hp Hi. pose proof Ha as (_ & _ & _ & _ & _ & HW).
  assert (Hy : i / W < H) by (apply Nat.Div0.div_lt_upper_bound; lia).
  assert (Hx : i mod W < W) by (apply Nat.mod_upper_bound; lia).
  rewrite <- (slice_lookup a B J H W n p _ _ Ha Hn Hp Hy Hx).
  f_equal. rewrite (Nat.div_mod_eq i W) at 1. lia.
Qed.

Lemma slice_ext a a' B J B' J' H W n p n' p' :
  heatmap4 a B J H W -> heatmap4 a' B' J' H W ->
  n < B -> p < J -> n' < B' -> p' < J' ->
  (forall y x, y < H -> x < W ->
     np.item4 a n p y x = np.item4 a' n' p' y x) ->
  slice a n p = slice a' n' p'.
Proof.
  intros Ha Ha' Hn Hp Hn' Hp' Heq. apply list_eq. intros i.
  pose proof Ha as (_ & _ & _ & _ & _ & HW).
  destruct (decide (i < H * W)) as [Hi|Hi].
  - rewrite (slice_item4 a B J H W), (slice_item4 a' B' J' H W) by done.
    f_equal. apply Heq.
    + apply Nat.Div0.div_lt_upper_bound; lia.
    + apply Nat.mod_upper_bound; lia.
  - rewrite !lookup_ge_None_2; [done| |].
    + rewrite (slice_length a' B' J' H W) by done. lia.
    + rewrite (slice_length a B J H W) by done. lia.
Qed.

Lemma refine_total_ext a a' H W n p n' p' c :
  (forall y x, y < H -> x < W ->
     np.item4 a n p y x = np.item4 a' n' p' y x) ->
  refine_total a H W n p c = refine_total a' H W n' p' c.
Proof.
  intros Heq.
  destruct (refine_total_cases a H W n p c) as [[Happ ->]|[Hno ->]];
    destruct (refine_total_cases a' H W n' p' c) as [[Happ' ->]|[Hno' ->]];
    try done.
  destruct Happ as [Hpx Hpy]. rewrite !Heq by lia. done.
Qed.

(** X4: every (batch item, joint) slice is decoded on its own: two
    heatmaps of the same height and width that agree on a slice give that
    slice the same refined coordinate and the same confidence, whatever
    else the batches contain. *)
Theorem slices_decoded_independently (a a' : np.ndarray)
    (B J B' J' H W n p n' p' : nat) :
  heatmap4 a B J H W -> heatmap4 a' B' J' H W ->
  n < B -> p < J -> n' < B' -> p' < J' ->
  (forall y x, y < H -> x < W ->
     np.item4 a n p y x = np.item4 a' n' p' y x) ->
  exists coords maxvals coords' maxvals' c m,
    refined_coords a = Ok (coords, maxvals) /\
    refined_coords a' = Ok (coords', maxvals') /\
    at2 coords n p = Some c /\ at2 coords' n' p' = Some c /\
    at2 maxvals n p = Some m /\ at2 maxvals' n' p' = Some m.
Proof.
  intros Ha Ha' Hn Hp Hn' Hp' Heq.
  pose proof (slice_ext a a' B J B' J' H W n p n' p'
                Ha Ha' Hn Hp Hn' Hp' Heq) as Hsl.
  eexists _, _, _, _, _, _.
  split; [by apply (refined_coords_table a B J H W)|].
  split; [by apply (refined_coords_table a' B' J' H W)|].
  rewrite !at2_tabulate2 by done.
  split; [done|]. split.
  - f_equal. rewrite <- Hsl. symmetry. by apply refine_total_ext.
  - split; [done|]. by rewrite Hsl.
Qed.

Lemma slices_decoded_independently_witness :
  heatmap4 two_rows 2 1 1 3 /\ heatmap4 two_rows_other 1 2 1 3 /\
  (forall y x, y < 1 -> x < 3 ->
     np.item4 two_rows 1 0 y x = np.item4 two_rows_other 0 0 y x) /\
  exists coords maxvals coords' maxvals' c m,
    refined_coords two_rows = Ok (coords, maxvals) /\
    refined_coords two_rows_other = Ok (coords', maxvals') /\
    at2 coords 1 0 = Some c /\ at2 coords' 0 0 = Some c /\
    at2 maxvals 1 0 = Some m /\ at2 maxvals' 0 0 = Some m.
Proof.
  assert (Ha : heatmap4 two_rows 2 1 1 3) by (repeat split; lia).
  assert (Ha' : heatmap4 two_rows_other 1 2 1 3) by (repeat split; lia).
  assert (Heq : forall y x, y < 1 -> x < 3 ->
            np.item4 two_rows 1 0 y x = np.item4 two_rows_other 0 0 y x).
  { intros y x Hy Hx. destruct y as [|y]; [|lia].
    destruct x as [|[|[|x]]]; try lia; reflexivity. }
  split; [exact Ha|]. split; [exact Ha'|]. split; [exact Heq|].
  apply (slices_decoded_independently two_rows two_rows_other
           2 1 1 2 1 3 1 0 0 0 Ha Ha'); try lia. exact Heq.
Defined.

(** ** Exceptions of the post-processor *)

Lemma getitem_out {A} (l : list A) (i : nat) :
  length l <= i -> getitem l (Z.of_nat i) = Raise IndexError.
Proof.
  intros Hi. unfold getitem.
  destruct (Z.ltb_spec (Z.of_nat i) 0); [lia|].
  destruct (Z.leb_spec 0 (Z.of_nat i)); [|lia].
  by destruct (Z.ltb_spec (Z.of_nat i) (Z.of_nat (length l))); [lia|].
Qed.

Lemma imapM_first_raise {A B} (f : nat -> A -> result B) (l : list A)
    (i k : nat) (x : A) (e : exn) :
  l !! k = Some x -> f (i + k) x = Raise e ->
  (forall k' x', k' < k -> l !! k' = Some x' ->
     exists y, f (i + k') x' = Ok y) ->
  imapM f i l = Raise e.
Proof.
  revert i k. induction l as [|z l IH]; intros i k Hk Hf Hbefore; [done|].
  destruct k as [|k]; simpl.
  - injection Hk as ->. rewrite Nat.add_0_r in Hf. by rewrite Hf.
  - destruct (Hbefore 0 z ltac:(lia) eq_refl) as [y Hy].
    rewrite Nat.add_0_r in Hy. rewrite Hy. cbn [bind].
    rewrite (IH (S i) k); [done|done| |].
    + by replace (S i + k) with (i + S k) by lia.
    + intros k' x' Hk' Hx'.
      destruct (Hbefore (S k') x' ltac:(lia) Hx') as [y' Hy'].
      exists y'. by replace (S i + k') with (i + S k') by lia.
Qed.

(** X5: when [center] or [scale] has fewer rows than the batch,
    [get_final_preds] raises IndexError at the first image without a row,
    and so does [__call__]. *)
Theorem get_final_preds_short_center_or_scale
    (tp : list (Q * Q) -> Q * Q -> Q * Q -> nat * nat -> list (Q * Q))
    (a : np.ndarray) (B J H W : nat) (center scale : list (Q * Q)) :
  heatmap4 a B J H W ->
  length center < B \/ length scale < B ->
  get_final_preds tp a center scale = Raise IndexError /\
  __call__ tp a center scale = Raise IndexError.
Proof.
  intros Ha Hshort.
  assert (Hfin : get_final_preds tp a center scale = Raise IndexError).
  { unfold get_final_preds.
    rewrite (refined_coords_table a B J H W Ha). cbn [bind fst snd].
    set (k := Nat.min (length center) (length scale)).
    assert (Hk : k < B) by lia.
    destruct (lookup_lt_is_Some_2
                (tabulate2 B J (fun n p =>
                   refine_total a H W n p (masked_peak W (slice a n p)))) k)
      as [row Hrow]; [by rewrite tabulate2_length|].
    rewrite (imapM_first_raise _ _ 0 k row IndexError); [done|exact Hrow| |].
    - cbn [Nat.add].
      destruct (decide (length center <= k)) as [Hc|Hc].
      + by rewrite (getitem_out center k Hc).
      + destruct (lookup_lt_is_Some_2 center k ltac:(lia)) as [c Hck].
        rewrite (getitem_lookup _ _ _ Hck). cbn [bind].
        rewrite (getitem_out scale k); [done|lia].
    - intros k' x' Hk' _. cbn [Nat.add].
      destruct (lookup_lt_is_Some_2 center k' ltac:(lia)) as [c Hck].
      destruct (lookup_lt_is_Some_2 scale k' ltac:(lia)) as [s Hsk].
      rewrite (getitem_lookup _ _ _ Hck), (getitem_lookup _ _ _ Hsk).
      cbn [bind]. eauto. }
  split; [exact Hfin|]. unfold __call__. by rewrite Hfin.
Qed.

Lemma get_final_preds_short_center_or_scale_witness :
  heatmap4 two_images 2 1 1 2 /\
  get_final_preds transform_preds_spec two_images
                  [(0, 0)%Q] [(1, 1); (1, 1)]%Q = Raise IndexError /\
  __call__ transform_preds_spec two_images
           [(0, 0)%Q] [(1, 1); (1, 1)]%Q = Raise IndexError.
Proof.
  assert (Ha : heatmap4 two_images 2 1 1 2) by (repeat split; lia).
  split; [exact Ha|].
  apply (get_final_preds_short_center_or_scale transform_preds_spec
           two_images 2 1 1 2 _ _ Ha). left. simpl. lia.
Defined.

Lemma raises_only_bind {A B} (P : exn -> Prop) (c : result A)
    (k : A -> result B) :
  raises_only P c -> (forall x, raises_only P (k x)) ->
  raises_only P (bind c k).
Proof. intros Hc Hk. destruct c as [x|e]; simpl; [apply Hk|done]. Qed.

Lemma raises_only_weaken {A} (P P' : exn -> Prop) (r : result A) :
  (forall e, P e -> P' e) -> raises_only P r -> raises_only P' r.
Proof. intros HP. destruct r; simpl; auto. Qed.

Lemma raises_only_mapM {A B} (P : exn -> Prop) (f : A -> result B)
    (l : list A) :
  (forall x, raises_only P (f x)) -> raises_only P (mapM f l).
Proof.
  intros Hf. induction l as [|x l IH]; simpl; [done|].
  apply raises_only_bind; [apply Hf|]. intros y.
  apply raises_only_bind; [apply IH|]. done.
Qed.

Lemma raises_only_imapM {A B} (P : exn -> Prop) (f : nat -> A -> result B)
    (i : nat) (l : list A) :
  (forall k x, raises_only P (f k x)) -> raises_only P (imapM f i l).
Proof.
  intros Hf. revert i. induction l as [|x l IH]; intros i; simpl; [done|].
  apply raises_only_bind; [apply Hf|]. intros y.
  apply raises_only_bind; [apply IH|]. done.
Qed.

Lemma raises_only_zip_withM {A B C} (P : exn -> Prop)
    (f : A -> B -> result C) (l : list A) (k : list B) :
  P ValueError -> (forall x y, raises_only P (f x y)) ->
  raises_only P (zip_withM f l k).
Proof.
  intros HV Hf. revert k.
  induction l as [|x l IH]; intros [|y k]; simpl; try done.
  apply raises_only_bind; [apply Hf|]. intros z.
  apply raises_only_bind; [apply IH|]. done.
Qed.

Lemma raises_only_getitem {A} (l : list A) (i : Z) :
  raises_only (fun e => e = IndexError) (getitem l i).
Proof.
  unfold getitem. destruct (_ && _); [|done]. by destruct (l !! _).
Qed.

Lemma raises_only_get_max_preds (a : np.ndarray) :
  np.ndim a = 4 ->
  raises_only (fun e => e = ValueError) (get_max_preds (PyNdarray a)).
Proof.
  intros Hd. unfold get_max_preds. rewrite Hd. cbn [Nat.eqb negb].
  apply raises_only_bind.
  { unfold np.reshape3, np.reshape_infer. by destruct (_ || _). }
  intros rows. apply raises_only_bind.
  { apply raises_only_mapM. intros row. apply raises_only_mapM.
    by intros [|x l]. }
  intros idx. apply raises_only_bind; [|done].
  apply raises_only_mapM. intros row. apply raises_only_mapM.
  by intros [|x l].
Qed.

Lemma raises_only_refine (a : np.ndarray) (H W n p : nat) (c : Q * Q) :
  raises_only (fun e => e = IndexError) (refine a H W n p c).
Proof.
  unfold refine. apply raises_only_bind.
  { unfold np.sub2. destruct (np.shape a) as [|? [|? [|? [|? [|]]]]]; try done.
    by destruct (_ && _). }
  intros hm. destruct (_ && _ && _ && _); [|done].
  repeat (apply raises_only_bind; [apply raises_only_getitem|intros ?]).
  done.
Qed.

Lemma call_not_4d tp (output : np.ndarray) (center scale : list (Q * Q)) :
  np.ndim output <> 4 ->
  __call__ tp output center scale
  = Raise (AssertionError "batch_images should be 4-ndim").
Proof.
  intros Hd. unfold __call__, get_final_preds, refined_coords, get_max_preds.
  apply Nat.eqb_neq in Hd. by rewrite Hd.
Qed.

Lemma call_4d_raises_only tp (output : np.ndarray)
    (center scale : list (Q * Q)) :
  np.ndim output = 4 ->
  raises_only (fun e => e = ValueError \/ e = IndexError)
              (__call__ tp output center scale).
Proof.
  intros Hd. unfold __call__, get_final_preds, refined_coords.
  repeat (apply raises_only_bind; [|intros ?]); try done.
  - eapply raises_only_weaken; [|by apply raises_only_get_max_preds]. tauto.
  - apply raises_only_imapM. intros n row. apply raises_only_imapM.
    intros p c. eapply raises_only_weaken; [|apply raises_only_refine].
    tauto.
  - apply raises_only_imapM. intros i row.
    repeat (apply raises_only_bind; [|intros ?]); try done;
      (eapply raises_only_weaken; [|apply raises_only_getitem]); tauto.
  - apply raises_only_zip_withM; [tauto|]. intros row mrow.
    apply raises_only_zip_withM; [tauto|]. done.
Qed.

(** X6: with [center] and [scale] sequences of pairs, [__call__] raises
    an assertion error exactly when its heatmap is not 4-dimensional; on
    a 4-dimensional heatmap it returns or raises ValueError or IndexError,
    nothing else. *)
Theorem call_raises_assertion_iff_not_4d
    (tp : list (Q * Q) -> Q * Q -> Q * Q -> nat * nat -> list (Q * Q))
    (output : np.ndarray) (center scale : list (Q * Q)) :
  (np.ndim output <> 4 ->
   is_assertion_error (__call__ tp output center scale)) /\
  (np.ndim output = 4 ->
   raises_only (fun e => e = ValueError \/ e = IndexError)
               (__call__ tp output center scale)).
Proof.
  split.
  - intros Hd. by rewrite call_not_4d.
  - apply call_4d_raises_only.
Qed.

Lemma call_raises_assertion_iff_not_4d_witness :
  np.ndim (np.NdArray [3; 3] [0; 0; 0; 0; 5; 3; 0; 0; 0]%Q) <> 4 /\
  np.ndim centre3 = 4 /\
  is_assertion_error
    (__call__ transform_preds_spec
              (np.NdArray [3; 3] [0; 0; 0; 0; 5; 3; 0; 0; 0]%Q)
              [(0, 0)%Q] [(1, 1)%Q]) /\
  raises_only (fun e => e = ValueError \/ e = IndexError)
    (__call__ transform_preds_spec centre3 [(0, 0)%Q] [(1, 1)%Q]).
Proof.
  assert (H2 : np.ndim (np.NdArray [3; 3] [0; 0; 0; 0; 5; 3; 0; 0; 0]%Q) <> 4)
    by (unfold np.ndim; simpl; lia).
  split; [exact H2|]. split; [reflexivity|]. split.
  - exact (proj1 (call_raises_assertion_iff_not_4d transform_preds_spec
                    _ [(0, 0)%Q] [(1, 1)%Q]) H2).
  - exact (proj2 (call_raises_assertion_iff_not_4d transform_preds_spec
                    centre3 [(0, 0)%Q] [(1, 1)%Q]) eq_refl).
Defined.

(** * Further properties of [TopDownHRNet] *)

Lemma swap_pair_out_of_range B J H W (m : list Q) (pr : nat * nat) :
  ~ (fst pr < J /\ snd pr < J) ->
  swap_pair (flipped_view B J H W) m pr = Raise IndexError.
Proof.
  intros Hout. unfold swap_pair.
  destruct (decide (fst pr < J)) as [H0|H0].
  - rewrite (select_flipped_view B J H W _ H0). cbn [bind].
    rewrite (select_flipped_view_out B J H W (snd pr)); [done|lia].
  - rewrite (select_flipped_view_out B J H W (fst pr)); [done|lia].
Qed.

Lemma swap_pairs_out_of_range B J H W (pairs : list (nat * nat))
    (m : list Q) :
  length m = B * J * (H * W) -> ~ pairs_in_range J pairs ->
  swap_pairs (flipped_view B J H W) m pairs = Raise IndexError.
Proof.
  revert m. induction pairs as [|pr rest IH]; intros m Hm Hout.
  - exfalso. apply Hout. constructor.
  - cbn [swap_pairs].
    destruct (decide (fst pr < J /\ snd pr < J)) as [[H0 H1]|Hpr].
    + destruct (swap_pair_spec B J H W m pr H0 H1 Hm) as (m1 & -> & Hl & _).
      cbn [bind]. apply IH; [lia|]. intros Hrest. apply Hout.
      by constructor.
    + by rewrite swap_pair_out_of_range.
Qed.

(** X7: on a 4-dimensional array [flip_back] returns exactly when every
    pair names two existing channels; a pair with an index >= num_joints
    makes it raise IndexError. *)
Theorem flip_back_returns_iff_pairs_in_range (a : np.ndarray)
    (pairs : list (nat * nat)) (B J H W : nat) :
  array4 a B J H W ->
  (pairs_in_range J pairs -> returns (flip_back a pairs)) /\
  (~ pairs_in_range J pairs -> flip_back a pairs = Raise IndexError).
Proof.
  intros Ha. split.
  - intros Hr.
    destruct (flip_back_spec a B J H W pairs Ha Hr) as (m' & -> & _). done.
  - intros Hout. pose proof (array4_numel _ _ _ _ _ Ha) as Hlen.
    destruct Ha as (Hs & _).
    unfold flip_back, np.ndim. rewrite Hs. cbn [length Nat.eqb negb].
    rewrite (flip_base_view a B J H W Hs).
    by rewrite (swap_pairs_out_of_range B J H W pairs _ Hlen Hout).
Qed.

Lemma flip_back_returns_iff_pairs_in_range_witness :
  array4 three_channels 1 3 1 2 /\
  pairs_in_range 3 [(0, 1)] /\ ~ pairs_in_range 3 [(0, 1); (2, 3)] /\
  returns (flip_back three_channels [(0, 1)]) /\
  flip_back three_channels [(0, 1); (2, 3)] = Raise IndexError.
Proof.
  assert (Hout : ~ pairs_in_range 3 [(0, 1); (2, 3)]).
  { intros Hr. inversion Hr as [|? ? _ Hr']; subst.
    inversion Hr' as [|? ? [_ H3] _]; subst. simpl in H3. lia. }
  split; [exact array4_three_channels|].
  split; [exact pairs_01_in_range|]. split; [exact Hout|]. split.
  - exact (proj1 (flip_back_returns_iff_pairs_in_range three_channels
                    [(0, 1)] 1 3 1 2 array4_three_channels)
                 pairs_01_in_range).
  - exact (proj2 (flip_back_returns_iff_pairs_in_range three_channels
                    [(0, 1); (2, 3)] 1 3 1 2 array4_three_channels) Hout).
Defined.

(** X8: [flip_back] keeps the size of the caller's buffer and never
    touches a channel that occurs in no pair: after the call the caller's
    array holds there what it held before. *)
Theorem flip_back_leaves_unpaired_channels (arr : np.ndarray)
    (pairs : list (nat * nat)) (B J H W : nat) :
  array4 arr B J H W -> pairs_in_range J pairs ->
  exists v m',
    flip_back arr pairs = Ok (v, m') /\
    array4 (with_buffer arr m') B J H W /\
    forall n j y x, unpaired pairs j ->
      n < B -> j < J -> y < H -> x < W ->
      np.item4 (with_buffer arr m') n j y x = np.item4 arr n j y x.
Proof.
  intros Ha Hr.
  destruct (flip_back_spec arr B J H W pairs Ha Hr)
    as (m' & Hfb & Hlen & Hbuf & _).
  pose proof Ha as (Hs & Hwf).
  eexists _, m'. split; [exact Hfb|]. split.
  - split; [done|]. unfold np.wf, with_buffer in *.
    cbn [np.data np.shape]. by rewrite Hlen.
  - intros n j y x Hu Hn Hj Hy Hx.
    rewrite (item4_nth (with_buffer arr m') B J H W) by done.
    cbn [np.data with_buffer]. rewrite Hbuf by done.
    by rewrite channel_source_unpaired.
Qed.

Lemma flip_back_leaves_unpaired_channels_witness :
  array4 three_channels 1 3 1 2 /\ pairs_in_range 3 [(0, 1)] /\
  exists v m',
    flip_back three_channels [(0, 1)] = Ok (v, m') /\
    array4 (with_buffer three_channels m') 1 3 1 2 /\
    forall n j y x, unpaired [(0, 1)] j ->
      n < 1 -> j < 3 -> y < 1 -> x < 2 ->
      np.item4 (with_buffer three_channels m') n j y x
      = np.item4 three_channels n j y x.
Proof.
  split; [exact array4_three_channels|]. split; [exact pairs_01_in_range|].
  exact (flip_back_leaves_unpaired_channels three_channels [(0, 1)] 1 3 1 2
           array4_three_channels pairs_01_in_range).
Defined.

(** ** Arrays are determined by their elements *)

Lemma flat4_surjective (B J H W k : nat) :
  k < B * J * (H * W) ->
  exists n j y x,
    n < B /\ j < J /\ y < H /\ x < W /\ k = flat4 J H W n j y x.
Proof.
  intros Hk.
  assert (HW : 0 < W) by nia. assert (HH : 0 < H) by nia.
  assert (HJ : 0 < J) by nia.
  exists (k / W / H / J), (k / W / H mod J), (k / W mod H), (k mod W).
  assert (H1 : k / W < B * J * H).
  { apply Nat.Div0.div_lt_upper_bound. lia. }
  assert (H2 : k / W / H < B * J).
  { apply Nat.Div0.div_lt_upper_bound. lia. }
  split; [apply Nat.Div0.div_lt_upper_bound; lia|].
  split; [apply Nat.mod_upper_bound; lia|].
  split; [apply Nat.mod_upper_bound; lia|].
  split; [apply Nat.mod_upper_bound; lia|].
  unfold flat4.
  rewrite (Nat.div_mod_eq k W) at 1.
  rewrite (Nat.div_mod_eq (k / W) H) at 1.
  rewrite (Nat.div_mod_eq (k / W / H) J) at 1. lia.
Qed.

Lemma array4_ext a a' B J H W :
  array4 a B J H W -> array4 a' B J H W ->
  (forall n j y x, n < B -> j < J -> y < H -> x < W ->
     np.item4 a n j y x = np.item4 a' n j y x) ->
  a = a'.
Proof.
  intros Ha Ha' Heq.
  pose proof (array4_numel _ _ _ _ _ Ha) as Hl.
  pose proof (array4_numel _ _ _ _ _ Ha') as Hl'.
  destruct Ha as (Hs & _). destruct Ha' as (Hs' & _).
  destruct a as [sh d]. destruct a' as [sh' d']. simpl in *. subst sh sh'.
  f_equal. apply (nth_ext d d' 0%Q 0%Q); [lia|].
  intros k Hk. rewrite Hl in Hk.
  destruct (flat4_surjective B J H W k Hk)
    as (n & j & y & x & Hn & Hj & Hy & Hx & ->).
  specialize (Heq n j y x Hn Hj Hy Hx).
  by rewrite !(item4_nth _ B J H W) in Heq.
Qed.

Lemma paired_or_unpaired (pairs : list (nat * nat)) (j : nat) :
  unpaired pairs j \/ exists a b, In (a, b) pairs /\ (j = a \/ j = b).
Proof.
  induction pairs as [|[a b] rest IH]; [left; constructor|].
  destruct (decide (j = a)) as [->|Ha].
  { right. exists a, b. split; [by left|by left]. }
  destruct (decide (j = b)) as [->|Hb].
  { right. exists a, b. split; [by left|by right]. }
  destruct IH as [Hu|(c & d & Hin & Hj)].
  - left. by constructor.
  - right. exists c, d. split; [by right|done].
Qed.

Lemma channel_source_involutive (pairs : list (nat * nat)) (j : nat) :
  disjoint_pairs pairs ->
  channel_source pairs (channel_source pairs j) = j.
Proof.
  intros Hd. destruct (paired_or_unpaired pairs j)
    as [Hu|(a & b & Hin & [->| ->])].
  - by rewrite !(channel_source_unpaired pairs j Hu).
  - destruct (channel_source_paired pairs a b Hd Hin) as [Ha Hb].
    by rewrite Ha, Hb.
  - destruct (channel_source_paired pairs a b Hd Hin) as [Ha Hb].
    by rewrite Hb, Ha.
Qed.

Lemma item4_flip_back_copy a B J H W pairs out n j y x :
  array4 a B J H W -> pairs_in_range J pairs ->
  flip_back a pairs = Ok out ->
  n < B -> j < J -> y < H -> x < W ->
  array4 (to_tensor_copy out) B J H W /\
  np.item4 (to_tensor_copy out) n j y x
  = np.item4 a n (channel_source pairs j) y (W - 1 - x).
Proof.
  intros Ha Hr Hout Hn Hj Hy Hx.
  destruct (flip_back_spec a B J H W pairs Ha Hr) as (m' & Hfb & _ & _ & Hv).
  rewrite Hfb in Hout. injection Hout as <-.
  split; [by apply array4_to_tensor_copy|].
  rewrite (item4_to_tensor_copy _ _ B J H W) by done. by apply Hv.
Qed.

(** X9: flipping back twice with the same disjoint pairs gives the array
    back: [flip_back(flip_back(a).copy()).copy()] has the shape and the
    elements [a] had before the first call. *)
Theorem flip_back_twice_restores (a : np.ndarray) (pairs : list (nat * nat))
    (B J H W : nat) :
  array4 a B J H W -> disjoint_pairs pairs -> pairs_in_range J pairs ->
  exists out out',
    flip_back a pairs = Ok out /\
    flip_back (to_tensor_copy out) pairs = Ok out' /\
    to_tensor_copy out' = a.
Proof.
  intros Ha Hd Hr.
  destruct (flip_back_spec a B J H W pairs Ha Hr) as (m1 & Hfb1 & _).
  set (out := (flipped_view B J H W, m1)) in *.
  assert (Hb4 : array4 (to_tensor_copy out) B J H W)
    by (by apply array4_to_tensor_copy).
  destruct (flip_back_spec _ B J H W pairs Hb4 Hr) as (m2 & Hfb2 & _).
  set (out' := (flipped_view B J H W, m2)) in *.
  exists out, out'. split; [done|]. split; [done|].
  apply (array4_ext _ _ B J H W); [by apply array4_to_tensor_copy|done|].
  intros n j y x Hn Hj Hy Hx.
  destruct (item4_flip_back_copy _ B J H W pairs out' n j y x Hb4 Hr Hfb2)
    as [_ ->]; try done.
  destruct (item4_flip_back_copy a B J H W pairs out n
              (channel_source pairs j) y (W - 1 - x) Ha Hr Hfb1)
    as [_ ->]; try done; try lia; try (by apply (channel_source_range J)).
  rewrite channel_source_involutive by done. f_equal. lia.
Qed.

Lemma flip_back_twice_restores_witness :
  array4 three_channels 1 3 1 2 /\
  disjoint_pairs [(0, 1)] /\ pairs_in_range 3 [(0, 1)] /\
  exists out out',
    flip_back three_channels [(0, 1)] = Ok out /\
    flip_back (to_tensor_copy out) [(0, 1)] = Ok out' /\
    to_tensor_copy out' = three_channels.
Proof.
  split; [exact array4_three_channels|].
  split; [exact pairs_01_disjoint|]. split; [exact pairs_01_in_range|].
  exact (flip_back_twice_restores three_channels [(0, 1)] 1 3 1 2
           array4_three_channels pairs_01_disjoint pairs_01_in_range).
Defined.

(** ** The order of the pairs *)

Lemma disjoint_pairs_perm (pairs pairs' : list (nat * nat)) :
  Permutation pairs pairs' -> disjoint_pairs pairs -> disjoint_pairs pairs'.
Proof.
  induction 1 as [|pr l l' Hperm IH|pr qr l|l l' l'' _ IH1 _ IH2]; simpl.
  - done.
  - intros [Hpr Hd]. split; [|by apply IH].
    by rewrite <- Hperm.
  - intros [Hq [Hp Hd]]. apply Forall_cons in Hq as [Hqp Hq].
    split; [|by split]. constructor; [|done].
    simpl in Hqp. destruct Hqp as (?&?&?&?). repeat split; congruence.
  - auto.
Qed.

Lemma channel_source_perm (pairs pairs' : list (nat * nat)) (j : nat) :
  Permutation pairs pairs' -> disjoint_pairs pairs ->
  channel_source pairs j = channel_source pairs' j.
Proof.
  intros Hperm Hd.
  pose proof (disjoint_pairs_perm _ _ Hperm Hd) as Hd'.
  destruct (paired_or_unpaired pairs j) as [Hu|(a & b & Hin & Hj)].
  - assert (Hu' : unpaired pairs' j) by (unfold unpaired; by rewrite <- Hperm).
    by rewrite !channel_source_unpaired.
  - pose proof (Permutation_in _ Hperm Hin) as Hin'.
    destruct (channel_source_paired pairs a b Hd Hin) as [Ha Hb].
    destruct (channel_source_paired pairs' a b Hd' Hin') as [Ha' Hb'].
    destruct Hj as [-> | ->]; congruence.
Qed.

(** X10: for disjoint pairs the order in which [matched_parts] lists them
    does not matter: [flip_back] returns the same view and leaves the same
    buffer for every reordering of the list. *)
Theorem flip_back_order_irrelevant (a : np.ndarray)
    (pairs pairs' : list (nat * nat)) (B J H W : nat) :
  array4 a B J H W -> disjoint_pairs pairs -> pairs_in_range J pairs ->
  Permutation pairs pairs' ->
  exists out, flip_back a pairs = Ok out /\ flip_back a pairs' = Ok out.
Proof.
  intros Ha Hd Hr Hperm.
  assert (Hr' : pairs_in_range J pairs')
    by (unfold pairs_in_range; by rewrite <- Hperm).
  destruct (flip_back_spec a B J H W pairs Ha Hr)
    as (m & Hfb & Hl & Hbuf & _).
  destruct (flip_back_spec a B J H W pairs' Ha Hr')
    as (m' & Hfb' & Hl' & Hbuf' & _).
  exists (flipped_view B J H W, m). split; [done|].
  rewrite Hfb'. do 2 f_equal.
  pose proof (array4_numel _ _ _ _ _ Ha) as Hlen.
  apply (nth_ext m' m 0%Q 0%Q); [lia|].
  intros k Hk. rewrite Hl', Hlen in Hk.
  destruct (flat4_surjective B J H W k Hk)
    as (n & j & y & x & Hn & Hj & Hy & Hx & ->).
  rewrite Hbuf, Hbuf' by done.
  by rewrite (channel_source_perm pairs pairs' j Hperm Hd).
Qed.

Lemma flip_back_order_irrelevant_witness :
  array4 two_pairs_array 1 4 1 1 /\
  disjoint_pairs [(0, 1); (2, 3)] /\ pairs_in_range 4 [(0, 1); (2, 3)] /\
  Permutation [(0, 1); (2, 3)] [(2, 3); (0, 1)] /\
  exists out,
    flip_back two_pairs_array [(0, 1); (2, 3)] = Ok out /\
    flip_back two_pairs_array [(2, 3); (0, 1)] = Ok out.
Proof.
  assert (Ha : array4 two_pairs_array 1 4 1 1) by (by split).
  assert (Hd : disjoint_pairs [(0, 1); (2, 3)]).
  { simpl. repeat split; try done. repeat constructor; simpl; lia. }
  assert (Hr : pairs_in_range 4 [(0, 1); (2, 3)])
    by (repeat constructor; simpl; lia).
  assert (Hp : Permutation [(0, 1); (2, 3)] [(2, 3); (0, 1)])
    by apply perm_swap.
  split; [exact Ha|]. split; [exact Hd|]. split; [exact Hr|].
  split; [exact Hp|].
  exact (flip_back_order_irrelevant two_pairs_array _ _ 1 4 1 1 Ha Hd Hr Hp).
Defined.

(** ** The one-pixel shift *)

(** X11: on a tensor of width at least 2 without empty axis the shift of
    lines 86-87 returns a tensor of the same shape that keeps column 0
    and holds in every column x >= 1 the former column x - 1; on a tensor
    of width 1 the assignment raises ValueError. *)
Theorem shift_keeps_first_column (t : np.ndarray) (B J H W : nat) :
  array4 t B J H W -> 0 < B -> 0 < J -> 0 < H ->
  (2 <= W ->
   exists t',
     shift t = Ok t' /\ array4 t' B J H W /\
     (forall n j y, n < B -> j < J -> y < H ->
        np.item4 t' n j y 0 = np.item4 t n j y 0) /\
     (forall n j y x, n < B -> j < J -> y < H -> 1 <= x -> x < W ->
        np.item4 t' n j y x = np.item4 t n j y (x - 1))) /\
  (W = 1 -> shift t = Raise ValueError).
Proof.
  intros Ha HB HJ HH. split.
  - intros HW.
    destruct (shift_spec t B J H W Ha) as (t' & Hsh & Ht' & Hitems); [nia|].
    exists t'. split; [done|]. split; [done|]. split.
    + intros n j y Hn Hj Hy. rewrite Hitems by (done || lia).
      by rewrite decide_False by lia.
    + intros n j y x Hn Hj Hy Hx1 Hx. rewrite Hitems by done.
      by rewrite decide_True by done.
  - intros ->. apply (shift_empty t B J H 1 Ha). lia.
Qed.

Lemma shift_keeps_first_column_witness :
  array4 three_channels 1 3 1 2 /\ array4 one_column 1 1 2 1 /\
  (exists t',
     shift three_channels = Ok t' /\ array4 t' 1 3 1 2 /\
     (forall n j y, n < 1 -> j < 3 -> y < 1 ->
        np.item4 t' n j y 0 = np.item4 three_channels n j y 0) /\
     (forall n j y x, n < 1 -> j < 3 -> y < 1 -> 1 <= x -> x < 2 ->
        np.item4 t' n j y x = np.item4 three_channels n j y (x - 1))) /\
  shift one_column = Raise ValueError.
Proof.
  assert (Ha : array4 one_column 1 1 2 1) by (by split).
  split; [exact array4_three_channels|]. split; [exact Ha|]. split.
  - apply (shift_keeps_first_column three_channels 1 3 1 2
             array4_three_channels); lia.
  - apply (shift_keeps_first_column one_column 1 1 2 1 Ha); lia.
Defined.

(** ** Decoding a flipped-back heatmap *)

(** X12: decoding agrees with the flip on heatmaps whose slices have at
    most 2^24 pixels: when joint d of the array has a single positive
    maximum at pixel (x0, y0) and (c, d) is one of the disjoint pairs,
    [get_max_preds] on the flipped-back array finds joint c at the
    mirrored pixel (W - 1 - x0, y0) with the same confidence. *)
Theorem flipped_back_peak_is_mirrored (a : np.ndarray)
    (pairs : list (nat * nat)) (B J H W c d n y0 x0 : nat) :
  heatmap4 a B J H W -> index_exact H W ->
  disjoint_pairs pairs -> pairs_in_range J pairs ->
  In (c, d) pairs -> n < B -> y0 < H -> x0 < W ->
  strict_peak a H W n d y0 x0 -> (0 < np.item4 a n d y0 x0)%Q ->
  exists out coords maxvals cc,
    flip_back a pairs = Ok out /\
    get_max_preds (PyNdarray (to_tensor_copy out)) = Ok (coords, maxvals) /\
    at2 coords n c = Some cc /\
    coord_eq cc (pixel (W - 1 - x0), pixel y0) /\
    at2 maxvals n c = Some (np.item4 a n d y0 x0).
Proof.
  intros Ha He Hd Hr Hin Hn Hy0 Hx0 Hpeak Hpos.
  pose proof (heatmap4_array4 _ _ _ _ _ Ha) as Ha4.
  destruct (flip_back_spec a B J H W pairs Ha4 Hr) as (m' & Hfb & _).
  set (out := (flipped_view B J H W, m')) in *.
  destruct (pairs_in_range_In J pairs c d Hr Hin) as [Hc Hdj].
  destruct (channel_source_paired pairs c d Hd Hin) as [Hcd _].
  assert (Hitem : forall y x, y < H -> x < W ->
            np.item4 (to_tensor_copy out) n c y x
            = np.item4 a n d y (W - 1 - x)).
  { intros y x Hy Hx.
    destruct (item4_flip_back_copy a B J H W pairs out n c y x Ha4 Hr Hfb)
      as [_ ->]; try done. by rewrite Hcd. }
  assert (Hb : heatmap4 (to_tensor_copy out) B J H W).
  { destruct Ha as (_ & _ & HB & HJ & HH & HW).
    destruct (array4_to_tensor_copy (flipped_view B J H W) m' B J H W eq_refl)
      as [Hs Hwf]. by repeat split. }
  assert (Hpk : strict_peak (to_tensor_copy out) H W n c y0 (W - 1 - x0)).
  { intros y x Hy Hx Hne. rewrite !Hitem by lia.
    replace (W - 1 - (W - 1 - x0)) with x0 by lia.
    apply Hpeak; [done|lia|]. intros [= -> Hxx]. apply Hne. f_equal. lia. }
  destruct (strict_peak_argmax _ B J H W n c y0 (W - 1 - x0) Hb)
    as [Hj Hm]; try done; [lia|].
  rewrite Hitem in Hm by lia.
  replace (W - 1 - (W - 1 - x0)) with x0 in Hm by lia.
  exists out. eexists _, _, _. split; [done|].
  split; [by apply (get_max_preds_table _ B J H W)|].
  rewrite !at2_tabulate2 by done. split; [done|]. split; [|by rewrite Hm].
  pose proof (masked_peak_decoded (to_tensor_copy out) B J H W n c
                Hb He Hn Hc) as Hmp.
  rewrite Hj, flat_index_mod, flat_index_div in Hmp by lia.
  apply Hmp. by rewrite Hm.
Qed.

Lemma flipped_back_peak_is_mirrored_witness :
  heatmap4 two_joints 1 2 1 3 /\ index_exact 1 3 /\
  disjoint_pairs [(0, 1)] /\ pairs_in_range 2 [(0, 1)] /\
  strict_peak two_joints 1 3 0 1 0 1 /\
  (0 < np.item4 two_joints 0 1 0 1)%Q /\
  exists out coords maxvals cc,
    flip_back two_joints [(0, 1)] = Ok out /\
    get_max_preds (PyNdarray (to_tensor_copy out)) = Ok (coords, maxvals) /\
    at2 coords 0 0 = Some cc /\
    coord_eq cc (pixel (3 - 1 - 1), pixel 0) /\
    at2 maxvals 0 0 = Some (np.item4 two_joints 0 1 0 1).
Proof.
  assert (Ha : heatmap4 two_joints 1 2 1 3) by (repeat split; lia).
  assert (He : index_exact 1 3) by (unfold index_exact; simpl; lia).
  assert (Hr : pairs_in_range 2 [(0, 1)]) by (repeat constructor).
  assert (Hpk : strict_peak two_joints 1 3 0 1 0 1).
  { intros y x Hy Hx Hne. destruct y as [|y]; [|lia].
    destruct x as [|[|[|x]]]; try lia; try reflexivity. done. }
  assert (Hpos : (0 < np.item4 two_joints 0 1 0 1)%Q) by reflexivity.
  split; [exact Ha|]. split; [exact He|]. split; [exact pairs_01_disjoint|].
  split; [exact Hr|]. split; [exact Hpk|]. split; [exact Hpos|].
  apply (flipped_back_peak_is_mirrored two_joints [(0, 1)] 1 2 1 3 0 1 0 0 1
           Ha He pairs_01_disjoint Hr);
    try lia; [by left|exact Hpk|exact Hpos].
Defined.

(** ** From the network to the result *)

Lemma average_heatmap4 h f B J H W :
  heatmap4 h B J H W -> array4 f B J H W ->
  exists final, average h f = Ok final /\ heatmap4 final B J H W.
Proof.
  intros Hh Hf. pose proof (heatmap4_numel _ _ _ _ _ Hh) as Hlh.
  pose proof (array4_numel _ _ _ _ _ Hf) as Hlf.
  destruct Hh as (Hsh & _ & HB & HJ & HH & HW). destruct Hf as (Hsf & _).
  unfold average. rewrite decide_True by congruence.
  eexists. split; [reflexivity|]. repeat split; try done.
  unfold np.wf. cbn [np.data np.shape]. rewrite length_zip_with, Hsh.
  simpl. lia.
Qed.

Lemma flip_test_heatmap4 net (self : config) (inp : inputs) B J H W :
  heatmap4 (net (image inp)) B J H W ->
  (flip self = true ->
   array4 (net (flip3 (image inp))) B J H W /\
   pairs_in_range J (flip_perm self) /\
   (shift_heatmap self = true -> 2 <= W)) ->
  exists final,
    flip_test net self inp (net (image inp)) = Ok final /\
    heatmap4 final B J H W.
Proof.
  intros Hh Hflip. unfold flip_test.
  destruct (flip self); [|by exists (net (image inp))].
  destruct (Hflip eq_refl) as (Hf & Hr & Hw).
  destruct (flip_back_spec _ B J H W _ Hf Hr) as (m' & -> & _).
  cbn [bind].
  set (fb := to_tensor_copy (flipped_view B J H W, m')).
  assert (Hfb4 : array4 fb B J H W) by (by apply array4_to_tensor_copy).
  destruct (shift_heatmap self).
  - destruct (shift_spec fb B J H W Hfb4) as (fc & -> & Hfc4 & _).
    { destruct Hh as (_ & _ & HB & HJ & HH & _).
      specialize (Hw eq_refl). nia. }
    cbn [bind]. by apply average_heatmap4.
  - cbn [bind]. by apply average_heatmap4.
Qed.

Lemma call_eval tp a B J H W center scale :
  keeps_rows tp -> heatmap4 a B J H W ->
  B <= length center -> B <= length scale ->
  exists kpts scores,
    __call__ tp a center scale = Ok [(kpts, scores)] /\
    table_shape B J kpts /\ length scores = B.
Proof.
  intros Htp Ha Hc Hs.
  destruct (get_final_preds_eval tp a B J H W center scale Ha Hc Hs)
    as (coords & maxvals & _ & Hfin & HlenC & HlenM & HrowC & HrowM).
  set (preds := imap _ coords) in Hfin.
  assert (HlenP : length preds = B) by (unfold preds; by rewrite length_imap).
  assert (HrowP : forall i row, preds !! i = Some row -> length row = J).
  { intros i row Hrow. unfold preds in Hrow.
    rewrite list_lookup_imap in Hrow.
    apply fmap_Some in Hrow as (r & Hr & ->). rewrite Htp. eauto. }
  unfold __call__. rewrite Hfin. cbn [bind fst snd].
  unfold concatenate_last.
  rewrite (zip_withM_Forall2 _ (zip_with pair)); last first.
  { apply Forall2_same_length_lookup_2; [lia|].
    intros i x y Hx Hy. apply (zip_withM_Forall2 _ pair).
    apply Forall2_same_length_lookup_2; [|done].
    by rewrite (HrowP _ _ Hx), (HrowM _ _ Hy). }
  cbn [bind]. eexists _, _. split; [reflexivity|].
  split; [|by rewrite length_map]. split.
  - rewrite length_zip_with. lia.
  - intros n row Hrow. apply lookup_zip_with_Some in Hrow
      as (prow & mrow & -> & Hp & Hm).
    rewrite length_zip_with, (HrowP _ _ Hp), (HrowM _ _ Hm). lia.
Qed.

(** X13: in inference mode, with [center] and [scale] given for every
    image and network outputs of shape (B, J, H, W) without empty axis,
    of width at least 2 when the flip test shifts the heatmap, [get_pred]
    does not raise: it returns the dict whose only key 'keypoint' holds
    the one-entry list with the B x J keypoint rows and the B scores,
    with or without the flip test. *)
Theorem get_pred_returns_keypoint_entry
    (net : np.ndarray -> np.ndarray) (loss_t : Type)
    (loss : np.ndarray -> inputs -> loss_t)
    (tp : list (Q * Q) -> Q * Q -> Q * Q -> nat * nat -> list (Q * Q))
    (self : config) (inp : inputs) (c s : list (Q * Q)) (B J H W : nat) :
  training self = false -> deploy self = false ->
  center inp = Some c -> scale inp = Some s ->
  B <= length c -> B <= length s -> keeps_rows tp ->
  heatmap4 (net (image inp)) B J H W ->
  (flip self = true ->
   array4 (net (flip3 (image inp))) B J H W /\
   pairs_in_range J (flip_perm self) /\
   (shift_heatmap self = true -> 2 <= W)) ->
  exists kpts scores,
    get_pred net loss_t loss tp self inp
    = Ok {[ "keypoint"%string := Keypoints loss_t [(kpts, scores)] ]} /\
    table_shape B J kpts /\ length scores = B.
Proof.
  intros Ht Hd Hc Hs Hlc Hls Htp Hh Hflip.
  destruct (flip_test_heatmap4 net self inp B J H W Hh Hflip)
    as (final & Hft & Hfin).
  destruct (call_eval tp final B J H W c s Htp Hfin Hlc Hls)
    as (kpts & scores & Hcall & Hk & Hsc).
  exists kpts, scores. split; [|done].
  unfold get_pred.
  rewrite (forward_inference net loss_t loss tp self inp c s final)
    by done.
  by rewrite Hcall.
Qed.

Lemma get_pred_returns_keypoint_entry_witness :
  keeps_rows transform_preds_spec /\
  heatmap4 (image flip_inputs) 1 3 1 2 /\
  array4 (flip3 (image flip_inputs)) 1 3 1 2 /\
  pairs_in_range 3 (flip_perm flip_config) /\
  (shift_heatmap flip_config = true -> 2 <= 2) /\
  exists kpts scores,
    get_pred (fun t => t) unit (fun _ _ => tt) transform_preds_spec
             flip_config flip_inputs
    = Ok {[ "keypoint"%string := Keypoints unit [(kpts, scores)] ]} /\
    table_shape 1 3 kpts /\ length scores = 1.
Proof.
  assert (Hh : heatmap4 (image flip_inputs) 1 3 1 2)
    by (repeat split; lia).
  assert (Hf : array4 (flip3 (image flip_inputs)) 1 3 1 2) by (by split).
  split; [exact keeps_rows_spec|]. split; [exact Hh|]. split; [exact Hf|].
  split; [exact pairs_01_in_range|]. split; [intros _; lia|].
  apply (get_pred_returns_keypoint_entry (fun t => t) unit (fun _ _ => tt)
           transform_preds_spec flip_config flip_inputs
           [(0, 0)%Q] [(1, 1)%Q] 1 3 1 2);
    try reflexivity; try (simpl; lia);
    [exact keeps_rows_spec|exact Hh|].
  intros _. split; [exact Hf|]. split; [exact pairs_01_in_range|].
  intros _. lia.
Defined.

(** X14: in inference mode, once the heatmap is computed, inputs without
    'im_shape' make [_forward] raise TypeError exactly when 'center' or
    'scale' is missing as well; with both given 'im_shape' is not
    needed. *)
Theorem forward_missing_keys
    (net : np.ndarray -> np.ndarray) (loss_t : Type)
    (loss : np.ndarray -> inputs -> loss_t)
    (tp : list (Q * Q) -> Q * Q -> Q * Q -> nat * nat -> list (Q * Q))
    (self : config) (inp : inputs) (final : np.ndarray) :
  training self = false -> deploy self = false ->
  flip_test net self inp (net (image inp)) = Ok final ->
  im_shape inp = None ->
  (_forward net loss_t loss tp self inp = Raise TypeError
   <-> center inp = None \/ scale inp = None).
Proof.
  intros Ht Hd Hft Him. unfold _forward. rewrite Ht, Hd, Hft, Him.
  cbn [bind option_map].
  destruct (center inp) as [c|]; [|split; [by left|done]].
  destruct (scale inp) as [s|]; [|split; [by right|done]].
  cbn [bind]. split; [|intros [|]; done].
  intros Hraise. exfalso.
  destruct (decide (np.ndim final = 4)) as [H4|H4].
  - pose proof (call_4d_raises_only tp final c s H4) as Hro.
    destruct (__call__ tp final c s) as [o|e]; cbn [bind] in Hraise; [done|].
    injection Hraise as ->. simpl in Hro. by destruct Hro.
  - rewrite (call_not_4d tp final c s H4) in Hraise. done.
Qed.

Lemma forward_missing_keys_witness :
  flip_test (fun t => t) plain_config bare_inputs (image bare_inputs)
  = Ok three_channels /\
  (_forward (fun t => t) unit (fun _ _ => tt) transform_preds_spec
            plain_config bare_inputs = Raise TypeError
   <-> center bare_inputs = None \/ scale bare_inputs = None).
Proof.
  split; [reflexivity|].
  exact (forward_missing_keys (fun t => t) unit (fun _ _ => tt)
           transform_preds_spec plain_config bare_inputs three_channels
           eq_refl eq_refl eq_refl eq_refl).
Defined.

(** ** The peak pixel *)

(** X15: on a heatmap whose slices have at most 2^24 pixels, for every
    slice the coordinate returned by [get_max_preds] is a pixel of the
    heatmap, no score of the slice exceeds the confidence, and when the
    confidence is positive it is the score at that pixel. *)
Theorem confidence_is_score_at_peak (a : np.ndarray) (B J H W n p : nat) :
  heatmap4 a B J H W -> index_exact H W -> n < B -> p < J ->
  exists coords maxvals c m xi yi,
    get_max_preds (PyNdarray a) = Ok (coords, maxvals) /\
    at2 coords n p = Some c /\ at2 maxvals n p = Some m /\
    xi < W /\ yi < H /\ coord_eq c (pixel xi, pixel yi) /\
    (forall y x, y < H -> x < W -> (np.item4 a n p y x <= m)%Q) /\
    ((0 < m)%Q -> np.item4 a n p yi xi = m).
Proof.
  intros Ha He Hn Hp.
  destruct (slice_first_max a B J H W n p Ha Hn Hp) as [(_ & Hle & _) _].
  destruct (amax_is_item a B J H W n p Ha Hn Hp) as (Hy & Hx & _ & Hm).
  pose proof Ha as (_ & _ & _ & _ & _ & HW).
  assert (Hall : forall y x, y < H -> x < W ->
            (np.item4 a n p y x <= amax_total (slice a n p))%Q).
  { intros y x Hy' Hx'. apply (Hle (y * W + x)).
    by apply (slice_lookup a B J H W). }
  destruct (Qlt_le_dec 0 (amax_total (slice a n p))) as [Hpos|Hnp].
  - eexists _, _, _, _, _, _.
    split; [by apply (get_max_preds_table a B J H W)|].
    rewrite !at2_tabulate2 by done. split; [done|]. split; [done|].
    split; [exact Hx|]. split; [exact Hy|].
    split; [by apply (masked_peak_decoded a B J H W)|]. split; [exact Hall|].
    intros _. by rewrite Hm.
  - exists (tabulate2 B J (fun n p => masked_peak W (slice a n p))),
      (tabulate2 B J (fun n p => amax_total (slice a n p))),
      (masked_peak W (slice a n p)), (amax_total (slice a n p)), 0, 0.
    split; [by apply (get_max_preds_table a B J H W)|].
    rewrite !at2_tabulate2 by done. split; [done|]. split; [done|].
    destruct Ha as (_ & _ & _ & _ & HH & _).
    split; [done|]. split; [done|].
    split; [by apply masked_peak_nonpositive|]. split; [exact Hall|].
    intros Hpos. exfalso. by apply (Qlt_not_le _ _ Hpos).
Qed.

Lemma confidence_is_score_at_peak_witness :
  heatmap4 centre5 1 1 5 5 /\ index_exact 5 5 /\
  exists coords maxvals c m xi yi,
    get_max_preds (PyNdarray centre5) = Ok (coords, maxvals) /\
    at2 coords 0 0 = Some c /\ at2 maxvals 0 0 = Some m /\
    xi < 5 /\ yi < 5 /\ coord_eq c (pixel xi, pixel yi) /\
    (forall y x, y < 5 -> x < 5 -> (np.item4 centre5 0 0 y x <= m)%Q) /\
    ((0 < m)%Q -> np.item4 centre5 0 0 yi xi = m).
Proof.
  assert (He : index_exact 5 5) by (unfold index_exact; simpl; lia).
  split; [exact heatmap4_centre5|]. split; [exact He|].
  apply (confidence_is_score_at_peak centre5 1 1 5 5 0 0 heatmap4_centre5 He);
    lia.
Defined.

(** X16: the refinement never leaves the pixel it started from: rounding
    a refined coordinate as lines 179-180 do gives the rounded peak of
    [get_max_preds] again, so running the refinement guard on the output
    selects the same slices. *)
Theorem refined_coordinate_rounds_to_peak (a : np.ndarray)
    (B J H W n p : nat) :
  heatmap4 a B J H W -> n < B -> p < J ->
  exists coords coords' maxvals c c',
    get_max_preds (PyNdarray a) = Ok (coords, maxvals) /\
    refined_coords a = Ok (coords', maxvals) /\
    at2 coords n p = Some c /\ at2 coords' n p = Some c' /\
    rounded (fst c') = rounded (fst c) /\
    rounded (snd c') = rounded (snd c).
Proof.
  intros Ha Hn Hp. eexists _, _, _, _, _.
  split; [by apply (get_max_preds_table a B J H W)|].
  split; [by apply (refined_coords_table a B J H W)|].
  rewrite !at2_tabulate2 by done. split; [done|]. split; [done|].
  destruct (masked_peak_integer W (slice a n p)) as (zx & zy & [H1 H2]).
  cbn [fst snd] in H1, H2.
  destruct (refine_total_cases a H W n p (masked_peak W (slice a n p)))
    as [[_ ->]|[_ ->]]; [|done].
  cbn [fst snd].
  set (dx := (np.item4 a n p _ _ - np.item4 a n p _ _)%Q).
  set (dy := (np.item4 a n p _ _ - np.item4 a n p _ _)%Q).
  pose proof (f32_add_quarter_near
                (fst (masked_peak W (slice a n p))) _
                (quarter_sign_range dx)) as Hsx.
  pose proof (f32_add_quarter_near
                (snd (masked_peak W (slice a n p))) _
                (quarter_sign_range dy)) as Hsy.
  rewrite (rounded_integer _ _ H1), (rounded_integer _ _ H2).
  unfold rounded.
  split; apply floor_between; lra.
Qed.

Lemma refined_coordinate_rounds_to_peak_witness :
  heatmap4 centre5 1 1 5 5 /\
  exists coords coords' maxvals c c',
    get_max_preds (PyNdarray centre5) = Ok (coords, maxvals) /\
    refined_coords centre5 = Ok (coords', maxvals) /\
    at2 coords 0 0 = Some c /\ at2 coords' 0 0 = Some c' /\
    rounded (fst c') = rounded (fst c) /\
    rounded (snd c') = rounded (snd c).
Proof.
  split; [exact heatmap4_centre5|].
  apply (refined_coordinate_rounds_to_peak centre5 1 1 5 5 0 0
           heatmap4_centre5); lia.
Defined.
